(** * be13_api: safer buffers, feature recorders and the scanner set

    A shallow embedding of the parts of be13_api that the specification
    talks about: [sbuf_t] (sbuf.h), [feature_recorder]
    (feature_recorder.cpp), [feature_recorder_set]
    (feature_recorder_set.cpp) and [scanner_set] (scanner_set.cpp).

    Conventions.
    - [size_t] and the fixed-width integer types are [Z] with the
      wrap-around written out ([size_t_wrap], [uint8_t], ...).
    - [std::string] is [string]; the bytes of a buffer are [list byte].
    - A C++ function that can throw returns a [res]: [Ret] for a normal
      return, [Throw] for an exception, [Abort] for a failed [assert],
      [Undef] for an access outside the storage of the buffer or through
      a pointer to no object, and [NoFuel] when a recursion of the C++
      code did not end within the bound given to its model. *)

From Stdlib Require Import ZArith List String Ascii Lia Bool DecimalString.
From Stdlib.Strings Require Import Byte.
From Stdlib Require Import Zbitwise.
From stdpp Require Import base option list gmap sets strings.

Local Open Scope string_scope.
Local Open Scope Z_scope.

(** ** Exceptions and results *)

Inductive exn : Type :=
| range_exception_t
| runtime_error (what : string)
| NoSuchFeatureRecorder (what : string)
| FeatureRecorderAlreadyExists (what : string)
| NoSuchScanner (what : string)
| other_std_exception (what : string).

(** [std::exception::what()] *)
Definition exn_what (e : exn) : string :=
  match e with
  | range_exception_t => "Error: Read past end of sbuf"
  | runtime_error w => w
  | NoSuchFeatureRecorder w => w
  | FeatureRecorderAlreadyExists w => w
  | NoSuchScanner w => w
  | other_std_exception w => w
  end.

Inductive res (A : Type) : Type :=
| Ret (a : A)
| Throw (e : exn)
| Abort
| Undef
| NoFuel.
Arguments Ret {A} a.
Arguments Throw {A} e.
Arguments Abort {A}.
Arguments Undef {A}.
Arguments NoFuel {A}.

Global Instance res_ret : MRet res := fun A a => Ret a.

Global Instance res_bind : MBind res := fun A B k m =>
  match m with
  | Ret a => k a
  | Throw e => Throw e
  | Abort => Abort
  | Undef => Undef
  | NoFuel => NoFuel
  end.

(** ** Machine integers *)

Definition size_t_wrap (z : Z) : Z := z mod 2 ^ 64.
Definition uint8_t (z : Z) : Z := z mod 2 ^ 8.
Definition uint16_t (z : Z) : Z := z mod 2 ^ 16.
Definition uint32_t (z : Z) : Z := z mod 2 ^ 32.
Definition uint64_t (z : Z) : Z := z mod 2 ^ 64.

(** Conversion of an unsigned [w]-bit value to the signed type of the
    same width (two's complement), as done by the return statements of
    the [getNi] readers. *)
Definition to_signed (w : Z) (z : Z) : Z :=
  if z mod 2 ^ w <? 2 ^ (w - 1) then z mod 2 ^ w else z mod 2 ^ w - 2 ^ w.

Definition byte_val (b : byte) : Z := Z.of_N (Byte.to_N b).

(** ** Positions (pos0.h is not part of the sources at hand) *)

Record pos0_t : Type := mk_pos0 { path : string; offset : Z; depth : Z }.

(** Modelled from the spec: [pos0 + n] of pos0.h, which is missing from
    the sources; "positions are shifted by integer addition ([pos0 + n]
    increases offset by [n])". The offset is a [uint64_t]. *)
Definition pos0_add (p : pos0_t) (n : Z) : pos0_t :=
  {| path := path p; offset := uint64_t (offset p + n); depth := depth p |}.

(** ** sbuf_t: the typed readers *)

Module Sbuf.

(** The view part of an [sbuf_t]. [buf] holds the bytes of the storage
    that starts at the C++ pointer [buf]; [bufsize] and [pagesize] are
    the [size_t] fields. *)
Record sbuf_t : Type := mk_sbuf {
  pos0 : pos0_t;
  buf : list byte;
  bufsize : Z;
  pagesize : Z
}.

(** [this->buf[i]]: defined inside the storage only. *)
Fixpoint buf_at (l : list byte) (i : Z) : option byte :=
  match l with
  | [] => None
  | b :: t => if i <? 0 then None else if i =? 0 then Some b else buf_at t (i - 1)
  end.

Definition rd (s : sbuf_t) (i : Z) : res Z :=
  match buf_at (buf s) (size_t_wrap i) with
  | Some b => Ret (byte_val b)
  | None => Undef
  end.

Definition depth (s : sbuf_t) : Z := depth (pos0 s).
Definition size (s : sbuf_t) : Z := bufsize s.
Definition left (s : sbuf_t) (n : Z) : Z :=
  if n <? bufsize s then bufsize s - n else 0.

(** [((uint64_t)(b)) << k]: a shift of an unsigned 64-bit value. *)
Definition shl64 (b k : Z) : Z := uint64_t (Z.shiftl (uint64_t b) k).

(** Little-endian readers *)
Definition get8u (s : sbuf_t) (i : Z) : res Z :=
  if size_t_wrap (i + 1) >? bufsize s then Throw range_exception_t
  else rd s i.

Definition get16u (s : sbuf_t) (i : Z) : res Z :=
  if size_t_wrap (i + 2) >? bufsize s then Throw range_exception_t
  else
    b0 ← rd s (i + 0);
    b1 ← rd s (i + 1);
    Ret (Z.lor (Z.lor 0 (uint16_t (Z.shiftl b0 0))) (uint16_t (Z.shiftl b1 8))).

Definition get32u (s : sbuf_t) (i : Z) : res Z :=
  if size_t_wrap (i + 4) >? bufsize s then Throw range_exception_t
  else
    b0 ← rd s (i + 0);
    b1 ← rd s (i + 1);
    b2 ← rd s (i + 2);
    b3 ← rd s (i + 3);
    Ret (Z.lor (Z.lor (Z.lor (Z.lor 0 (uint32_t (Z.shiftl b0 0)))
                             (uint32_t (Z.shiftl b1 8)))
                      (uint32_t (Z.shiftl b2 16)))
               (uint32_t (Z.shiftl b3 24))).

Definition get64u (s : sbuf_t) (i : Z) : res Z :=
  if size_t_wrap (i + 8) >? bufsize s then Throw range_exception_t
  else
    b0 ← rd s (i + 0);
    b1 ← rd s (i + 1);
    b2 ← rd s (i + 2);
    b3 ← rd s (i + 3);
    b4 ← rd s (i + 4);
    b5 ← rd s (i + 5);
    b6 ← rd s (i + 6);
    b7 ← rd s (i + 7);
    Ret (Z.lor (Z.lor (Z.lor (Z.lor (Z.lor (Z.lor (Z.lor (Z.lor 0
          (shl64 b0 0)) (shl64 b1 8))
          (shl64 b2 16)) (shl64 b3 24))
          (shl64 b4 32)) (shl64 b5 40))
          (shl64 b6 48)) (shl64 b7 56)).

(** Big-endian readers *)
Definition get8uBE (s : sbuf_t) (i : Z) : res Z :=
  if size_t_wrap (i + 1) >? bufsize s then Throw range_exception_t
  else rd s i.

Definition get16uBE (s : sbuf_t) (i : Z) : res Z :=
  if size_t_wrap (i + 2) >? bufsize s then Throw range_exception_t
  else
    b1 ← rd s (i + 1);
    b0 ← rd s (i + 0);
    Ret (Z.lor (Z.lor 0 (uint16_t (Z.shiftl b1 0))) (uint16_t (Z.shiftl b0 8))).

Definition get32uBE (s : sbuf_t) (i : Z) : res Z :=
  if size_t_wrap (i + 4) >? bufsize s then Throw range_exception_t
  else
    b3 ← rd s (i + 3);
    b2 ← rd s (i + 2);
    b1 ← rd s (i + 1);
    b0 ← rd s (i + 0);
    Ret (Z.lor (Z.lor (Z.lor (Z.lor 0 (uint32_t (Z.shiftl b3 0)))
                             (uint32_t (Z.shiftl b2 8)))
                      (uint32_t (Z.shiftl b1 16)))
               (uint32_t (Z.shiftl b0 24))).

Definition get64uBE (s : sbuf_t) (i : Z) : res Z :=
  if size_t_wrap (i + 8) >? bufsize s then Throw range_exception_t
  else
    b7 ← rd s (i + 7);
    b6 ← rd s (i + 6);
    b5 ← rd s (i + 5);
    b4 ← rd s (i + 4);
    b3 ← rd s (i + 3);
    b2 ← rd s (i + 2);
    b1 ← rd s (i + 1);
    b0 ← rd s (i + 0);
    Ret (Z.lor (Z.lor (Z.lor (Z.lor (Z.lor (Z.lor (Z.lor (Z.lor 0
          (shl64 b7 0)) (shl64 b6 8))
          (shl64 b5 16)) (shl64 b4 24))
          (shl64 b3 32)) (shl64 b2 40))
          (shl64 b1 48)) (shl64 b0 56)).

Inductive byte_order_t : Type := BO_LITTLE_ENDIAN | BO_BIG_ENDIAN.

Definition get8u_bo (s : sbuf_t) (i : Z) (bo : byte_order_t) : res Z :=
  match bo with BO_LITTLE_ENDIAN => get8u s i | BO_BIG_ENDIAN => get8uBE s i end.
Definition get16u_bo (s : sbuf_t) (i : Z) (bo : byte_order_t) : res Z :=
  match bo with BO_LITTLE_ENDIAN => get16u s i | BO_BIG_ENDIAN => get16uBE s i end.
Definition get32u_bo (s : sbuf_t) (i : Z) (bo : byte_order_t) : res Z :=
  match bo with BO_LITTLE_ENDIAN => get32u s i | BO_BIG_ENDIAN => get32uBE s i end.
Definition get64u_bo (s : sbuf_t) (i : Z) (bo : byte_order_t) : res Z :=
  match bo with BO_LITTLE_ENDIAN => get64u s i | BO_BIG_ENDIAN => get64uBE s i end.

(** Signed readers: the unsigned value, converted on return. *)
Definition get8i (s : sbuf_t) (i : Z) : res Z :=
  v ← get8u s i; Ret (to_signed 8 v).
Definition get16i (s : sbuf_t) (i : Z) : res Z :=
  v ← get16u s i; Ret (to_signed 16 v).
Definition get32i (s : sbuf_t) (i : Z) : res Z :=
  v ← get32u s i; Ret (to_signed 32 v).
Definition get64i (s : sbuf_t) (i : Z) : res Z :=
  v ← get64u s i; Ret (to_signed 64 v).
Definition get8iBE (s : sbuf_t) (i : Z) : res Z :=
  v ← get8uBE s i; Ret (to_signed 8 v).
Definition get16iBE (s : sbuf_t) (i : Z) : res Z :=
  v ← get16uBE s i; Ret (to_signed 16 v).
Definition get32iBE (s : sbuf_t) (i : Z) : res Z :=
  v ← get32uBE s i; Ret (to_signed 32 v).
Definition get64iBE (s : sbuf_t) (i : Z) : res Z :=
  v ← get64uBE s i; Ret (to_signed 64 v).

(** [operator[]]: 0 when out of range. *)
Definition index (s : sbuf_t) (i : Z) : res Z :=
  if i <? bufsize s then rd s i else Ret 0.

(** The expected decodings of a byte string. *)
Fixpoint le_decode (bs : list byte) : Z :=
  match bs with
  | [] => 0
  | b :: t => byte_val b + 256 * le_decode t
  end.

Definition be_decode (bs : list byte) : Z := le_decode (rev bs).

(** The bytes [buf[i .. i+n)]. *)
Definition slice (s : sbuf_t) (i : Z) (n : nat) : list byte :=
  firstn n (skipn (Z.to_nat i) (buf s)).

(** A view is well formed when its storage holds [bufsize] bytes. *)
Definition wf (s : sbuf_t) : Prop :=
  0 <= pagesize s <= bufsize s /\ bufsize s <= Z.of_nat (length (buf s)) /\
  bufsize s < 2 ^ 64.

(** The buffer of the failing read: four bytes, all of them page. *)
Definition four_bytes : sbuf_t :=
  {| pos0 := mk_pos0 "" 0 0;
     buf := [x01; x02; x03; x04]%byte;
     bufsize := 4; pagesize := 4 |}.

Definition SIZE_MAX : Z := 2 ^ 64 - 1.

End Sbuf.


(** ** sbuf_t: parents and children

    The objects of type [sbuf_t] live at addresses; [parent] is the C++
    pointer to another [sbuf_t] and [children] the [std::atomic<int>]
    counter.  Constructing an object at address [c] adds it to the heap,
    the destructor removes it. *)

Module SbufHeap.

Definition int_wrap (z : Z) : Z := to_signed 32 z.

Record node : Type := mk_node {
  view : Sbuf.sbuf_t;
  parent : option N;
  children : Z
}.

Definition set_children (n : node) (c : Z) : node :=
  {| view := view n; parent := parent n; children := c |}.

(** Modelled from the spec: [sbuf_t::highest_parent()], declared in
    sbuf.h and defined in sbuf.cpp, which is missing from the sources;
    "the parent-of-parent chain's terminus". The chain is followed for at
    most as many steps as there are objects. *)
Fixpoint highest_parent_from (fuel : nat) (h : gmap N node) (a : N) : N :=
  match fuel with
  | O => a
  | S f =>
      match h !! a with
      | Some n =>
          match parent n with
          | Some p => highest_parent_from f h p
          | None => a
          end
      | None => a
      end
  end.

Definition highest_parent (h : gmap N node) (a : N) : N :=
  highest_parent_from (size h) h a.

(** [void add_child(const sbuf_t& child) const { children += 1; }] *)
Definition add_child (h : gmap N node) (p : N) : res (gmap N node) :=
  match h !! p with
  | Some n => Ret (<[p := set_children n (int_wrap (children n + 1))]> h)
  | None => Undef
  end.

(** [void del_child(const sbuf_t& child) const
       { children -= 1; assert(children >= 0); }] *)
Definition del_child (h : gmap N node) (p : N) : res (gmap N node) :=
  match h !! p with
  | Some n =>
      let c := int_wrap (children n - 1) in
      if c >=? 0 then Ret (<[p := set_children n c]> h) else Abort
  | None => Undef
  end.

(** The value of the counter after [children -= 1], before the assertion
    is tested. *)
Definition children_after_decrement (h : gmap N node) (p : N) : option Z :=
  n ← h !! p; Some (int_wrap (children n - 1)).

(** [explicit sbuf_t(const pos0_t& that_pos0, const sbuf_t& that_sbuf)] *)
Definition sbuf_pos0_parent (h : gmap N node) (c : N) (that_pos0 : pos0_t) (that_sbuf : N)
  : res (gmap N node) :=
  match h !! that_sbuf with
  | Some t =>
      let this :=
        {| view := {| Sbuf.pos0 := that_pos0;
                      Sbuf.buf := Sbuf.buf (view t);
                      Sbuf.bufsize := Sbuf.bufsize (view t);
                      Sbuf.pagesize := Sbuf.pagesize (view t) |};
           parent := Some (highest_parent h that_sbuf);
           children := 0 |} in
      add_child (<[c := this]> h) (highest_parent h that_sbuf)
  | None => Undef
  end.

(** [explicit sbuf_t(const sbuf_t& sbuf, size_t off, size_t len)] *)
Definition sbuf_off_len (h : gmap N node) (c : N) (sbuf : N) (off len : Z)
  : res (gmap N node) :=
  match h !! sbuf with
  | Some t =>
      let sz := if size_t_wrap (off + len) <? Sbuf.bufsize (view t)
                then len else size_t_wrap (Sbuf.bufsize (view t) - off) in
      let this :=
        {| view := {| Sbuf.pos0 := pos0_add (Sbuf.pos0 (view t)) off;
                      Sbuf.buf := skipn (Z.to_nat off) (Sbuf.buf (view t));
                      Sbuf.bufsize := sz;
                      Sbuf.pagesize := sz |};
           parent := Some (highest_parent h sbuf);
           children := 0 |} in
      add_child (<[c := this]> h) (highest_parent h sbuf)
  | None => Undef
  end.

(** [explicit sbuf_t(const sbuf_t& that_sbuf, size_t off)]: the body of
    this constructor is empty. *)
Definition sbuf_off (h : gmap N node) (c : N) (that_sbuf : N) (off : Z)
  : res (gmap N node) :=
  match h !! that_sbuf with
  | Some t =>
      let this :=
        {| view := {| Sbuf.pos0 := pos0_add (Sbuf.pos0 (view t)) off;
                      Sbuf.buf := skipn (Z.to_nat off) (Sbuf.buf (view t));
                      Sbuf.bufsize :=
                        if Sbuf.bufsize (view t) >? off
                        then Sbuf.bufsize (view t) - off else 0;
                      Sbuf.pagesize :=
                        if Sbuf.pagesize (view t) >? off
                        then Sbuf.pagesize (view t) - off else 0 |};
           parent := Some (highest_parent h that_sbuf);
           children := 0 |} in
      Ret (<[c := this]> h)
  | None => Undef
  end.

(** [sbuf_t operator+(size_t off) const { return a new sbuf_t built from this object and off; }] *)
Definition operator_plus (h : gmap N node) (c : N) (this : N) (off : Z)
  : res (gmap N node) :=
  sbuf_off h c this off.

(** [virtual ~sbuf_t()]. A counter different from 0 is only reported on
    [std::cerr]; the release of a mapping, an allocation or a descriptor
    concerns root buffers and leaves the counters alone. *)
Definition destroy (h : gmap N node) (c : N) : res (gmap N node) :=
  match h !! c with
  | Some n =>
      h1 ← (match parent n with
            | Some p => del_child h p
            | None => Ret h
            end);
      Ret (delete c h1)
  | None => Undef
  end.

Definition children_of (h : gmap N node) (a : N) : option Z :=
  n ← h !! a; Some (children n).

(** A root buffer at address 1 without children, and the address 2 at
    which a child is constructed. *)
Definition root_node : node :=
  {| view := Sbuf.four_bytes; parent := None; children := 0 |}.

Definition root_heap : gmap N node := {[ 1%N := root_node ]}.

End SbufHeap.

(** ** Feature recorders and the feature recorder set *)

(** [std::to_string] and [operator<<] on integers. *)
Definition dec (z : Z) : string := NilZero.string_of_int (Z.to_int z).

Definition strlen (s : string) : Z := Z.of_nat (String.length s).

(** [s.resize(n)] for [n] not above the size of [s]. *)
Definition resize (s : string) (n : Z) : string := substring 0 (Z.to_nat n) s.

Fixpoint contains (c : ascii) (s : string) : bool :=
  match s with
  | EmptyString => false
  | String a t => if Ascii.eqb a c then true else contains c t
  end.

Module FR.

Record flags_t : Type := mk_flags {
  no_quote : bool;
  xml : bool;
  no_context : bool;
  no_stoplist : bool
}.

Record feature_recorder_def : Type := mk_def {
  def_name : string;
  max_feature_size : Z;
  max_context_size : Z;
  flags : flags_t
}.

Inductive carve_mode_t : Type := CARVE_NONE | CARVE_ENCODED | CARVE_ALL.

Record histogram_def : Type := mk_histogram_def {
  feature : string;
  pattern : string;
  suffix : string
}.

(** An [AtomicUnicodeHistogram]: its definition and the features passed
    to [add], oldest first. *)
Record histogram : Type := mk_histogram {
  hdef : histogram_def;
  added : list string
}.

(** A [feature_recorder].  [write0_log] holds the triples for which
    [write0] counted a feature: what the file or SQL backend, which
    overrides [write0], puts into its sink. *)
Record feature_recorder : Type := mk_recorder {
  name : string;
  def : feature_recorder_def;
  features_written : Z;
  carved_file_count : Z;
  carve_mode : carve_mode_t;
  do_not_carve_encoding : string;
  carve_cache : gset string;
  histograms : list histogram;
  context_window : Z;
  write0_log : list (pos0_t * string * string)
}.

Record set_flags_t : Type := mk_set_flags {
  disabled : bool;
  pedantic : bool;
  no_alert : bool;
  record_files : bool;
  record_sql : bool;
  debug : bool
}.

Inductive fs_event : Type :=
| create_directory (p : string)
| file_written (p : string) (content : list byte)
| utimes (p : string) (mtime : Z).

(** A [feature_recorder_set].  [stop_list] is the matcher
    [check_feature_context] of the word-and-context list when there is
    one; [stop_list_recorder] names the recorder the C++ pointer refers
    to; [disk] lists what was done to the file system. *)
Record feature_recorder_set : Type := mk_set {
  frm : gmap string feature_recorder;
  set_flags : set_flags_t;
  stop_list : option (string -> string -> bool);
  stop_list_recorder : option string;
  seen_set : gset string;
  hasher_name : string;
  hasher_func : list byte -> string;
  outdir : string;
  disk : list fs_event
}.

(** Functions and constants that the recorder code calls and that are
    defined in files missing from the sources at hand (unicode_escape.cpp,
    pos0.h, sbuf.cpp, feature_recorder.h): they are parameters of the
    model, as are the initial values that feature_recorder.h gives to the
    members of a recorder.  [file_open_ok path] says whether [std::ofstream::open]
    succeeds for [path], [file_write_ok] whether the stream is still good
    after the data has been written. *)
Class Externals : Type := {
  validateOrEscapeUTF8 : string -> bool -> bool -> string;
  make_utf8 : string -> string;
  pos0_str : pos0_t -> string;
  alphaPart : pos0_t -> string;
  sbuf_substr : Sbuf.sbuf_t -> Z -> Z -> res string;
  sbuf_hash : Sbuf.sbuf_t -> string;
  find_ngram_size : Sbuf.sbuf_t -> Z -> Z;
  sha1_hexdigest : list byte -> string;
  NO_CARVED_FILE : string;
  default_max_feature_size : Z;
  default_max_context_size : Z;
  default_carve_mode : carve_mode_t;
  default_context_window : Z;
  MAX_DEPTH_REACHED_ERROR_FEATURE : string;
  MAX_DEPTH_REACHED_ERROR_CONTEXT : string;
  file_open_ok : string -> bool;
  file_write_ok : string -> bool
}.

Definition ALERT_RECORDER_NAME : string := "alerts".

(** Modelled from the spec: the constant [feature_recorder::CACHED] of
    feature_recorder.h, which is missing from the sources; "record the
    carve in the feature file with path [CACHED]". *)
Definition CACHED : string := "CACHED".

Definition set_frm (fs : feature_recorder_set) (m : gmap string feature_recorder)
  : feature_recorder_set :=
  {| frm := m; set_flags := set_flags fs; stop_list := stop_list fs;
     stop_list_recorder := stop_list_recorder fs; seen_set := seen_set fs;
     hasher_name := hasher_name fs; hasher_func := hasher_func fs;
     outdir := outdir fs; disk := disk fs |}.

Definition add_disk (fs : feature_recorder_set) (evs : list fs_event)
  : feature_recorder_set :=
  {| frm := frm fs; set_flags := set_flags fs; stop_list := stop_list fs;
     stop_list_recorder := stop_list_recorder fs; seen_set := seen_set fs;
     hasher_name := hasher_name fs; hasher_func := hasher_func fs;
     outdir := outdir fs; disk := (disk fs ++ evs)%list |}.

Definition put_recorder (fs : feature_recorder_set) (r : feature_recorder)
  : feature_recorder_set :=
  set_frm fs (<[name r := r]> (frm fs)).

Section WithExternals.
Context `{!Externals}.

(** [feature_recorder::quote_if_necessary]: the new feature and context. *)
Definition quote_if_necessary (d : feature_recorder_def) (feature context : string)
  : string * string :=
  let escape_bad_utf8 := true in
  let escape_backslash := true in
  let '(escape_bad_utf8, escape_backslash) :=
    if no_quote (flags d) then (false, false) else (escape_bad_utf8, escape_backslash) in
  let '(escape_bad_utf8, escape_backslash) :=
    if xml (flags d) then (true, false) else (escape_bad_utf8, escape_backslash) in
  let feature := validateOrEscapeUTF8 feature escape_bad_utf8 escape_backslash in
  let feature :=
    if strlen feature >? max_feature_size d
    then resize feature (max_feature_size d) else feature in
  let context :=
    if negb (no_context (flags d)) then
      let context := validateOrEscapeUTF8 context escape_bad_utf8 escape_backslash in
      if strlen context >? max_context_size d
      then resize context (max_context_size d) else context
    else context in
  (feature, context).

(** [feature_recorder::histograms_add_feature] *)
Definition histograms_add_feature (r : feature_recorder) (feature : string)
  : feature_recorder :=
  {| name := name r; def := def r; features_written := features_written r;
     carved_file_count := carved_file_count r; carve_mode := carve_mode r;
     do_not_carve_encoding := do_not_carve_encoding r;
     carve_cache := carve_cache r;
     histograms :=
       map (fun h => {| hdef := hdef h; added := (added h ++ [feature])%list |})
           (histograms r);
     context_window := context_window r; write0_log := write0_log r |}.

(** [feature_recorder::write0(pos0, feature, context)] *)
Definition write0 (fs : feature_recorder_set) (r : feature_recorder)
  (pos0 : pos0_t) (feature context : string) : feature_recorder :=
  if disabled (set_flags fs) then r
  else
    {| name := name r; def := def r;
       features_written := uint64_t (features_written r + 1);
       carved_file_count := carved_file_count r; carve_mode := carve_mode r;
       do_not_carve_encoding := do_not_carve_encoding r;
       carve_cache := carve_cache r; histograms := histograms r;
       context_window := context_window r;
       write0_log := (write0_log r ++ [(pos0, feature, context)])%list |}.

(** The loops of the pedantic mode over the characters of a string:
    the first tab, line feed or carriage return, as the message of the
    exception names it. *)
Fixpoint forbidden_char (s : string) : option string :=
  match s with
  | EmptyString => None
  | String c t =>
      if Ascii.eqb c "009" then Some "\t"
      else if Ascii.eqb c "010" then Some "\n"
      else if Ascii.eqb c "013" then Some "\r"
      else forbidden_char t
  end.

(** The first part of [feature_recorder::write], up to the test of the
    stop list: the size checks of the pedantic mode, the quoting, the
    test for an empty feature and the checks for tabs and line ends.
    [Ret None] stands for the silent [return] on an empty feature,
    [Ret (Some (feature, context, feature_utf8))] for reaching the
    stop-list test with these values. *)
Definition write_prepare (fs : feature_recorder_set) (r : feature_recorder)
  (feature_ context_ : string) : res (option (string * string * string)) :=
  if pedantic (set_flags fs) && (strlen feature_ >? max_feature_size (def r)) then
    Throw (runtime_error ("feature_recorder::write : feature_.size()=" +:+ dec (strlen feature_)))
  else if pedantic (set_flags fs) && (strlen context_ >? max_context_size (def r)) then
    Throw (runtime_error ("feature_recorder::write : context_.size()=" +:+ dec (strlen context_)))
  else
    let feature := feature_ in
    let context := if no_context (flags (def r)) then "" else context_ in
    let feature_utf8 := make_utf8 feature in
    let '(feature, context) := quote_if_necessary (def r) feature context in
    if strlen feature =? 0 then
      if pedantic (set_flags fs) then Abort else Ret None
    else if pedantic (set_flags fs) then
      match forbidden_char feature with
      | Some c => Throw (runtime_error ("feature contains " +:+ c))
      | None =>
          match forbidden_char context with
          | Some c => Throw (runtime_error ("context contains " +:+ c))
          | None => Ret (Some (feature, context, feature_utf8))
          end
      end
    else Ret (Some (feature, context, feature_utf8)).

(** Does the stop-list branch of [write] apply? *)
Definition on_stop_list (fs : feature_recorder_set) (r : feature_recorder)
  (feature_utf8 context : string) : option string :=
  if no_stoplist (flags (def r)) then None
  else
    match stop_list fs, stop_list_recorder fs with
    | Some check_feature_context, Some sr =>
        if check_feature_context feature_utf8 context then Some sr else None
    | _, _ => None
    end.

(** [feature_recorder::write] of the recorder named [rname].  The call
    [fs.stop_list_recorder->write(...)] is a recursive call on another
    recorder of the set; [fuel] bounds the depth of this recursion, and
    [NoFuel] is the result when the bound is reached. *)
Fixpoint write (fuel : nat) (fs : feature_recorder_set) (rname : string)
  (pos0 : pos0_t) (feature_ context_ : string) : res feature_recorder_set :=
  match fuel with
  | O => NoFuel
  | S fuel' =>
      match frm fs !! rname with
      | None => Undef
      | Some r =>
          if disabled (set_flags fs) then Ret fs
          else
            p ← write_prepare fs r feature_ context_;
            match p with
            | None => Ret fs
            | Some (feature, context, feature_utf8) =>
                match on_stop_list fs r feature_utf8 context with
                | Some sr => write fuel' fs sr pos0 feature context
                | None =>
                    let r1 := histograms_add_feature r feature in
                    let r2 := write0 fs r1 pos0 feature context in
                    Ret (set_frm fs (<[rname := r2]> (frm fs)))
                end
            end
      end
  end.

(** The length that [write_buf] hands on: "Asked to write beyond bufsize;
    bring it in", [if (pos + len > sbuf.bufsize) len = sbuf.bufsize - pos]. *)
Definition write_buf_len (sbuf : Sbuf.sbuf_t) (pos len : Z) : Z :=
  if size_t_wrap (pos + len) >? Sbuf.bufsize sbuf
  then size_t_wrap (Sbuf.bufsize sbuf - pos) else len.

(** The context of [write_buf] for a recorder with a context. *)
Definition write_buf_context (r : feature_recorder) (sbuf : Sbuf.sbuf_t) (pos len : Z)
  : res string :=
  let p0 := if context_window r <? pos then size_t_wrap (pos - context_window r) else 0 in
  let p1 := size_t_wrap (pos + len + context_window r) in
  let p1 := if p1 >? Sbuf.bufsize sbuf then Sbuf.bufsize sbuf else p1 in
  if p0 <=? p1 then sbuf_substr sbuf p0 (size_t_wrap (p1 - p0)) else Abort.

(** [feature_recorder::write_buf].  The debugging output on [std::cerr]
    has no effect on the state. *)
Definition write_buf (fuel : nat) (fs : feature_recorder_set) (rname : string)
  (sbuf : Sbuf.sbuf_t) (pos len : Z) : res feature_recorder_set :=
  match frm fs !! rname with
  | None => Undef
  | Some r =>
      if (pos >=? Sbuf.pagesize sbuf) && (pos <? Sbuf.bufsize sbuf) then Ret fs
      else if pos >=? Sbuf.bufsize sbuf then
        Throw (runtime_error
                 ("*** write_buf: WRITE OUTSIDE BUFFER. pos=" +:+ dec pos +:+ " sbuf="))
      else
        let len := write_buf_len sbuf pos len in
        feature ← sbuf_substr sbuf pos len;
        context ← (if negb (no_context (flags (def r)))
                   then write_buf_context r sbuf pos len else Ret "");
        write fuel fs rname (pos0_add (Sbuf.pos0 sbuf) pos) feature context
  end.

(** *** Carving *)

(** The bytes of a buffer, as written by [sbuf_t::write(std::ostream&)]
    and as hashed by [sbuf_t::hash]. *)
Definition sbuf_bytes (s : Sbuf.sbuf_t) : list byte :=
  firstn (Z.to_nat (Sbuf.bufsize s)) (Sbuf.buf s).

(** [feature_recorder::hash(sbuf)] *)
Definition hash (fs : feature_recorder_set) (sbuf : Sbuf.sbuf_t) : string :=
  hasher_func fs (sbuf_bytes sbuf).

(** [std::setw(3) << std::setfill('0')] *)
Definition setw3 (s : string) : string :=
  match String.length s with
  | O => "000" +:+ s
  | S O => "00" +:+ s
  | S (S O) => "0" +:+ s
  | _ => s
  end.

(** [std::filesystem::path::operator/] on relative components *)
Definition path_join (a b : string) : string := a +:+ "/" +:+ b.

Definition set_carve_state (r : feature_recorder) (cache : gset string) (count : Z)
  : feature_recorder :=
  {| name := name r; def := def r; features_written := features_written r;
     carved_file_count := count; carve_mode := carve_mode r;
     do_not_carve_encoding := do_not_carve_encoding r;
     carve_cache := cache; histograms := histograms r;
     context_window := context_window r; write0_log := write0_log r |}.

(** The sequence directory of the file with number [n]. *)
Definition thousands (n : Z) : string :=
  setw3 (dec (to_signed 32 (Z.quot n 1000))).

Definition carved_relative_path (r : feature_recorder) (data : Sbuf.sbuf_t)
  (ext : string) (n : Z) : string :=
  name r +:+ "/" +:+ thousands n +:+ "/" +:+ (pos0_str (Sbuf.pos0 data) +:+ ext).

Definition carved_absolute_path (fs : feature_recorder_set) (r : feature_recorder)
  (data : Sbuf.sbuf_t) (ext : string) (n : Z) : string :=
  path_join (path_join (path_join (outdir fs) (name r)) (thousands n))
            (pos0_str (Sbuf.pos0 data) +:+ ext).

(** The XML written as the context of a carve. *)
Definition carve_xml (fs : feature_recorder_set) (in_cache : bool)
  (carved_relative_path : string) (header data : Sbuf.sbuf_t)
  (carved_hash_hexvalue : string) : string :=
  "<fileobject>" +:+
  (if negb in_cache then "<filename>" +:+ carved_relative_path +:+ "</filename>" else "") +:+
  "<filesize>" +:+ dec (size_t_wrap (Sbuf.bufsize header + Sbuf.bufsize data)) +:+ "</filesize>" +:+
  "<hashdigest type='" +:+ hasher_name fs +:+ "'>" +:+ carved_hash_hexvalue +:+ "</hashdigest>" +:+
  "</fileobject>".

(** The state of the set after a new body has been put into the cache:
    the counter of carved files has been advanced and the two directories
    have been created. *)
Definition carve_reserve (fs : feature_recorder_set) (rname : string)
  (r : feature_recorder) (carved_hash_hexvalue : string) : feature_recorder_set :=
  add_disk
    (set_frm fs
       (<[rname := set_carve_state r ({[ carved_hash_hexvalue ]} ∪ carve_cache r)
                     (to_signed 64 (carved_file_count r + 1))]> (frm fs)))
    [create_directory (path_join (outdir fs) (name r));
     create_directory (path_join (path_join (outdir fs) (name r))
                                 (thousands (carved_file_count r)))].

(** The part of [feature_recorder::carve] after the [switch]. The state
    is returned along with the result, since the cache and the counter
    keep their new values when an exception leaves the function. *)
Definition carve_body (fuel : nat) (fs : feature_recorder_set) (rname : string)
  (r : feature_recorder) (header data : Sbuf.sbuf_t) (ext : string) (mtime : Z)
  : res string * feature_recorder_set :=
  let carved_hash_hexvalue := hash fs data in
  let in_cache := bool_decide (carved_hash_hexvalue ∈ carve_cache r) in
  let myfileNumber := carved_file_count r in
  let rel := if in_cache then CACHED else carved_relative_path r data ext myfileNumber in
  let abs := carved_absolute_path fs r data ext myfileNumber in
  let fs1 :=
    if in_cache then
      set_frm fs (<[rname := set_carve_state r ({[ carved_hash_hexvalue ]} ∪ carve_cache r)
                                (carved_file_count r)]> (frm fs))
    else carve_reserve fs rname r carved_hash_hexvalue in
  let xml := carve_xml fs in_cache rel header data carved_hash_hexvalue in
  match write fuel fs1 rname (Sbuf.pos0 data) rel xml with
  | Ret fs2 =>
      if in_cache then (Ret rel, fs2)
      else if negb (file_open_ok abs) then
        (Throw (runtime_error ("cannot open file for writing:" +:+ abs)), fs2)
      else
        let fs3 := add_disk fs2 [file_written abs (sbuf_bytes header ++ sbuf_bytes data)%list] in
        if negb (file_write_ok abs) then
          (Throw (runtime_error ("error writing file " +:+ abs)), fs3)
        else
          (Ret rel, if mtime >? 0 then add_disk fs3 [utimes abs mtime] else fs3)
  | Throw e => (Throw e, fs1)
  | Abort => (Abort, fs1)
  | Undef => (Undef, fs1)
  | NoFuel => (NoFuel, fs1)
  end.

(** [feature_recorder::carve] *)
Definition carve (fuel : nat) (fs : feature_recorder_set) (rname : string)
  (header data : Sbuf.sbuf_t) (ext : string) (mtime : Z)
  : res string * feature_recorder_set :=
  match frm fs !! rname with
  | None => (Undef, fs)
  | Some r =>
      match carve_mode r with
      | CARVE_NONE => (Ret NO_CARVED_FILE, fs)
      | CARVE_ENCODED =>
          if strlen (path (Sbuf.pos0 data)) =? 0 then (Ret NO_CARVED_FILE, fs)
          else if String.eqb (alphaPart (Sbuf.pos0 data)) (do_not_carve_encoding r)
          then (Ret "", fs)
          else carve_body fuel fs rname r header data ext mtime
      | CARVE_ALL => carve_body fuel fs rname r header data ext mtime
      end
  end.

(** Does [carve] get past its [switch] for the buffer [data], with the
    mode [m] and the encoding [e] that is not to be carved? *)
Definition carves_in (m : carve_mode_t) (e : string) (data : Sbuf.sbuf_t) : Prop :=
  match m with
  | CARVE_NONE => False
  | CARVE_ENCODED =>
      strlen (path (Sbuf.pos0 data)) <> 0 /\ alphaPart (Sbuf.pos0 data) <> e
  | CARVE_ALL => True
  end.

(** One call of [carve], as a record of its arguments. *)
Record carve_call : Type := mk_carve_call {
  cc_header : Sbuf.sbuf_t;
  cc_data : Sbuf.sbuf_t;
  cc_ext : string;
  cc_mtime : Z
}.

(** A caller that carves one buffer after the other on the same
    recorder and goes on after a failed call. *)
Fixpoint carve_seq (fuel : nat) (fs : feature_recorder_set) (rname : string)
  (calls : list carve_call) : list (res string) * feature_recorder_set :=
  match calls with
  | [] => ([], fs)
  | c :: rest =>
      let '(r, fs1) := carve fuel fs rname (cc_header c) (cc_data c) (cc_ext c) (cc_mtime c) in
      let '(rs, fs2) := carve_seq fuel fs1 rname rest in
      (r :: rs, fs2)
  end.

(** What the spec says about the record of a carved file: "Write an XML
    blob [<fileobject><filename>…</filename><filesize>…</filesize>
    <hashdigest type='…'>h</hashdigest></fileobject>] as the feature
    context". *)
Definition carved_xml (fs : feature_recorder_set) (rel : string)
  (header data : Sbuf.sbuf_t) : string :=
  "<fileobject><filename>" +:+ rel +:+ "</filename><filesize>" +:+
  dec (size_t_wrap (Sbuf.bufsize header + Sbuf.bufsize data)) +:+
  "</filesize><hashdigest type='" +:+ hasher_name fs +:+ "'>" +:+ hash fs data +:+
  "</hashdigest></fileobject>".

(** What the spec says about a call whose body was carved before: "On
    hit, record the carve in the feature file with path [CACHED] and no
    file write", the context being the XML "with filename omitted on
    cache hit". *)
Definition cached_xml (fs : feature_recorder_set) (header data : Sbuf.sbuf_t) : string :=
  "<fileobject><filesize>" +:+
  dec (size_t_wrap (Sbuf.bufsize header + Sbuf.bufsize data)) +:+
  "</filesize><hashdigest type='" +:+ hasher_name fs +:+ "'>" +:+ hash fs data +:+
  "</hashdigest></fileobject>".

Definition record_cached (fuel : nat) (fs : feature_recorder_set) (rname : string)
  (c : carve_call) : res string * feature_recorder_set :=
  match write fuel fs rname (Sbuf.pos0 (cc_data c)) CACHED
              (cached_xml fs (cc_header c) (cc_data c)) with
  | Ret fs2 => (Ret CACHED, fs2)
  | Throw e => (Throw e, fs)
  | Abort => (Abort, fs)
  | Undef => (Undef, fs)
  | NoFuel => (NoFuel, fs)
  end.

Fixpoint record_cached_seq (fuel : nat) (fs : feature_recorder_set) (rname : string)
  (calls : list carve_call) : list (res string) * feature_recorder_set :=
  match calls with
  | [] => ([], fs)
  | c :: rest =>
      let '(r, fs1) := record_cached fuel fs rname c in
      let '(rs, fs2) := record_cached_seq fuel fs1 rname rest in
      (r :: rs, fs2)
  end.

(** The number of files written so far. *)
Fixpoint files_written (evs : list fs_event) : nat :=
  match evs with
  | [] => O
  | file_written _ _ :: t => S (files_written t)
  | _ :: t => files_written t
  end.

(** *** The set: creating and finding recorders *)

(** Modelled from the spec: the conversion of a name to a
    [feature_recorder_def] (feature_recorder.h is missing from the
    sources), used by [create_alert_recorder]; by default no flag is set. *)
Definition default_def (n : string) : feature_recorder_def :=
  {| def_name := n; max_feature_size := default_max_feature_size;
     max_context_size := default_max_context_size;
     flags := {| no_quote := false; xml := false; no_context := false;
                 no_stoplist := false |} |}.

(** The constructor [feature_recorder(fs, def)]. *)
Definition new_recorder (d : feature_recorder_def) : feature_recorder :=
  {| name := def_name d; def := d; features_written := 0; carved_file_count := 0;
     carve_mode := default_carve_mode; do_not_carve_encoding := "";
     carve_cache := ∅; histograms := []; context_window := default_context_window;
     write0_log := [] |}.

(** [feature_recorder_set::create_feature_recorder] *)
Definition create_feature_recorder (fs : feature_recorder_set) (d : feature_recorder_def)
  : res feature_recorder_set :=
  if record_files (set_flags fs) && record_sql (set_flags fs) then
    Throw (runtime_error "currently can only record to files or SQL, not both")
  else if negb (record_files (set_flags fs)) && negb (record_sql (set_flags fs)) then
    Throw (runtime_error "Must record to either files or SQL")
  else
    match frm fs !! def_name d with
    | Some _ =>
        Throw (FeatureRecorderAlreadyExists ("feature recorder already exists: " +:+ def_name d))
    | None => Ret (set_frm fs (<[def_name d := new_recorder d]> (frm fs)))
    end.

(** [feature_recorder_set::create_alert_recorder] *)
Definition create_alert_recorder (fs : feature_recorder_set) : res feature_recorder_set :=
  if negb (no_alert (set_flags fs))
  then create_feature_recorder fs (default_def ALERT_RECORDER_NAME)
  else Ret fs.

(** [feature_recorder_set::named_feature_recorder] *)
Definition named_feature_recorder (fs : feature_recorder_set) (n : string)
  : res feature_recorder :=
  match frm fs !! n with
  | None => Throw (NoSuchFeatureRecorder ("No such feature recorder: " +:+ n))
  | Some r => Ret r
  end.

(** [feature_recorder_set::get_alert_recorder] *)
Definition get_alert_recorder (fs : feature_recorder_set) : res feature_recorder :=
  named_feature_recorder fs ALERT_RECORDER_NAME.

(** [feature_recorder::histogram_add] *)
Definition histogram_add (r : feature_recorder) (h : histogram_def) : res feature_recorder :=
  if negb (features_written r =? 0) then
    Throw (runtime_error "Cannot add histograms after features have been written.")
  else
    Ret {| name := name r; def := def r; features_written := features_written r;
           carved_file_count := carved_file_count r; carve_mode := carve_mode r;
           do_not_carve_encoding := do_not_carve_encoding r;
           carve_cache := carve_cache r;
           histograms := (histograms r ++ [ {| hdef := h; added := [] |} ])%list;
           context_window := context_window r; write0_log := write0_log r |}.

(** [feature_recorder_set::histogram_add], also the statement
    [fs.named_feature_recorder(it.feature).histogram_add(it)]. *)
Definition set_histogram_add (fs : feature_recorder_set) (h : histogram_def)
  : res feature_recorder_set :=
  r ← named_feature_recorder fs (feature h);
  r' ← histogram_add r h;
  Ret (set_frm fs (<[feature h := r']> (frm fs))).

(** [fs.get_alert_recorder().write(pos0, feature, context)] *)
Definition alert_write (fuel : nat) (fs : feature_recorder_set)
  (pos0 : pos0_t) (feature context : string) : res feature_recorder_set :=
  _ ← get_alert_recorder fs;
  write fuel fs ALERT_RECORDER_NAME pos0 feature context.

End WithExternals.
End FR.

(** ** Quoting and unquoting *)

Module Quote.

Definition code (c : ascii) : Z := Z.of_N (N_of_ascii c).

(** The conversion of an [int] to [uint8_t] and on to a [char]. *)
Definition char_of (z : Z) : ascii := ascii_of_N (Z.to_N (uint8_t z)).

(** [static inline bool isodigit(char c) { return c >= '0' && c <= '7'; }] *)
Definition isodigit (c : ascii) : bool := (code "0" <=? code c) && (code c <=? code "7").

(** [isxdigit] of the C library *)
Definition isxdigit (c : ascii) : bool :=
  ((code "0" <=? code c) && (code c <=? code "9")) ||
  ((code "a" <=? code c) && (code c <=? code "f")) ||
  ((code "A" <=? code c) && (code c <=? code "F")).

(** [static inline int hexval(char ch)] *)
Definition hexval (ch : ascii) : Z :=
  match ch with
  | "0" => 0 | "1" => 1 | "2" => 2 | "3" => 3 | "4" => 4
  | "5" => 5 | "6" => 6 | "7" => 7 | "8" => 8 | "9" => 9
  | "a" | "A" => 10
  | "b" | "B" => 11
  | "c" | "C" => 12
  | "d" | "D" => 13
  | "e" | "E" => 14
  | "f" | "F" => 15
  | _ => 0
  end%char.

(** The loop of [feature_recorder::unquote_string], on the part of [s]
    from index [i] on: [i + 3 < len] holds when three more characters
    follow [s[i]].  The result is what the loop appends to [out]. *)
Fixpoint unquote_loop (s : string) : string :=
  match s with
  | EmptyString => EmptyString
  | String c0 t =>
      match t with
      | String c1 (String c2 (String c3 rest)) =>
          if Ascii.eqb c0 "\" && isodigit c1 && isodigit c2 && isodigit c3 then
            String (char_of ((code c1 - code "0") * 64 + (code c2 - code "0") * 8
                             + (code c3 - code "0")))
                   (unquote_loop rest)
          else if Ascii.eqb c0 "\" && Ascii.eqb c1 "x" && isxdigit c2 && isxdigit c3 then
            String (char_of (Z.lor (hexval c2 * 16) (hexval c3))) (unquote_loop rest)
          else String c0 (unquote_loop t)
      | _ => String c0 (unquote_loop t)
      end
  end.

(** [feature_recorder::unquote_string] *)
Definition unquote_string (s : string) : string :=
  if strlen s <? 4 then s else unquote_loop s.

(** *** The escaping of unicode_escape.cpp, which is missing from the sources *)

Definition between (lo hi : Z) (c : ascii) : bool := (lo <=? code c) && (code c <=? hi).

(** Is [c] a continuation byte? *)
Definition cont (c : ascii) : bool := between 128 191 c.

(** Well-formed two-, three- and four-byte sequences of UTF-8. *)
Definition seq2 (c0 c1 : ascii) : bool := between 194 223 c0 && cont c1.

Definition seq3 (c0 c1 c2 : ascii) : bool :=
  ((between 224 224 c0 && between 160 191 c1) ||
   (between 225 236 c0 && cont c1) ||
   (between 237 237 c0 && between 128 159 c1) ||
   (between 238 239 c0 && cont c1)) && cont c2.

Definition seq4 (c0 c1 c2 c3 : ascii) : bool :=
  ((between 240 240 c0 && between 144 191 c1) ||
   (between 241 243 c0 && cont c1) ||
   (between 244 244 c0 && between 128 143 c1)) && cont c2 && cont c3.

Definition hexdigit (n : Z) : ascii :=
  match n with
  | 0 => "0" | 1 => "1" | 2 => "2" | 3 => "3" | 4 => "4" | 5 => "5" | 6 => "6"
  | 7 => "7" | 8 => "8" | 9 => "9" | 10 => "A" | 11 => "B" | 12 => "C"
  | 13 => "D" | 14 => "E" | _ => "F"
  end%char.

(** The escape [\xHH] of one byte. *)
Definition esc (c : ascii) : string :=
  String "\" (String "x" (String (hexdigit (code c / 16)) (String (hexdigit (code c mod 16)) ""))).

(** A byte below 128 that is not printable: a control character (tab,
    line feed and carriage return among them) or DEL. *)
Definition not_printable (c : ascii) : bool := (code c <? 32) || (code c =? 127).

(** Modelled from the spec: [validateOrEscapeUTF8] of unicode_escape.cpp,
    which is missing from the sources; "escape invalid UTF-8 bytes and
    backslashes", "Invalid UTF-8 is encoded as [\xHH]. Backslashes are
    doubled unless [xml] or [no_quote] is in effect", "Features and
    contexts contain no raw tab/newline/carriage-return bytes (enforced
    in pedantic mode; quoted otherwise)", "the emitted feature contains
    only printable-or-escaped bytes".  A byte that does not start a
    well-formed UTF-8 sequence is invalid; a byte below 128 that is not
    printable is escaped as an invalid byte is, and with [no_quote]
    ("escape nothing") neither is. *)
Fixpoint validateOrEscapeUTF8_spec (s : string) (escape_bad_utf8 escape_backslash : bool)
  : string :=
  match s with
  | EmptyString => EmptyString
  | String c0 t =>
      let bad := fun _ : unit =>
        (if escape_bad_utf8 then esc c0 else String c0 "") +:+
        validateOrEscapeUTF8_spec t escape_bad_utf8 escape_backslash in
      if code c0 <? 128 then
        if Ascii.eqb c0 "\" && escape_backslash then
          String "\" (String "\" (validateOrEscapeUTF8_spec t escape_bad_utf8 escape_backslash))
        else if not_printable c0 then bad tt
        else String c0 (validateOrEscapeUTF8_spec t escape_bad_utf8 escape_backslash)
      else
        match t with
        | String c1 t1 =>
            if seq2 c0 c1 then
              String c0 (String c1
                (validateOrEscapeUTF8_spec t1 escape_bad_utf8 escape_backslash))
            else
              match t1 with
              | String c2 t2 =>
                  if seq3 c0 c1 c2 then
                    String c0 (String c1 (String c2
                      (validateOrEscapeUTF8_spec t2 escape_bad_utf8 escape_backslash)))
                  else
                    match t2 with
                    | String c3 t3 =>
                        if seq4 c0 c1 c2 c3 then
                          String c0 (String c1 (String c2 (String c3
                            (validateOrEscapeUTF8_spec t3 escape_bad_utf8 escape_backslash))))
                        else bad tt
                    | EmptyString => bad tt
                    end
              | EmptyString => bad tt
              end
        | EmptyString => bad tt
        end
  end.

End Quote.

(** ** The scanner set *)

Module SS.
Import FR.

(** The phases; scanner_params.h is not among the sources, the names are
    those that scanner_set.cpp uses. *)
Inductive phase_t : Type := PHASE_INIT | PHASE_ENABLED | PHASE_SCAN | PHASE_SHUTDOWN.

Definition phase_eqb (a b : phase_t) : bool :=
  match a, b with
  | PHASE_INIT, PHASE_INIT | PHASE_ENABLED, PHASE_ENABLED
  | PHASE_SCAN, PHASE_SCAN | PHASE_SHUTDOWN, PHASE_SHUTDOWN => true
  | _, _ => false
  end.

(** The position of a phase in the life of a scanner set. *)
Definition phase_rank (p : phase_t) : nat :=
  match p with
  | PHASE_INIT => 0
  | PHASE_ENABLED => 1
  | PHASE_SCAN => 2
  | PHASE_SHUTDOWN => 3
  end.

Record scanner_flags_t : Type := mk_scanner_flags {
  default_enabled : bool;
  no_usage : bool;
  no_all : bool;
  find_scanner : bool;
  scan_ngram_buffer : bool;
  depth0_only : bool;
  scan_seen_before : bool
}.

Record scanner_info : Type := mk_scanner_info {
  si_name : string;
  scanner_flags : scanner_flags_t;
  feature_defs : list feature_recorder_def;
  histogram_defs : list histogram_def
}.

Inductive command_t : Type := DISABLE | ENABLE.

Record scanner_command : Type := mk_scanner_command {
  scannerName : string;
  command : command_t
}.

(** How a call of a scanner ends. *)
Inductive scan_outcome : Type :=
| returned
| threw (e : exn)
| threw_other.

(** The scanners are code outside of the scanner set: a scanner is the
    address of its function, and what the function does is a parameter of
    the model.  [scanner_init] is the [info] that the scanner sets when
    it is called in [PHASE_INIT], if it sets one; [scanner_scan] is its
    effect on the recorders and on the [children] counter of the buffer
    when it is called in [PHASE_SCAN]; [scanner_shutdown] its effect when
    it is called in [PHASE_SHUTDOWN]. *)
Class Scanners : Type := {
  scanner_init : N -> option scanner_info;
  scanner_scan : N -> Sbuf.sbuf_t -> Z -> feature_recorder_set ->
                 scan_outcome * Z * feature_recorder_set;
  scanner_shutdown : N -> feature_recorder_set -> feature_recorder_set;
  ALL_SCANNERS : string
}.

(** [std::map<scanner_t*, const scanner_info*>] and [std::set<scanner_t*>]:
    lists kept in the order of the keys. *)
Fixpoint db_find (k : N) (db : list (N * scanner_info)) : option scanner_info :=
  match db with
  | [] => None
  | (k', v) :: t => if N.eqb k k' then Some v else db_find k t
  end.

Fixpoint db_insert (k : N) (v : scanner_info) (db : list (N * scanner_info))
  : list (N * scanner_info) :=
  match db with
  | [] => [(k, v)]
  | (k', v') :: t =>
      if N.ltb k k' then (k, v) :: (k', v') :: t
      else if N.eqb k k' then (k, v) :: t
      else (k', v') :: db_insert k v t
  end.

Fixpoint set_mem (k : N) (s : list N) : bool :=
  match s with
  | [] => false
  | k' :: t => if N.eqb k k' then true else set_mem k t
  end.

Fixpoint set_insert (k : N) (s : list N) : list N :=
  match s with
  | [] => [k]
  | k' :: t =>
      if N.ltb k k' then k :: k' :: t
      else if N.eqb k k' then k' :: t
      else k' :: set_insert k t
  end.

Fixpoint set_erase (k : N) (s : list N) : list N :=
  match s with
  | [] => []
  | k' :: t => if N.eqb k k' then set_erase k t else k' :: set_erase k t
  end.

(** A [scanner_set].  [invoked] is not a member of the class: it lists
    the scanners that [process_sbuf] has called, oldest first. *)
Record scanner_set : Type := mk_scanner_set {
  scanner_commands : list scanner_command;
  scanner_info_db : list (N * scanner_info);
  enabled_scanners : list N;
  fs : feature_recorder_set;
  max_depth : Z;
  max_depth_seen : Z;
  max_ngram : Z;
  dup_data_alerts : bool;
  dup_bytes_encountered : Z;
  sbuf_seen_set : gset string;
  current_phase : phase_t;
  invoked : list N
}.

Definition set_db (ss : scanner_set) (db : list (N * scanner_info)) (en : list N)
  : scanner_set :=
  {| scanner_commands := scanner_commands ss; scanner_info_db := db;
     enabled_scanners := en; fs := fs ss; max_depth := max_depth ss;
     max_depth_seen := max_depth_seen ss; max_ngram := max_ngram ss;
     dup_data_alerts := dup_data_alerts ss;
     dup_bytes_encountered := dup_bytes_encountered ss;
     sbuf_seen_set := sbuf_seen_set ss; current_phase := current_phase ss;
     invoked := invoked ss |}.

Definition set_fs (ss : scanner_set) (f : feature_recorder_set) : scanner_set :=
  {| scanner_commands := scanner_commands ss; scanner_info_db := scanner_info_db ss;
     enabled_scanners := enabled_scanners ss; fs := f; max_depth := max_depth ss;
     max_depth_seen := max_depth_seen ss; max_ngram := max_ngram ss;
     dup_data_alerts := dup_data_alerts ss;
     dup_bytes_encountered := dup_bytes_encountered ss;
     sbuf_seen_set := sbuf_seen_set ss; current_phase := current_phase ss;
     invoked := invoked ss |}.

Definition set_phase (ss : scanner_set) (p : phase_t) : scanner_set :=
  {| scanner_commands := scanner_commands ss; scanner_info_db := scanner_info_db ss;
     enabled_scanners := enabled_scanners ss; fs := fs ss; max_depth := max_depth ss;
     max_depth_seen := max_depth_seen ss; max_ngram := max_ngram ss;
     dup_data_alerts := dup_data_alerts ss;
     dup_bytes_encountered := dup_bytes_encountered ss;
     sbuf_seen_set := sbuf_seen_set ss; current_phase := p;
     invoked := invoked ss |}.

Definition add_invoked (ss : scanner_set) (k : N) : scanner_set :=
  {| scanner_commands := scanner_commands ss; scanner_info_db := scanner_info_db ss;
     enabled_scanners := enabled_scanners ss; fs := fs ss; max_depth := max_depth ss;
     max_depth_seen := max_depth_seen ss; max_ngram := max_ngram ss;
     dup_data_alerts := dup_data_alerts ss;
     dup_bytes_encountered := dup_bytes_encountered ss;
     sbuf_seen_set := sbuf_seen_set ss; current_phase := current_phase ss;
     invoked := (invoked ss ++ [k])%list |}.

(** The bookkeeping at the start of the [else] branch of [process_sbuf]:
    [update_maximum] and the insertion of the hash into the seen set. *)
Definition note_sbuf (ss : scanner_set) (depth : Z) (h : string) : scanner_set :=
  {| scanner_commands := scanner_commands ss; scanner_info_db := scanner_info_db ss;
     enabled_scanners := enabled_scanners ss; fs := fs ss; max_depth := max_depth ss;
     max_depth_seen := Z.max (max_depth_seen ss) depth; max_ngram := max_ngram ss;
     dup_data_alerts := dup_data_alerts ss;
     dup_bytes_encountered := dup_bytes_encountered ss;
     sbuf_seen_set := {[ h ]} ∪ sbuf_seen_set ss; current_phase := current_phase ss;
     invoked := invoked ss |}.

(** [dup_bytes_encountered += sbuf.bufsize] *)
Definition add_dup_bytes (ss : scanner_set) (n : Z) : scanner_set :=
  {| scanner_commands := scanner_commands ss; scanner_info_db := scanner_info_db ss;
     enabled_scanners := enabled_scanners ss; fs := fs ss; max_depth := max_depth ss;
     max_depth_seen := max_depth_seen ss; max_ngram := max_ngram ss;
     dup_data_alerts := dup_data_alerts ss;
     dup_bytes_encountered := uint64_t (dup_bytes_encountered ss + n);
     sbuf_seen_set := sbuf_seen_set ss; current_phase := current_phase ss;
     invoked := invoked ss |}.

Section WithScanners.
Context `{!Externals} `{!Scanners}.

(** [scanner_set::add_scanner] *)
Definition add_scanner (ss : scanner_set) (scanner : N) : res scanner_set :=
  match db_find scanner (scanner_info_db ss) with
  | Some _ => Throw (runtime_error "scanner already added")
  | None =>
      match scanner_init scanner with
      | None =>
          Throw (runtime_error
            ("scanner_set::add_scanner: a scanner did not set the sp.info field.  " +:+
             "Re-run with SCANNER_SET_DEBUG_REGISTER=1 to find those that did."))
      | Some info =>
          let db := db_insert scanner info (scanner_info_db ss) in
          match db_find scanner db with
          | Some i =>
              if default_enabled (scanner_flags i)
              then Ret (set_db ss db (set_insert scanner (enabled_scanners ss)))
              else Ret (set_db ss db (enabled_scanners ss))
          | None => Undef
          end
      end
  end.

(** [scanner_set::get_scanner_by_name] *)
Fixpoint get_scanner_by_name_in (db : list (N * scanner_info)) (search_name : string)
  : res N :=
  match db with
  | [] => Throw (NoSuchScanner search_name)
  | (k, i) :: t =>
      if String.eqb (si_name i) search_name then Ret k
      else get_scanner_by_name_in t search_name
  end.

Definition get_scanner_by_name (ss : scanner_set) (search_name : string) : res N :=
  get_scanner_by_name_in (scanner_info_db ss) search_name.

(** The inner loop of [apply_scanner_commands] for the name [ALL_SCANNERS]. *)
Fixpoint apply_to_all (db : list (N * scanner_info)) (c : command_t) (en : list N) : list N :=
  match db with
  | [] => en
  | (k, i) :: t =>
      if no_all (scanner_flags i) then apply_to_all t c en
      else
        match c with
        | ENABLE => apply_to_all t c (set_insert k en)
        | DISABLE => apply_to_all t c (set_erase k en)
        end
  end.

(** The first loop of [apply_scanner_commands]. *)
Fixpoint apply_commands (db : list (N * scanner_info)) (cmds : list scanner_command)
  (en : list N) : res (list N) :=
  match cmds with
  | [] => Ret en
  | cmd :: rest =>
      if String.eqb (scannerName cmd) ALL_SCANNERS then
        apply_commands db rest (apply_to_all db (command cmd) en)
      else
        scanner ← get_scanner_by_name_in db (scannerName cmd);
        match command cmd with
        | ENABLE => apply_commands db rest (set_insert scanner en)
        | DISABLE => apply_commands db rest (set_erase scanner en)
        end
  end.

Fixpoint create_feature_recorders (f : feature_recorder_set) (defs : list feature_recorder_def)
  : res feature_recorder_set :=
  match defs with
  | [] => Ret f
  | d :: rest => f1 ← create_feature_recorder f d; create_feature_recorders f1 rest
  end.

Fixpoint add_histograms (f : feature_recorder_set) (hs : list histogram_def)
  : res feature_recorder_set :=
  match hs with
  | [] => Ret f
  | h :: rest => f1 ← set_histogram_add f h; add_histograms f1 rest
  end.

(** The second loop of [apply_scanner_commands], over [scanner_info_db]. *)
Fixpoint create_requested (f : feature_recorder_set) (db : list (N * scanner_info))
  : res feature_recorder_set :=
  match db with
  | [] => Ret f
  | (_, i) :: rest =>
      f1 ← create_feature_recorders f (feature_defs i);
      f2 ← add_histograms f1 (histogram_defs i);
      create_requested f2 rest
  end.

(** [scanner_set::apply_scanner_commands].  The result carries the state
    only when the function returns: what an exception leaves behind of
    the recorders created so far is not described. *)
Definition apply_scanner_commands (ss : scanner_set) : res scanner_set :=
  if negb (phase_eqb (current_phase ss) PHASE_INIT) then
    Throw (runtime_error "apply_scanner_commands can only be run in scanner_params::PHASE_INIT")
  else
    en ← apply_commands (scanner_info_db ss) (scanner_commands ss) (enabled_scanners ss);
    f1 ← create_alert_recorder (fs ss);
    f2 ← create_requested f1 (scanner_info_db ss);
    Ret (set_phase (set_fs (set_db ss (scanner_info_db ss) en) f2) PHASE_ENABLED).

(** [scanner_set::phase_scan] *)
Definition phase_scan (ss : scanner_set) : res scanner_set :=
  if negb (phase_eqb (current_phase ss) PHASE_ENABLED) then
    Throw (runtime_error "start_scan can only be run in scanner_params::PHASE_ENABLED")
  else Ret (set_phase ss PHASE_SCAN).

(** [scanner_set::shutdown].  The recorders' [shutdown] and
    [histogram_flush] of the base class change nothing, and the scanner
    statistics go to the DFXML writer, which is outside of the model. *)
Definition shutdown (ss : scanner_set) : res scanner_set :=
  if negb (phase_eqb (current_phase ss) PHASE_SCAN) then
    Throw (runtime_error "shutdown can only be called in scanner_params::PHASE_SCAN")
  else
    let ss1 := set_phase ss PHASE_SHUTDOWN in
    Ret (set_fs ss1 (fold_left (fun f k => scanner_shutdown k f) (enabled_scanners ss1) (fs ss1))).

(** The reasons not to run a scanner, in the order of the dispatch loop. *)
Definition skipped (ss : scanner_set) (sbuf : Sbuf.sbuf_t) (seen_before : bool)
  (ngram_size : Z) (k : N) (i : scanner_info) : bool :=
  if negb (set_mem k (enabled_scanners ss)) then true
  else if (ngram_size >? 0) && Bool.eqb (scan_ngram_buffer (scanner_flags i)) false then true
  else if (Sbuf.depth sbuf >? 0) && depth0_only (scanner_flags i) then true
  else if seen_before && Bool.eqb (scan_seen_before (scanner_flags i)) false then true
  else false.

(** The handlers of the dispatch loop: write the alert, and swallow a
    [NoSuchFeatureRecorder] raised on the way. *)
Definition handler_alert (fuel : nat) (f : feature_recorder_set) (sbuf : Sbuf.sbuf_t)
  (name context : string) : res feature_recorder_set :=
  match alert_write fuel f (Sbuf.pos0 sbuf) ("scanner=" +:+ name) context with
  | Throw (NoSuchFeatureRecorder _) => Ret f
  | r => r
  end.

(** The loop "CALL EACH OF THE SCANNERS ON THE SBUF" over the entries
    [db] of [scanner_info_db] that are still to come.  The result is the
    value of the [children] counter of the buffer after the loop.  The
    effective path computed at the start of the [try] block is not used,
    and the timer only feeds the debugging output. *)
Fixpoint dispatch (fuel : nat) (db : list (N * scanner_info)) (ss : scanner_set)
  (sbuf : Sbuf.sbuf_t) (seen_before : bool) (ngram_size : Z) (children : Z)
  : res Z * scanner_set :=
  match db with
  | [] => (Ret children, ss)
  | (k, i) :: rest =>
      if skipped ss sbuf seen_before ngram_size k i then
        dispatch fuel rest ss sbuf seen_before ngram_size children
      else
        let '(out, children1, f1) := scanner_scan k sbuf children (fs ss) in
        let ss1 := add_invoked (set_fs ss f1) k in
        let handled :=
          match out with
          | returned => Ret f1
          | threw e =>
              handler_alert fuel f1 sbuf (si_name i)
                ("<exception>" +:+ exn_what e +:+ "</exception>")
          | threw_other =>
              handler_alert fuel f1 sbuf (si_name i)
                "<unknown_exception></unknown_exception>"
          end in
        match handled with
        | Ret f2 => dispatch fuel rest (set_fs ss1 f2) sbuf seen_before ngram_size children1
        | Throw e => (Throw e, ss1)
        | Abort => (Abort, ss1)
        | Undef => (Undef, ss1)
        | NoFuel => (NoFuel, ss1)
        end
  end.

(** [scanner_set::process_sbuf] for the buffer [sbuf], whose [children]
    counter is [children] on entry.  The state is returned along with the
    result, since what the scanners did remains when an exception leaves
    the function.  The final assertion on [children] is kept; the
    [delete sbufp] after it, with the decrement at the parent, is
    [SbufHeap.destroy]. *)
Definition process_sbuf (fuel : nat) (ss : scanner_set) (sbuf : Sbuf.sbuf_t) (children : Z)
  : res unit * scanner_set :=
  if negb (phase_eqb (current_phase ss) PHASE_SCAN) then
    (Throw (runtime_error "process_sbuf can only be run in scanner_params::PHASE_SCAN"), ss)
  else
    let '(r, ss') :=
      if Sbuf.depth sbuf >=? max_depth ss then
        match alert_write fuel (fs ss) (Sbuf.pos0 sbuf)
                MAX_DEPTH_REACHED_ERROR_FEATURE MAX_DEPTH_REACHED_ERROR_CONTEXT with
        | Ret f => (Ret children, set_fs ss f)
        | Throw e => (Throw e, ss)
        | Abort => (Abort, ss)
        | Undef => (Undef, ss)
        | NoFuel => (NoFuel, ss)
        end
      else
        let seen_before := bool_decide (sbuf_hash sbuf ∈ sbuf_seen_set ss) in
        let ss1 := note_sbuf ss (Sbuf.depth sbuf) (sbuf_hash sbuf) in
        let dup :=
          if seen_before then
            if dup_data_alerts ss1 then
              match alert_write fuel (fs ss1) (Sbuf.pos0 sbuf)
                      ("DUP SBUF " +:+ sha1_hexdigest (sbuf_bytes sbuf))
                      ("<buflen>" +:+ dec (Sbuf.bufsize sbuf) +:+ "</buflen>") with
              | Ret f => (Ret tt, add_dup_bytes (set_fs ss1 f) (Sbuf.bufsize sbuf))
              | Throw e => (Throw e, ss1)
              | Abort => (Abort, ss1)
              | Undef => (Undef, ss1)
              | NoFuel => (NoFuel, ss1)
              end
            else (Ret tt, add_dup_bytes ss1 (Sbuf.bufsize sbuf))
          else (Ret tt, ss1) in
        match dup with
        | (Ret _, ss3) =>
            dispatch fuel (scanner_info_db ss3) ss3 sbuf seen_before
                     (find_ngram_size sbuf (max_ngram ss3)) children
        | (Throw e, ss3) => (Throw e, ss3)
        | (Abort, ss3) => (Abort, ss3)
        | (Undef, ss3) => (Undef, ss3)
        | (NoFuel, ss3) => (NoFuel, ss3)
        end in
    match r with
    | Ret c => if c =? 0 then (Ret tt, ss') else (Abort, ss')
    | Throw e => (Throw e, ss')
    | Abort => (Abort, ss')
    | Undef => (Undef, ss')
    | NoFuel => (NoFuel, ss')
    end.

End WithScanners.
End SS.

(** ** Concrete instances used by the examples *)

Module Fixtures.
Import FR SS.

(** The functions that are missing from the sources, chosen for the
    examples: the escaping follows the spec, a position is printed as its
    path and offset, [substr] is the part of the buffer inside its
    bounds, and the file system accepts every file. *)
Definition string_of_bytes (l : list byte) : string :=
  string_of_list_ascii (map (fun b => ascii_of_N (Byte.to_N b)) l).

Definition substr0 (s : Sbuf.sbuf_t) (loc len : Z) : res string :=
  if loc + len >? Sbuf.bufsize s then Throw range_exception_t
  else Ret (string_of_bytes (firstn (Z.to_nat len) (skipn (Z.to_nat loc) (Sbuf.buf s)))).

Definition externals0 : Externals := {|
  validateOrEscapeUTF8 := Quote.validateOrEscapeUTF8_spec;
  make_utf8 := fun s => s;
  pos0_str := fun p => path p +:+ dec (offset p);
  alphaPart := fun p => path p;
  sbuf_substr := substr0;
  sbuf_hash := fun s => string_of_bytes (sbuf_bytes s);
  find_ngram_size := fun _ _ => 0;
  sha1_hexdigest := string_of_bytes;
  NO_CARVED_FILE := "NO_CARVED_FILE";
  default_max_feature_size := 1048576;
  default_max_context_size := 1048576;
  default_carve_mode := CARVE_ENCODED;
  default_context_window := 16;
  MAX_DEPTH_REACHED_ERROR_FEATURE := "process_extract: MAX DEPTH REACHED";
  MAX_DEPTH_REACHED_ERROR_CONTEXT := "";
  file_open_ok := fun _ => true;
  file_write_ok := fun _ => true
|}.

Definition flags0 : flags_t :=
  {| no_quote := false; xml := false; no_context := false; no_stoplist := false |}.

Definition def0 (n : string) : feature_recorder_def :=
  {| def_name := n; max_feature_size := 1048576; max_context_size := 1048576;
     flags := flags0 |}.

(** A definition with the [no_stoplist] flag, for the recorder of
    stopped features. *)
Definition def_stopped (n : string) : feature_recorder_def :=
  {| def_name := n; max_feature_size := 1048576; max_context_size := 1048576;
     flags := {| no_quote := false; xml := false; no_context := false;
                 no_stoplist := true |} |}.

(** A definition that keeps two bytes of a feature. *)
Definition def_short (n : string) : feature_recorder_def :=
  {| def_name := n; max_feature_size := 2; max_context_size := 1048576;
     flags := flags0 |}.

Definition set_flags0 : set_flags_t :=
  {| disabled := false; pedantic := false; no_alert := false;
     record_files := true; record_sql := false; debug := false |}.

Definition hist_url : histogram_def :=
  {| feature := "url"; pattern := ""; suffix := "_hist" |}.

(** A recorder [url] with one histogram, carving everything. *)
Definition rec_url : feature_recorder :=
  {| name := "url"; def := def0 "url"; features_written := 0;
     carved_file_count := 0; carve_mode := CARVE_ALL; do_not_carve_encoding := "";
     carve_cache := ∅; histograms := [ {| hdef := hist_url; added := [] |} ];
     context_window := 16; write0_log := [] |}.

Definition rec_stopped : feature_recorder :=
  {| name := "url_stopped"; def := def_stopped "url_stopped"; features_written := 0;
     carved_file_count := 0; carve_mode := CARVE_NONE; do_not_carve_encoding := "";
     carve_cache := ∅; histograms := []; context_window := 16; write0_log := [] |}.

Definition rec_alerts : feature_recorder :=
  {| name := "alerts"; def := def_stopped "alerts"; features_written := 0;
     carved_file_count := 0; carve_mode := CARVE_NONE; do_not_carve_encoding := "";
     carve_cache := ∅; histograms := []; context_window := 16; write0_log := [] |}.

(** A set with the recorders [url], [url_stopped] and [alerts] and a
    stop list that holds the feature [spam]. *)
Definition fs0 : feature_recorder_set :=
  {| frm := {[ "url" := rec_url; "url_stopped" := rec_stopped; "alerts" := rec_alerts ]};
     set_flags := set_flags0;
     stop_list := Some (fun feature_utf8 _ => String.eqb feature_utf8 "spam");
     stop_list_recorder := Some "url_stopped";
     seen_set := ∅; hasher_name := "sha1"; hasher_func := string_of_bytes;
     outdir := "out"; disk := [] |}.

(** An empty set, as left by the constructor. *)
Definition fs_empty : feature_recorder_set :=
  {| frm := ∅; set_flags := set_flags0; stop_list := None;
     stop_list_recorder := None; seen_set := ∅; hasher_name := "sha1";
     hasher_func := string_of_bytes; outdir := "out"; disk := [] |}.

Definition pos0_zero : pos0_t := mk_pos0 "" 0 0.

(** A buffer with the text [abcdefgh]: six bytes of page and two of margin. *)
Definition text_buf : Sbuf.sbuf_t :=
  {| Sbuf.pos0 := mk_pos0 "" 0 0;
     Sbuf.buf := ["a"; "b"; "c"; "d"; "e"; "f"; "g"; "h"]%byte;
     Sbuf.bufsize := 8; Sbuf.pagesize := 6 |}.

(** A second buffer with other bytes, used as a header. *)
Definition head_buf : Sbuf.sbuf_t :=
  {| Sbuf.pos0 := mk_pos0 "" 0 0;
     Sbuf.buf := ["H"; "D"]%byte;
     Sbuf.bufsize := 2; Sbuf.pagesize := 2 |}.

Definition sflags0 : scanner_flags_t :=
  {| default_enabled := true; no_usage := false; no_all := false;
     find_scanner := false; scan_ngram_buffer := false; depth0_only := false;
     scan_seen_before := false |}.

Definition sflags_off : scanner_flags_t :=
  {| default_enabled := false; no_usage := false; no_all := false;
     find_scanner := false; scan_ngram_buffer := false; depth0_only := false;
     scan_seen_before := false |}.

Definition info_good1 : scanner_info :=
  {| si_name := "good1"; scanner_flags := sflags0;
     feature_defs := [def0 "url"]; histogram_defs := [hist_url] |}.

Definition info_bad : scanner_info :=
  {| si_name := "bad"; scanner_flags := sflags0;
     feature_defs := []; histogram_defs := [] |}.

Definition info_good2 : scanner_info :=
  {| si_name := "good2"; scanner_flags := sflags0;
     feature_defs := [def0 "email"]; histogram_defs := [] |}.

(** A scanner that is disabled by default and declares the recorder [zip]. *)
Definition info_off : scanner_info :=
  {| si_name := "off"; scanner_flags := sflags_off;
     feature_defs := [def0 "zip"]; histogram_defs := [] |}.

(** The scanners at the addresses 1 to 4: [good1], [bad], which throws
    on every buffer, [good2] and [off]; at address 5 a function that sets
    no [info]. *)
Definition scanners0 : Scanners := {|
  scanner_init := fun k =>
    match k with
    | 1 => Some info_good1
    | 2 => Some info_bad
    | 3 => Some info_good2
    | 4 => Some info_off
    | _ => None
    end%N;
  scanner_scan := fun k sbuf children f =>
    (if (k =? 2)%N then threw (runtime_error "boom") else returned, children, f);
  scanner_shutdown := fun _ f => f;
  ALL_SCANNERS := "all"
|}.

Definition ss_init : scanner_set :=
  {| scanner_commands := []; scanner_info_db := []; enabled_scanners := [];
     fs := fs_empty; max_depth := 7; max_depth_seen := 0; max_ngram := 10;
     dup_data_alerts := false; dup_bytes_encountered := 0; sbuf_seen_set := ∅;
     current_phase := PHASE_INIT; invoked := [] |}.

(** A set in [PHASE_SCAN] with the scanners [good1], [bad] and [good2]
    registered and enabled. *)
Definition ss_scan : scanner_set :=
  {| scanner_commands := [];
     scanner_info_db := [(1%N, info_good1); (2%N, info_bad); (3%N, info_good2)];
     enabled_scanners := [1%N; 2%N; 3%N];
     fs := fs0; max_depth := 7; max_depth_seen := 0; max_ngram := 10;
     dup_data_alerts := false; dup_bytes_encountered := 0; sbuf_seen_set := ∅;
     current_phase := PHASE_SCAN; invoked := [] |}.

(** Two carves of the same body. *)
Definition carve_first_call : carve_call := mk_carve_call head_buf text_buf ".bin" 0.
Definition carve_second_call : carve_call := mk_carve_call text_buf text_buf ".bin" 5.

(** The scanners [good1], enabled, and [off], disabled, before the
    commands are applied. *)
Definition ss_two : scanner_set :=
  set_db ss_init [(1%N, info_good1); (4%N, info_off)] [1%N].

End Fixtures.

(** ** Properties used in the statements *)

Module Props.
Import FR.

(** The members of a recorder that [write] leaves alone. *)
Definition static_eq (r r' : feature_recorder) : Prop :=
  name r' = name r /\ def r' = def r /\
  carved_file_count r' = carved_file_count r /\ carve_mode r' = carve_mode r /\
  do_not_carve_encoding r' = do_not_carve_encoding r /\
  carve_cache r' = carve_cache r /\ context_window r' = context_window r.


(** What stays true of the recorder from one carve to the next. *)
Definition holds (fs : feature_recorder_set) (rname : string) (h : string)
  (hf : list byte -> string) (m : carve_mode_t) (e : string) : Prop :=
  hasher_func fs = hf /\
  exists r, frm fs !! rname = Some r /\ carve_mode r = m /\
            do_not_carve_encoding r = e /\ h ∈ carve_cache r.


Import SS.

(** The alert recorder takes every alert: it exists, the set is not
    pedantic, and the stop list does not apply to it. *)
Definition alert_ok (f : feature_recorder_set) : Prop :=
  pedantic (set_flags f) = false /\
  exists r, frm f !! ALERT_RECORDER_NAME = Some r /\
            (stop_list f = None \/ no_stoplist (flags (def r)) = true).

(** The reasons to run a scanner, in the words of the spec. *)
Definition should_run (ss : scanner_set) (sbuf : Sbuf.sbuf_t) (seen_before : bool)
  (ngram_size : Z) (k : N) (i : scanner_info) : Prop :=
  set_mem k (enabled_scanners ss) = true /\
  ~ (ngram_size > 0 /\ scan_ngram_buffer (scanner_flags i) = false) /\
  ~ (Sbuf.depth sbuf > 0 /\ depth0_only (scanner_flags i) = true) /\
  ~ (seen_before = true /\ scan_seen_before (scanner_flags i) = false).


(** The scanners that the loop runs, in the order of the loop. *)
Definition to_run (ss : scanner_set) (sbuf : Sbuf.sbuf_t) (seen_before : bool)
  (ngram_size : Z) (db : list (N * scanner_info)) : list N :=
  map fst (List.filter (fun p => negb (skipped ss sbuf seen_before ngram_size (fst p) (snd p))) db).


(** The recorder [r] with the histograms [hs] added, in order. *)
Definition with_histograms (r : feature_recorder) (hs : list histogram_def)
  : feature_recorder :=
  {| name := name r; def := def r; features_written := features_written r;
     carved_file_count := carved_file_count r; carve_mode := carve_mode r;
     do_not_carve_encoding := do_not_carve_encoding r;
     carve_cache := carve_cache r;
     histograms := (histograms r ++ map (fun h => {| hdef := h; added := [] |}) hs)%list;
     context_window := context_window r; write0_log := write0_log r |}.

(** The histogram definitions among [hs] for the recorder named [n]. *)
Definition hists_for (n : string) (hs : list histogram_def) : list histogram_def :=
  List.filter (fun h => String.eqb (feature h) n) hs.

(** The definition among [defs] for the recorder named [n]. *)
Definition def_for (n : string) (defs : list feature_recorder_def)
  : option feature_recorder_def :=
  List.find (fun d => String.eqb (def_name d) n) defs.

(** All that the registered scanners declare. *)
Definition declared_defs (db : list (N * scanner_info)) : list feature_recorder_def :=
  concat (map (fun p => feature_defs (snd p)) db).

Definition declared_hists (db : list (N * scanner_info)) : list histogram_def :=
  concat (map (fun p => histogram_defs (snd p)) db).

(** Every histogram is declared for a recorder that is present already
    or is declared by the same scanner or by one before it. *)
Fixpoint hists_declared (present : string -> Prop) (db : list (N * scanner_info)) : Prop :=
  match db with
  | [] => True
  | (_, i) :: rest =>
      Forall (fun h => present (feature h) \/ In (feature h) (map def_name (feature_defs i)))
             (histogram_defs i) /\
      hists_declared (fun n => present n \/ In n (map def_name (feature_defs i))) rest
  end.

(** The set records to exactly one backend and nothing has been written. *)
Definition ready (f : feature_recorder_set) : Prop :=
  xorb (record_files (set_flags f)) (record_sql (set_flags f)) = true /\
  forall n r, frm f !! n = Some r -> features_written r = 0.


(** The recorder named [n] takes what is written to it: the set is
    enabled and not pedantic, and no stop list applies to the recorder. *)
Definition takes_writes (f : feature_recorder_set) (n : string) : Prop :=
  disabled (set_flags f) = false /\ pedantic (set_flags f) = false /\
  exists r, frm f !! n = Some r /\
            (stop_list f = None \/ no_stoplist (flags (def r)) = true).

Section WithExternals.
Context `{!Externals}.

(** The feature and the context as [write] hands them to [write0]:
    quoted and cut to the sizes of the recorder, the context dropped
    for a recorder without context. *)
Definition quoted (r : feature_recorder) (feature context : string) : string * string :=
  quote_if_necessary (def r) feature (if no_context (flags (def r)) then "" else context).

(** What a write of [feature] and [context] at [pos0] puts into the sink
    of the recorder [r]: one triple, or nothing when nothing is left of
    the feature ("zero-length features after quoting are dropped"). *)
Definition log_entry (r : feature_recorder) (pos0 : pos0_t) (feature context : string)
  : list (pos0_t * string * string) :=
  if strlen (fst (quoted r feature context)) =? 0 then []
  else [(pos0, fst (quoted r feature context), snd (quoted r feature context))].

(** The recorder [r] after a write of [feature] and [context] that gets
    past the stop list: [histograms_add_feature] and [write0] on what
    the quoting has left, or [r] itself when nothing is left. *)
Definition written (f : feature_recorder_set) (r : feature_recorder) (pos0 : pos0_t)
  (feature context : string) : feature_recorder :=
  if strlen (fst (quoted r feature context)) =? 0 then r
  else write0 f (histograms_add_feature r (fst (quoted r feature context))) pos0
              (fst (quoted r feature context)) (snd (quoted r feature context)).

(** The records of a sequence of carves whose bodies are in the cache. *)
Definition cached_entries (r : feature_recorder) (fs : feature_recorder_set)
  (calls : list carve_call) : list (pos0_t * string * string) :=
  concat (map (fun c => log_entry r (Sbuf.pos0 (cc_data c)) CACHED
                          (cached_xml fs (cc_header c) (cc_data c))) calls).

End WithExternals.

End Props.

(** ** sbuf_t: comparing, searching and reading lines *)

Module SbufOps.
Import Sbuf.

(** The conversion of a [size_t] to [ssize_t] in a [return]. *)
Definition ssize_t (z : Z) : Z := to_signed 64 z.

(** The value of a [char] as an [int]; whether [char] is signed is up to
    the platform. *)
Definition char_val (char_signed : bool) (c : ascii) : Z :=
  if char_signed && (128 <=? Quote.code c) then Quote.code c - 256 else Quote.code c.

(** [::memcmp(a, b, n)] of the C library, which fixes the sign of the
    result only.  Both areas have to hold [n] bytes. *)
Fixpoint memcmp_bytes (a b : list byte) (n : nat) {struct n} : res comparison :=
  match n with
  | O => Ret Eq
  | S n' =>
      match a, b with
      | x :: a', y :: b' =>
          r ← memcmp_bytes a' b' n';
          Ret (match byte_val x ?= byte_val y with Eq => r | c => c end)
      | _, _ => Undef
      end
  end.

(** [int memcmp(const uint8_t* cbuf, size_t at, size_t len) const]; the
    pointer [buf + at] has to stay inside the storage. *)
Definition memcmp (s : sbuf_t) (cbuf : list byte) (at_ len : Z) : res comparison :=
  if left s at_ <? len then Throw range_exception_t
  else if at_ >? Z.of_nat (length (buf s)) then Undef
  else memcmp_bytes (skipn (Z.to_nat at_) (buf s)) cbuf (Z.to_nat len).

(** [template <class TYPE> const TYPE* get_struct_ptr(uint32_t pos) const],
    with [sz] for [sizeof(TYPE)]: the offset of the structure, or [None]
    for the null pointer. *)
Definition get_struct_ptr (s : sbuf_t) (sz : Z) (pos : Z) : option Z :=
  if size_t_wrap (uint32_t pos + sz) <=? bufsize s then Some (uint32_t pos) else None.

(** [ssize_t find(uint8_t ch, size_t start = 0) const].  The loop runs
    while [start < pagesize], so [pagesize - start] rounds are enough. *)
Fixpoint find_ch_from (n : nat) (s : sbuf_t) (ch : Z) (start : Z) : res Z :=
  if start <? pagesize s then
    b ← rd s start;
    if b =? ch then Ret (ssize_t start)
    else
      match n with
      | O => NoFuel
      | S n' => find_ch_from n' s ch (size_t_wrap (start + 1))
      end
  else Ret (-1).

Definition find_ch (s : sbuf_t) (ch : Z) (start : Z) : res Z :=
  find_ch_from (Z.to_nat (pagesize s - start)) s ch start.

(** [str[0]] for the null-terminated string with the characters [str]:
    0 at the end of the string. *)
Definition c_first (str : string) : Z :=
  match str with
  | EmptyString => 0
  | String c _ => Quote.code c
  end.

(** The string [str] holds no character NUL, as the characters of a
    null-terminated string do. *)
Definition no_nul (str : string) : Prop :=
  forall c, In c (list_ascii_of_string str) -> Quote.code c <> 0.

(** [memchr(buf + base, c, n)] of the C library, which reads the bytes in
    order and stops at the first match: the index of the match. *)
Fixpoint memchr (l : list byte) (base : Z) (c : Z) (n : nat) {struct n}
  : res (option Z) :=
  match n with
  | O => Ret None
  | S n' =>
      match l with
      | [] => Undef
      | b :: t => if byte_val b =? c then Ret (Some base) else memchr t (base + 1) c n'
      end
  end.

(** The inner loop of [find(const char*, size_t)] at index [i], [str]
    being the string from [str[i]] on: [true] for [return loc], [false]
    when the loop ends or is left by [break]. *)
Fixpoint match_at (char_signed : bool) (s : sbuf_t) (loc i : Z) (str : string) : res bool :=
  match str with
  | EmptyString => Ret false
  | String c rest =>
      if (size_t_wrap (loc + i) <? bufsize s) && negb (Quote.code c =? 0) then
        b ← rd s (loc + i);
        if negb (b =? char_val char_signed c) then Ret false
        else if c_first rest =? 0 then Ret true
        else match_at char_signed s loc (size_t_wrap (i + 1)) rest
      else Ret false
  end.

(** The outer loop of [find(const char*, size_t)].  After a failed match
    at [loc] the statement [start = loc + 1] is followed by the
    [start++] of the [for]. *)
Fixpoint find_str_from (n : nat) (char_signed : bool) (s : sbuf_t) (str : string)
  (start : Z) : res Z :=
  if start <? pagesize s then
    p ← memchr (skipn (Z.to_nat start) (buf s)) start
               (uint8_t (match str with
                         | EmptyString => 0
                         | String c _ => char_val char_signed c
                         end))
               (Z.to_nat (size_t_wrap (bufsize s - start)));
    match p with
    | None => Ret (-1)
    | Some loc =>
        m ← match_at char_signed s loc 0 str;
        if (m : bool) then Ret (ssize_t loc)
        else
          match n with
          | O => NoFuel
          | S n' =>
              find_str_from n' char_signed s str
                            (size_t_wrap (size_t_wrap (loc + 1) + 1))
          end
    end
  else Ret (-1).

(** [ssize_t find(const char* str, size_t start = 0) const] *)
Definition find_str (char_signed : bool) (s : sbuf_t) (str : string) (start : Z) : res Z :=
  if c_first str =? 0 then Ret (-1)
  else find_str_from (Z.to_nat (pagesize s - start)) char_signed s str start.

(** The first loop of [getline]: while [pos < pagesize] and the byte
    that [operator[]] gives at [pos - 1] is no line feed, [++pos]. *)
Fixpoint skip_to_line_start (n : nat) (s : sbuf_t) (pos : Z) : res Z :=
  if pos <? pagesize s then
    c ← Sbuf.index s (size_t_wrap (pos - 1));
    if negb (c =? 10) then
      match n with
      | O => NoFuel
      | S n' => skip_to_line_start n' s (size_t_wrap (pos + 1))
      end
    else Ret pos
  else Ret pos.

(** The second loop of [getline]: [while (++pos < pagesize)], left by
    [break] when the byte that [operator[]] gives at [pos] is a line feed. *)
Fixpoint scan_to_eol (n : nat) (s : sbuf_t) (pos : Z) : res Z :=
  let pos1 := size_t_wrap (pos + 1) in
  if pos1 <? pagesize s then
    c ← Sbuf.index s pos1;
    if c =? 10 then Ret pos1
    else
      match n with
      | O => NoFuel
      | S n' => scan_to_eol n' s pos1
      end
  else Ret pos1.

(** The result of [getline] and the values that it leaves in its three
    reference parameters. *)
Record getline_result : Type := mk_getline {
  found : bool;
  new_pos : Z;
  line_start : Z;
  line_len : Z
}.

(** [bool getline(size_t& pos, size_t& line_start, size_t& line_len) const] *)
Definition getline (s : sbuf_t) (pos line_start_ line_len_ : Z) : res getline_result :=
  if pos >=? pagesize s then Ret (mk_getline false pos line_start_ line_len_)
  else
    pos1 ← (if pos >? 0 then skip_to_line_start (Z.to_nat (pagesize s)) s pos else Ret pos);
    if (pos >? 0) && (pos1 >=? pagesize s) then Ret (mk_getline false pos1 line_start_ line_len_)
    else
      pos2 ← scan_to_eol (Z.to_nat (pagesize s)) s pos1;
      Ret (mk_getline true pos2 pos1 (size_t_wrap (pos2 - pos1))).

(** The byte at index [i] of the storage, as a number. *)
Definition byte_at (s : sbuf_t) (i : Z) : option Z :=
  byte_val <$> buf_at (buf s) i.

End SbufOps.

(** ** sbuf_t: the remaining constructors *)

Module SbufHeapOps.
Import SbufHeap.

(** [static size_t min(size_t a, size_t b) { return a < b ? a : b; }] *)
Definition min (a b : Z) : Z := if a <? b then a else b.

(** [explicit sbuf_t(const pos0_t& pos0_, const uint8_t* buf_, size_t bufsize_,
    size_t pagesize_, int fd_, bool should_unmap_, bool should_free_,
    bool should_close_)]: a buffer without parent. *)
Definition sbuf_root (h : gmap N node) (c : N) (pos0_ : pos0_t) (buf_ : list byte)
  (bufsize_ pagesize_ : Z) : gmap N node :=
  <[c := {| view := {| Sbuf.pos0 := pos0_; Sbuf.buf := buf_;
                       Sbuf.bufsize := bufsize_;
                       Sbuf.pagesize := min pagesize_ bufsize_ |};
            parent := None; children := 0 |}]> h.

(** The move constructor [sbuf_t(sbuf_t&& that) noexcept], which builds
    the object at [c] from the one at [that].  The member [children] of
    the new object starts at 0, and [that] keeps its [parent]. *)
Definition sbuf_move (h : gmap N node) (c : N) (that : N) : res (gmap N node) :=
  match h !! that with
  | Some t =>
      let this := {| view := view t; parent := parent t; children := 0 |} in
      match parent t with
      | Some p =>
          h1 ← del_child (<[c := this]> h) p;
          add_child h1 p
      | None => Undef
      end
  | None => Undef
  end.

(** The view of the object at [a]. *)
Definition view_of (h : gmap N node) (a : N) : option Sbuf.sbuf_t :=
  view <$> h !! a.

(** "pagesize <= bufsize", as sbuf.h says of the two members, for every
    object of the heap. *)
Definition page_le_buf (h : gmap N node) : Prop :=
  map_Forall (fun _ n => Sbuf.pagesize (view n) <= Sbuf.bufsize (view n)) h.

End SbufHeapOps.

(** ** Feature lines and file names *)

Module Strs.

(** [std::string::find(char c, size_t pos)]; [None] stands for [npos].
    Indices into a string are natural numbers, all of them below
    [max_size()]. *)
Fixpoint string_find (line : string) (c : ascii) (pos : nat) : option nat :=
  match line with
  | EmptyString => None
  | String a t =>
      match pos with
      | O => if Ascii.eqb a c then Some O else S <$> string_find t c O
      | S pos' => S <$> string_find t c pos'
      end
  end.

(** [std::string::substr(size_t pos, size_t n)], which throws
    [std::out_of_range] for [pos > size()]. *)
Definition string_substr (line : string) (pos n : nat) : res string :=
  if (String.length line <? pos)%nat then Throw (other_std_exception "basic_string::substr")
  else Ret (substring pos n line).

(** [std::string::substr(size_t pos)]: up to the end. *)
Definition string_substr_from (line : string) (pos : nat) : res string :=
  string_substr line pos (String.length line - pos).

(** [feature_recorder::extract_feature] *)
Definition extract_feature (line : string) : res string :=
  match string_find line "009" 0 with
  | None => Ret ""
  | Some tab1 =>
      let feature_start := (tab1 + 1)%nat in
      match string_find line "009" feature_start with
      | Some tab2 => string_substr line feature_start (tab2 - feature_start)
      | None => string_substr_from line feature_start
      end
  end.

(** [std::string replace(const std::string& src, char f, char t)] *)
Fixpoint replace (src : string) (f t : ascii) : string :=
  match src with
  | EmptyString => EmptyString
  | String a rest => String (if Ascii.eqb a f then t else a) (replace rest f t)
  end.

(** The test of [valid_dosname] on the byte [ch]. *)
Definition dos_invalid (ch : Z) : bool :=
  (ch <=? 32) || (ch >=? 128) || (ch =? Quote.code "034") || (ch =? Quote.code "*") ||
  (ch =? Quote.code "+") || (ch =? Quote.code ",") || (ch =? Quote.code "/") ||
  (ch =? Quote.code ":") || (ch =? Quote.code ";") || (ch =? Quote.code "<") ||
  (ch =? Quote.code "=") || (ch =? Quote.code ">") || (ch =? Quote.code "?") ||
  (ch =? Quote.code "\") || (ch =? Quote.code "[") || (ch =? Quote.code "]") ||
  (ch =? Quote.code "|") || (ch =? Quote.code "$").

(** [std::string valid_dosname(std::string in)] *)
Fixpoint valid_dosname (in_ : string) : string :=
  match in_ with
  | EmptyString => EmptyString
  | String c rest =>
      let ch := uint8_t (Quote.code c) in
      String (if dos_invalid ch then "_"%char else Quote.char_of ch) (valid_dosname rest)
  end.

(** The line of a feature file: the position, the feature and the
    context, set apart by tabs. *)
Definition feature_line (pos feature context : string) : string :=
  pos +:+ String "009" (feature +:+ String "009" context).

End Strs.

(** ** The scanner set: names and the enabled set *)

Module SSOps.
Import FR SS.

(** [scanner_set::get_scanner_name] *)
Definition get_scanner_name (ss : scanner_set) (scanner : N) : string :=
  match db_find scanner (scanner_info_db ss) with
  | Some i => si_name i
  | None => ""
  end.

(** [scanner_set::is_scanner_enabled] *)
Definition is_scanner_enabled (ss : scanner_set) (name : string) : res bool :=
  scanner ← get_scanner_by_name ss name;
  Ret (set_mem scanner (enabled_scanners ss)).

(** The loop of [scanner_set::get_enabled_scanners]; [f->second] for a
    scanner that [find] does not find goes through the end iterator. *)
Fixpoint enabled_names (db : list (N * scanner_info)) (en : list N) : res (list string) :=
  match en with
  | [] => Ret []
  | k :: rest =>
      match db_find k db with
      | Some i => names ← enabled_names db rest; Ret (si_name i :: names)
      | None => Undef
      end
  end.

(** [scanner_set::get_enabled_scanners] *)
Definition get_enabled_scanners (ss : scanner_set) : res (list string) :=
  enabled_names (scanner_info_db ss) (enabled_scanners ss).

(** The loop of [scanner_set::is_find_scanner_enabled]; for a scanner
    that is not in the map, [scanner_info_db[it]] is a null pointer. *)
Fixpoint find_scanner_among (db : list (N * scanner_info)) (en : list N) : res bool :=
  match en with
  | [] => Ret false
  | k :: rest =>
      match db_find k db with
      | Some i => if find_scanner (scanner_flags i) then Ret true else find_scanner_among db rest
      | None => Undef
      end
  end.

(** [scanner_set::is_find_scanner_enabled] *)
Definition is_find_scanner_enabled (ss : scanner_set) : res bool :=
  find_scanner_among (scanner_info_db ss) (enabled_scanners ss).

(** What [ENABLE] and [DISABLE] do to a scanner. *)
Definition switch (c : command_t) : bool :=
  match c with
  | ENABLE => true
  | DISABLE => false
  end.

(** Every scanner of the enabled set is registered. *)
Definition enabled_registered (ss : scanner_set) : Prop :=
  forall k, In k (enabled_scanners ss) -> db_find k (scanner_info_db ss) <> None.

(** The members of a scanner set that the processing of a buffer does
    not change. *)
Definition same_config (ss ss' : scanner_set) : Prop :=
  scanner_commands ss' = scanner_commands ss /\
  scanner_info_db ss' = scanner_info_db ss /\
  enabled_scanners ss' = enabled_scanners ss /\
  max_depth ss' = max_depth ss /\ max_ngram ss' = max_ngram ss /\
  dup_data_alerts ss' = dup_data_alerts ss /\
  current_phase ss' = current_phase ss.

Section WithScanners.
Context `{!Externals} `{!Scanners}.

(** [scanner_set::add_scanners], for the array of the scanners in front
    of the null pointer. *)
Fixpoint add_scanners (ss : scanner_set) (scanners : list N) : res scanner_set :=
  match scanners with
  | [] => Ret ss
  | k :: rest => ss1 ← add_scanner ss k; add_scanners ss1 rest
  end.

(** Does the command [cmd] apply to the scanner [k]? *)
Definition addresses (db : list (N * scanner_info)) (cmd : scanner_command) (k : N) : bool :=
  if String.eqb (scannerName cmd) ALL_SCANNERS then
    match db_find k db with
    | Some i => negb (no_all (scanner_flags i))
    | None => false
    end
  else
    match get_scanner_by_name_in db (scannerName cmd) with
    | Ret k' => N.eqb k k'
    | _ => false
    end.

(** Whether the scanner [k] is enabled after the commands [cmds], when
    it was [b] before: the last command that applies to it decides. *)
Fixpoint enabled_after (db : list (N * scanner_info)) (cmds : list scanner_command)
  (k : N) (b : bool) : bool :=
  match cmds with
  | [] => b
  | cmd :: rest =>
      enabled_after db rest k (if addresses db cmd k then switch (command cmd) else b)
  end.

End WithScanners.
End SSOps.

(** ** More concrete instances *)

Module Fixtures2.
Import FR SS Fixtures.

(** The text [ab], line feed, [cd], line feed: two lines, all of it page. *)
Definition line_buf : Sbuf.sbuf_t :=
  {| Sbuf.pos0 := mk_pos0 "" 0 0;
     Sbuf.buf := ["a"; "b"; x0a; "c"; "d"; x0a]%byte;
     Sbuf.bufsize := 6; Sbuf.pagesize := 6 |}.

(** The text [aab]. *)
Definition aab_buf : Sbuf.sbuf_t :=
  {| Sbuf.pos0 := mk_pos0 "" 0 0;
     Sbuf.buf := ["a"; "a"; "b"]%byte;
     Sbuf.bufsize := 3; Sbuf.pagesize := 3 |}.

(** A root at address 1 with one child at address 2, which shows the
    bytes of the root from the second on. *)
Definition family_heap : gmap N SbufHeap.node :=
  {[ 1%N := {| SbufHeap.view := Sbuf.four_bytes; SbufHeap.parent := None;
               SbufHeap.children := 1 |};
     2%N := {| SbufHeap.view :=
                 {| Sbuf.pos0 := mk_pos0 "" 1 0;
                    Sbuf.buf := [x02; x03; x04]%byte;
                    Sbuf.bufsize := 3; Sbuf.pagesize := 3 |};
               SbufHeap.parent := Some 1%N; SbufHeap.children := 0 |} ]}.

(** The set [fs0] without a stop list. *)
Definition fs_plain : feature_recorder_set :=
  {| frm := {[ "url" := rec_url; "alerts" := rec_alerts ]};
     set_flags := set_flags0; stop_list := None; stop_list_recorder := None;
     seen_set := ∅; hasher_name := "sha1"; hasher_func := string_of_bytes;
     outdir := "out"; disk := [] |}.

(** The same set after the feature [abc] has been written to [url]. *)
Definition fs_written : feature_recorder_set :=
  set_frm fs_plain
    (<["url" := {| name := "url"; def := def0 "url"; features_written := 1;
                   carved_file_count := 0; carve_mode := CARVE_ALL;
                   do_not_carve_encoding := ""; carve_cache := ∅;
                   histograms := [ {| hdef := hist_url; added := ["abc"] |} ];
                   context_window := 16;
                   write0_log := [(pos0_zero, "abc", "ctx")] |}]> (frm fs_plain)).

(** A disabled set. *)
Definition fs_disabled : feature_recorder_set :=
  {| frm := {[ "url" := rec_url ]};
     set_flags := {| disabled := true; pedantic := false; no_alert := true;
                     record_files := true; record_sql := false; debug := false |};
     stop_list := None; stop_list_recorder := None;
     seen_set := ∅; hasher_name := "sha1"; hasher_func := string_of_bytes;
     outdir := "out"; disk := [] |}.

(** The scanning set [ss_scan] over recorders without an alert recorder. *)
Definition ss_no_alerts : scanner_set :=
  set_fs ss_scan fs_empty.

(** Enable [off], then disable all. *)
Definition two_commands : list scanner_command :=
  [ {| scannerName := "off"; command := ENABLE |};
    {| scannerName := "all"; command := DISABLE |} ].

(** The scanning set [ss_scan] with the depth limit 0: every buffer is
    too deep. *)
Definition ss_deep : scanner_set :=
  {| scanner_commands := [];
     scanner_info_db := [(1%N, info_good1); (2%N, info_bad); (3%N, info_good2)];
     enabled_scanners := [1%N; 2%N; 3%N];
     fs := fs0; max_depth := 0; max_depth_seen := 0; max_ngram := 10;
     dup_data_alerts := false; dup_bytes_encountered := 0; sbuf_seen_set := ∅;
     current_phase := PHASE_SCAN; invoked := [] |}.

(** The same over recorders without an alert recorder. *)
Definition ss_deep_no_alerts : scanner_set := set_fs ss_deep fs_empty.

(** A scanner that wants to see buffers again. *)
Definition info_again : scanner_info :=
  {| si_name := "again";
     scanner_flags := {| default_enabled := true; no_usage := false; no_all := false;
                         find_scanner := false; scan_ngram_buffer := false;
                         depth0_only := false; scan_seen_before := true |};
     feature_defs := []; histogram_defs := [] |}.

(** A set without an alert recorder that raises an alert for a buffer
    seen before, and has seen [text_buf]. *)
Definition ss_dup_no_alerts : scanner_set :=
  {| scanner_commands := [];
     scanner_info_db := [(1%N, info_again)];
     enabled_scanners := [1%N];
     fs := fs_empty; max_depth := 7; max_depth_seen := 0; max_ngram := 10;
     dup_data_alerts := true; dup_bytes_encountered := 0;
     sbuf_seen_set := {[ @sbuf_hash externals0 text_buf ]};
     current_phase := PHASE_SCAN; invoked := [] |}.

(** A pedantic set whose alert recorder keeps two bytes of a feature. *)
Definition fs_pedantic : feature_recorder_set :=
  {| frm := {[ "alerts" :=
                 {| name := "alerts"; def := def_short "alerts"; features_written := 0;
                    carved_file_count := 0; carve_mode := CARVE_NONE;
                    do_not_carve_encoding := ""; carve_cache := ∅; histograms := [];
                    context_window := 16; write0_log := [] |} ]};
     set_flags := {| disabled := false; pedantic := true; no_alert := false;
                     record_files := true; record_sql := false; debug := false |};
     stop_list := None; stop_list_recorder := None;
     seen_set := ∅; hasher_name := "sha1"; hasher_func := string_of_bytes;
     outdir := "out"; disk := [] |}.

Definition ss_pedantic : scanner_set := set_fs ss_scan fs_pedantic.

End Fixtures2.

(** ** Facts about the typed readers *)

Module SbufFacts.
Import Sbuf.

Lemma byte_val_range b : 0 <= byte_val b < 256.
Proof.
  unfold byte_val. pose proof (Byte.to_N_bounded b) as H.
  split; [apply N2Z.is_nonneg|]. lia.
Qed.

Lemma lor_shiftl_add (k a b : Z) :
  0 <= k -> 0 <= a < 2 ^ k -> 0 <= b ->
  Z.lor a (Z.shiftl b k) = a + b * 2 ^ k.
Proof.
  intros Hk Ha Hb.
  rewrite Z.shiftl_mul_pow2 by lia.
  rewrite <- (Z.add_lor_land a (b * 2 ^ k)).
  assert (Hland : Z.land a (b * 2 ^ k) = 0).
  { apply Z.bits_inj'. intros n Hn.
    rewrite Z.land_spec, Z.bits_0.
    destruct (Z.lt_ge_cases n k) as [Hlt | Hge].
    - rewrite Z.mul_pow2_bits_low by lia. apply andb_false_r.
    - destruct (Z.eq_dec a 0) as [-> | Hne].
      + rewrite Z.bits_0. reflexivity.
      + rewrite (Z.bits_above_log2 a n); [reflexivity | lia |].
        apply Z.log2_lt_pow2; [lia|].
        apply Z.lt_le_trans with (2 ^ k); [lia|].
        apply Z.pow_le_mono_r; lia. }
  rewrite Hland. lia.
Qed.

Lemma buf_at_nth_error (l : list byte) (i : Z) :
  0 <= i -> buf_at l i = nth_error l (Z.to_nat i).
Proof.
  revert i. induction l as [|b t IH]; intros i Hi; simpl.
  - destruct (Z.to_nat i); reflexivity.
  - destruct (Z.ltb_spec i 0); [lia|].
    destruct (Z.eqb_spec i 0) as [-> | Hne]; [reflexivity|].
    rewrite IH by lia.
    replace (Z.to_nat i) with (S (Z.to_nat (i - 1))) by lia. reflexivity.
Qed.

Lemma skipn_length_app (l1 k : list byte) :
  skipn (length l1) (l1 ++ k)%list = k.
Proof. induction l1 as [|a l1 IH]; simpl; auto. Qed.

Lemma skipn_S_length_app (l1 l2 : list byte) (b : byte) :
  skipn (S (length l1)) (l1 ++ b :: l2)%list = l2.
Proof. induction l1 as [|a l1 IH]; simpl; auto. Qed.

Lemma rd_slice (s : sbuf_t) (i : Z) (n : nat) :
  0 <= i -> i + Z.of_nat (S n) <= Z.of_nat (length (buf s)) ->
  i < 2 ^ 64 ->
  exists b, rd s i = Ret (byte_val b) /\ slice s i (S n) = b :: slice s (i + 1) n.
Proof.
  intros Hi Hlen Hmax. unfold rd, slice, size_t_wrap.
  rewrite Z.mod_small by lia.
  rewrite buf_at_nth_error by lia.
  replace (Z.to_nat (i + 1)) with (S (Z.to_nat i)) by lia.
  destruct (nth_error (buf s) (Z.to_nat i)) as [b|] eqn:Hb.
  - exists b. split; [reflexivity|].
    apply nth_error_split in Hb as (l1 & l2 & Heq & Hl1).
    rewrite Heq, <- Hl1.
    rewrite skipn_length_app, skipn_S_length_app. reflexivity.
  - apply nth_error_None in Hb. lia.
Qed.

Lemma shiftl_byte_mod (w k b : Z) :
  0 <= b < 256 -> 0 <= k -> k + 8 <= w ->
  (Z.shiftl b k) mod 2 ^ w = b * 2 ^ k.
Proof.
  intros Hb Hk Hw. rewrite Z.shiftl_mul_pow2 by lia.
  apply Z.mod_small. split; [apply Z.mul_nonneg_nonneg; lia|].
  apply Z.lt_le_trans with (256 * 2 ^ k).
  - apply Z.mul_lt_mono_pos_r; lia.
  - change 256 with (2 ^ 8). rewrite <- Z.pow_add_r by lia.
    apply Z.pow_le_mono_r; lia.
Qed.

Lemma shl64_byte (k b : Z) :
  0 <= b < 256 -> 0 <= k -> k + 8 <= 64 -> shl64 b k = b * 2 ^ k.
Proof.
  intros Hb Hk Hw. unfold shl64, uint64_t.
  rewrite (Z.mod_small b) by lia. apply shiftl_byte_mod; lia.
Qed.

Lemma wrap_in_range (s : sbuf_t) (i n : Z) :
  wf s -> 0 <= i -> 0 <= n -> i + n <= bufsize s ->
  (size_t_wrap (i + n) >? bufsize s) = false.
Proof.
  intros (Hp & Hl & Hm) Hi Hn Hle. unfold size_t_wrap.
  rewrite Z.mod_small by lia. rewrite Z.gtb_ltb. apply Z.ltb_ge. lia.
Qed.

Lemma wrap_past_end (s : sbuf_t) (i n : Z) :
  0 <= i -> 0 <= n -> i + n < 2 ^ 64 -> i + n > bufsize s ->
  (size_t_wrap (i + n) >? bufsize s) = true.
Proof.
  intros Hi Hn Hlt Hgt. unfold size_t_wrap.
  rewrite Z.mod_small by lia. rewrite Z.gtb_ltb. apply Z.ltb_lt. lia.
Qed.

Lemma rd_slice_at (s : sbuf_t) (i j : Z) (n : nat) :
  j = i + 1 -> 0 <= i < 2 ^ 64 ->
  i + Z.of_nat (S n) <= Z.of_nat (length (buf s)) ->
  exists b, rd s i = Ret (byte_val b) /\ slice s i (S n) = b :: slice s j n.
Proof. intros -> Hi Hlen. apply rd_slice; lia. Qed.

Ltac next_byte s i j n b :=
  let Hr := fresh "Hr" in
  let Hs := fresh "Hs" in
  let Hb := fresh "Hb" in
  destruct (rd_slice_at s i j n) as (b & Hr & Hs); [lia | lia | simpl; lia |];
  pose proof (byte_val_range b) as Hb;
  rewrite ?Hr, ?Hs; clear Hr Hs.

Lemma lor_byte (k a b : Z) :
  0 <= k -> 0 <= a < 2 ^ k -> 0 <= b ->
  Z.lor a (b * 2 ^ k) = a + b * 2 ^ k.
Proof.
  intros Hk Ha Hb. rewrite <- (lor_shiftl_add k a b) by lia.
  rewrite Z.shiftl_mul_pow2 by lia. reflexivity.
Qed.

Ltac decode_bytes :=
  cbn [mbind res_bind]; unfold slice; rewrite ?firstn_O;
  unfold be_decode; cbn [rev app le_decode];
  f_equal; unfold uint16_t, uint32_t;
  rewrite ?shiftl_byte_mod, ?shl64_byte by lia;
  rewrite Z.lor_0_l;
  pose proof (eq_refl : 2 ^ 0 = 1); pose proof (eq_refl : 2 ^ 8 = 256);
  pose proof (eq_refl : 2 ^ 16 = 65536); pose proof (eq_refl : 2 ^ 24 = 16777216);
  pose proof (eq_refl : 2 ^ 32 = 4294967296);
  pose proof (eq_refl : 2 ^ 40 = 1099511627776);
  pose proof (eq_refl : 2 ^ 48 = 281474976710656);
  pose proof (eq_refl : 2 ^ 56 = 72057594037927936);
  repeat match goal with
    | |- context [Z.lor ?a (?b * 2 ^ ?k)] =>
        lazymatch a with
        | context [Z.lor] => fail
        | _ => rewrite (lor_byte k a b) by lia
        end
    end;
  lia.

Ltac reader_in_range Hwf :=
  rewrite wrap_in_range by (auto; lia);
  destruct Hwf as (Hp & Hl & Hm); rewrite ?Z.add_0_r.

Lemma get8u_in_range (s : sbuf_t) (i : Z) :
  wf s -> 0 <= i -> i + 1 <= bufsize s ->
  get8u s i = Ret (le_decode (slice s i 1)).
Proof.
  intros Hwf Hi Hle. unfold get8u. reader_in_range Hwf.
  next_byte s i (i + 1) 0%nat b0.
  f_equal. unfold slice. rewrite firstn_O. cbn [le_decode]. lia.
Qed.

Lemma get16u_in_range (s : sbuf_t) (i : Z) :
  wf s -> 0 <= i -> i + 2 <= bufsize s ->
  get16u s i = Ret (le_decode (slice s i 2)).
Proof.
  intros Hwf Hi Hle. unfold get16u. reader_in_range Hwf.
  next_byte s i (i + 1) 1%nat b0. next_byte s (i + 1) (i + 2) 0%nat b1.
  decode_bytes.
Qed.

Lemma get32u_in_range (s : sbuf_t) (i : Z) :
  wf s -> 0 <= i -> i + 4 <= bufsize s ->
  get32u s i = Ret (le_decode (slice s i 4)).
Proof.
  intros Hwf Hi Hle. unfold get32u. reader_in_range Hwf.
  next_byte s i (i + 1) 3%nat b0. next_byte s (i + 1) (i + 2) 2%nat b1.
  next_byte s (i + 2) (i + 3) 1%nat b2. next_byte s (i + 3) (i + 4) 0%nat b3.
  decode_bytes.
Qed.

Lemma get64u_in_range (s : sbuf_t) (i : Z) :
  wf s -> 0 <= i -> i + 8 <= bufsize s ->
  get64u s i = Ret (le_decode (slice s i 8)).
Proof.
  intros Hwf Hi Hle. unfold get64u. reader_in_range Hwf.
  next_byte s i (i + 1) 7%nat b0. next_byte s (i + 1) (i + 2) 6%nat b1.
  next_byte s (i + 2) (i + 3) 5%nat b2. next_byte s (i + 3) (i + 4) 4%nat b3.
  next_byte s (i + 4) (i + 5) 3%nat b4. next_byte s (i + 5) (i + 6) 2%nat b5.
  next_byte s (i + 6) (i + 7) 1%nat b6. next_byte s (i + 7) (i + 8) 0%nat b7.
  decode_bytes.
Qed.

Lemma get8uBE_in_range (s : sbuf_t) (i : Z) :
  wf s -> 0 <= i -> i + 1 <= bufsize s ->
  get8uBE s i = Ret (be_decode (slice s i 1)).
Proof.
  intros Hwf Hi Hle. unfold get8uBE. reader_in_range Hwf.
  next_byte s i (i + 1) 0%nat b0.
  f_equal. unfold slice, be_decode. rewrite firstn_O. cbn [rev app le_decode]. lia.
Qed.

Lemma get16uBE_in_range (s : sbuf_t) (i : Z) :
  wf s -> 0 <= i -> i + 2 <= bufsize s ->
  get16uBE s i = Ret (be_decode (slice s i 2)).
Proof.
  intros Hwf Hi Hle. unfold get16uBE. reader_in_range Hwf.
  next_byte s i (i + 1) 1%nat b0. next_byte s (i + 1) (i + 2) 0%nat b1.
  decode_bytes.
Qed.

Lemma get32uBE_in_range (s : sbuf_t) (i : Z) :
  wf s -> 0 <= i -> i + 4 <= bufsize s ->
  get32uBE s i = Ret (be_decode (slice s i 4)).
Proof.
  intros Hwf Hi Hle. unfold get32uBE. reader_in_range Hwf.
  next_byte s i (i + 1) 3%nat b0. next_byte s (i + 1) (i + 2) 2%nat b1.
  next_byte s (i + 2) (i + 3) 1%nat b2. next_byte s (i + 3) (i + 4) 0%nat b3.
  decode_bytes.
Qed.

Lemma get64uBE_in_range (s : sbuf_t) (i : Z) :
  wf s -> 0 <= i -> i + 8 <= bufsize s ->
  get64uBE s i = Ret (be_decode (slice s i 8)).
Proof.
  intros Hwf Hi Hle. unfold get64uBE. reader_in_range Hwf.
  next_byte s i (i + 1) 7%nat b0. next_byte s (i + 1) (i + 2) 6%nat b1.
  next_byte s (i + 2) (i + 3) 5%nat b2. next_byte s (i + 3) (i + 4) 4%nat b3.
  next_byte s (i + 4) (i + 5) 3%nat b4. next_byte s (i + 5) (i + 6) 2%nat b5.
  next_byte s (i + 6) (i + 7) 1%nat b6. next_byte s (i + 7) (i + 8) 0%nat b7.
  decode_bytes.
Qed.

(** Reads past the end raise the range error as long as [i + N/8] does
    not wrap around in [size_t]. *)
Lemma readers_past_end_nowrap (s : sbuf_t) (i : Z) :
  0 <= i ->
  (i + 1 < 2 ^ 64 -> i + 1 > bufsize s ->
     get8u s i = Throw range_exception_t /\ get8uBE s i = Throw range_exception_t) /\
  (i + 2 < 2 ^ 64 -> i + 2 > bufsize s ->
     get16u s i = Throw range_exception_t /\ get16uBE s i = Throw range_exception_t) /\
  (i + 4 < 2 ^ 64 -> i + 4 > bufsize s ->
     get32u s i = Throw range_exception_t /\ get32uBE s i = Throw range_exception_t) /\
  (i + 8 < 2 ^ 64 -> i + 8 > bufsize s ->
     get64u s i = Throw range_exception_t /\ get64uBE s i = Throw range_exception_t).
Proof.
  intros Hi.
  unfold get8u, get8uBE, get16u, get16uBE, get32u, get32uBE, get64u, get64uBE.
  repeat split; intros; rewrite wrap_past_end by lia; reflexivity.
Qed.

(** The byte-order parameter selects between the two families. *)
Lemma byte_order_readers (s : sbuf_t) (i : Z) :
  get8u_bo s i BO_LITTLE_ENDIAN = get8u s i /\ get8u_bo s i BO_BIG_ENDIAN = get8uBE s i /\
  get16u_bo s i BO_LITTLE_ENDIAN = get16u s i /\ get16u_bo s i BO_BIG_ENDIAN = get16uBE s i /\
  get32u_bo s i BO_LITTLE_ENDIAN = get32u s i /\ get32u_bo s i BO_BIG_ENDIAN = get32uBE s i /\
  get64u_bo s i BO_LITTLE_ENDIAN = get64u s i /\ get64u_bo s i BO_BIG_ENDIAN = get64uBE s i.
Proof. repeat split. Qed.

Example get32u_four_bytes : get32u four_bytes 0 = Ret 67305985.
Proof. reflexivity. Qed.

Example get32uBE_four_bytes : get32uBE four_bytes 0 = Ret 16909060.
Proof. reflexivity. Qed.

Example get32u_four_bytes_past_end : get32u four_bytes 1 = Throw range_exception_t.
Proof. reflexivity. Qed.

Example get16i_signed :
  get16i {| pos0 := mk_pos0 "" 0 0; buf := [xfe; xff]%byte; bufsize := 2; pagesize := 2 |} 0
  = Ret (-2).
Proof. reflexivity. Qed.

(** C1. The typed readers compare [i + N/8], computed in [size_t], with
    [bufsize]. At [i = SIZE_MAX] the sum [i + 1] wraps around to 0, the
    test [i + 1 > bufsize] of [get8u] is false, and the reader goes on to
    read [buf[SIZE_MAX]], outside the buffer, although [i + 1 > bufsize]
    holds over the unbounded integers: no range error is raised. The same
    happens for the big-endian reader and for the 16-bit reader. *)
Theorem C1_reader_bounds_check_wraps :
  SIZE_MAX + 1 > bufsize four_bytes /\
  0 <= SIZE_MAX < 2 ^ 64 /\
  wf four_bytes /\
  get8u four_bytes SIZE_MAX = Undef /\
  get8uBE four_bytes SIZE_MAX = Undef /\
  get16u four_bytes SIZE_MAX = Undef /\
  get8u four_bytes SIZE_MAX <> Throw range_exception_t.
Proof.
  unfold wf. cbn [bufsize pagesize buf four_bytes length].
  repeat split; try (unfold SIZE_MAX; lia); try reflexivity.
  intros H. vm_compute in H. discriminate H.
Qed.

End SbufFacts.

(** ** Facts about parents and children *)

Module SbufHeapFacts.
Import SbufHeap.

Lemma int_wrap_small (z : Z) : 0 <= z < 2 ^ 31 -> int_wrap z = z.
Proof.
  intros Hz. unfold int_wrap, to_signed.
  rewrite Z.mod_small by lia.
  destruct (Z.ltb_spec z (2 ^ (32 - 1))) as [_ | Hge]; [reflexivity|].
  change (2 ^ (32 - 1)) with (2 ^ 31) in Hge. lia.
Qed.

Lemma set_children_id (n : node) : set_children n (children n) = n.
Proof. destruct n; reflexivity. Qed.

Lemma set_children_twice (n : node) (a b : Z) :
  set_children (set_children n a) b = set_children n b.
Proof. reflexivity. Qed.

(** Registering a fresh child at [p] and destroying it again. *)
Lemma add_child_then_destroy (h : gmap N node) (c p : N) (this pn : node) :
  h !! c = None -> h !! p = Some pn -> parent this = Some p ->
  0 <= children pn < 2 ^ 31 - 1 ->
  exists h', add_child (<[c := this]> h) p = Ret h' /\
             children_of h' p = Some (children pn + 1) /\
             h' !! c = Some this /\
             destroy h' c = Ret h.
Proof.
  intros Hc Hp Hpar Hrange.
  assert (Hne : c <> p) by (intros ->; congruence).
  unfold add_child. rewrite lookup_insert_ne, Hp by done.
  eexists. split; [reflexivity|].
  rewrite int_wrap_small by lia.
  unfold children_of. rewrite lookup_insert_eq. cbn.
  split; [reflexivity|].
  assert (Hlc : <[p:=set_children pn (children pn + 1)]> (<[c:=this]> h) !! c = Some this).
  { rewrite lookup_insert_ne by done. apply lookup_insert_eq. }
  split; [exact Hlc|].
  unfold destroy. rewrite Hlc, Hpar. unfold del_child.
  rewrite lookup_insert_eq. cbn [children set_children].
  replace (children pn + 1 - 1) with (children pn) by lia.
  rewrite int_wrap_small by lia.
  destruct (Z.geb_spec (children pn) 0) as [_ | Hneg]; [|lia].
  cbn. f_equal.
  rewrite insert_insert_eq, set_children_twice, set_children_id.
  rewrite delete_insert_ne by done.
  rewrite delete_insert_eq.
  rewrite delete_id by done. 
  apply insert_id. exact Hp.
Qed.

(** The [(pos0, parent)] form: the counter of the root is one higher
    while the child lives and is back at its value afterwards. *)
Lemma sbuf_pos0_parent_lifetime (h : gmap N node) (c that : N) (p0 : pos0_t) (t pn : node) :
  h !! c = None -> h !! that = Some t ->
  h !! highest_parent h that = Some pn ->
  0 <= children pn < 2 ^ 31 - 1 ->
  exists h', sbuf_pos0_parent h c p0 that = Ret h' /\
             children_of h' (highest_parent h that) = Some (children pn + 1) /\
             children pn + 1 >= 1 /\
             destroy h' c = Ret h.
Proof.
  intros Hc Ht Hp Hrange. unfold sbuf_pos0_parent. rewrite Ht.
  edestruct (add_child_then_destroy h c (highest_parent h that)) as (h' & Ha & Hk & _ & Hd);
    [exact Hc | exact Hp | | exact Hrange |].
  2: { exists h'. split; [exact Ha|]. split; [exact Hk|]. split; [lia | exact Hd]. }
  reflexivity.
Qed.

(** The [(parent, off, len)] form behaves in the same way. *)
Lemma sbuf_off_len_lifetime (h : gmap N node) (c sbuf : N) (off len : Z) (t pn : node) :
  h !! c = None -> h !! sbuf = Some t ->
  h !! highest_parent h sbuf = Some pn ->
  0 <= children pn < 2 ^ 31 - 1 ->
  exists h', sbuf_off_len h c sbuf off len = Ret h' /\
             children_of h' (highest_parent h sbuf) = Some (children pn + 1) /\
             children pn + 1 >= 1 /\
             destroy h' c = Ret h.
Proof.
  intros Hc Ht Hp Hrange. unfold sbuf_off_len. rewrite Ht.
  edestruct (add_child_then_destroy h c (highest_parent h sbuf)) as (h' & Ha & Hk & _ & Hd);
    [exact Hc | exact Hp | | exact Hrange |].
  2: { exists h'. split; [exact Ha|]. split; [exact Hk|]. split; [lia | exact Hd]. }
  reflexivity.
Qed.

(** The [(parent, off)] form, used by [operator+], never touches the
    counter of the root when the child is constructed. *)
Lemma sbuf_off_keeps_counter (h : gmap N node) (c that : N) (off : Z) (t pn : node) :
  h !! c = None -> h !! that = Some t ->
  h !! highest_parent h that = Some pn ->
  exists h', sbuf_off h c that off = Ret h' /\
             children_of h' (highest_parent h that) = Some (children pn).
Proof.
  intros Hc Ht Hp. unfold sbuf_off. rewrite Ht.
  eexists. split; [reflexivity|].
  unfold children_of. rewrite lookup_insert_ne by (intros ->; congruence).
  rewrite Hp. reflexivity.
Qed.

(** C2. A child made with [operator+] from a root without children: the
    constructor taking [(parent, off)] sets the parent pointer to the
    root but does not call [add_child], so the counter of the root is
    still 0 while the child lives; the destructor then calls [del_child]
    on the root, the counter drops to -1 and [assert(children >= 0)]
    fails. The counter is neither at least 1 during the lifetime of the
    child nor back at its former value afterwards. *)
Theorem C2_operator_plus_child_not_counted :
  exists h',
    operator_plus root_heap 2 1 1 = Ret h' /\
    (parent <$> h' !! 2%N) = Some (Some 1%N) /\
    children_of root_heap 1 = Some 0 /\
    children_of h' 1 = Some 0 /\
    children_after_decrement h' 1 = Some (-1) /\
    destroy h' 2 = Abort.
Proof.
  eexists. split; [reflexivity|].
  repeat split; vm_compute; reflexivity.
Qed.

End SbufHeapFacts.

(** ** Facts about the feature recorder *)

Module FRFacts.
Import FR Props.

Lemma static_eq_refl (r : feature_recorder) : static_eq r r.
Proof. repeat split. Qed.

Lemma static_eq_trans (a b c : feature_recorder) :
  static_eq a b -> static_eq b c -> static_eq a c.
Proof.
  unfold static_eq. intros (?&?&?&?&?&?&?) (?&?&?&?&?&?&?).
  repeat split; congruence.
Qed.

Lemma static_eq_some (r : feature_recorder) (o : option feature_recorder) :
  option_Forall2 static_eq (Some r) o -> exists r', o = Some r' /\ static_eq r r'.
Proof. intros Hst. inversion Hst; subst. eauto. Qed.

Lemma set_frm_id (fs : feature_recorder_set) : set_frm fs (frm fs) = fs.
Proof. destruct fs; reflexivity. Qed.

Lemma set_frm_set_frm (fs : feature_recorder_set) (m m' : gmap string feature_recorder) :
  set_frm (set_frm fs m) m' = set_frm fs m'.
Proof. reflexivity. Qed.

Lemma forbidden_char_none (s : string) :
  forbidden_char s = None ->
  contains "009" s = false /\ contains "010" s = false /\ contains "013" s = false.
Proof.
  induction s as [|c t IH]; [repeat split|].
  cbn [forbidden_char contains].
  destruct (Ascii.eqb c "009"); [discriminate|].
  destruct (Ascii.eqb c "010"); [discriminate|].
  destruct (Ascii.eqb c "013"); [discriminate|].
  exact IH.
Qed.

Section WithExternals.
Context `{!Externals}.

Lemma static_eq_write0 (fs : feature_recorder_set) (r : feature_recorder)
  (pos0 : pos0_t) (f c : string) :
  static_eq r (write0 fs (histograms_add_feature r f) pos0 f c).
Proof. unfold write0. destruct (disabled (set_flags fs)); repeat split. Qed.

(** [write] changes recorders of the set, and of these only the
    counters of written features, the histograms and the sinks. *)
Lemma write_frame (fuel : nat) :
  forall (fs : feature_recorder_set) (rname : string) (pos0 : pos0_t)
         (f c : string) (fs' : feature_recorder_set),
    write fuel fs rname pos0 f c = Ret fs' ->
    fs' = set_frm fs (frm fs') /\
    forall n : string, option_Forall2 static_eq (frm fs !! n) (frm fs' !! n).
Proof.
  induction fuel as [|fuel IH]; intros fs rname pos0 f c fs' Hw; [discriminate|].
  cbn [write] in Hw.
  destruct (frm fs !! rname) as [r|] eqn:Hr; [|discriminate].
  assert (Hsame : forall n : string, option_Forall2 static_eq (frm fs !! n) (frm fs !! n)).
  { intros n. destruct (frm fs !! n); constructor. apply static_eq_refl. }
  destruct (disabled (set_flags fs)) eqn:Hd.
  { inversion Hw; subst. split; [symmetry; apply set_frm_id | exact Hsame]. }
  destruct (write_prepare fs r f c) as [[[[feature context] futf8]|]| | | |] eqn:Hp;
    cbn in Hw; try discriminate.
  2: { inversion Hw; subst. split; [symmetry; apply set_frm_id | exact Hsame]. }
  destruct (on_stop_list fs r futf8 context) as [sr|].
  - apply IH in Hw. exact Hw.
  - inversion Hw; subst. split; [reflexivity|].
    intros n. cbn [frm set_frm].
    destruct (decide (rname = n)) as [<- | Hne].
    + rewrite lookup_insert_eq, Hr. constructor. apply static_eq_write0.
    + rewrite lookup_insert_ne by done. apply Hsame.
Qed.

Lemma write_disk (fuel : nat) (fs fs' : feature_recorder_set) (rname : string)
  (pos0 : pos0_t) (f c : string) :
  write fuel fs rname pos0 f c = Ret fs' ->
  disk fs' = disk fs /\ hasher_func fs' = hasher_func fs /\
  hasher_name fs' = hasher_name fs /\ outdir fs' = outdir fs.
Proof.
  intros Hw. apply write_frame in Hw as [-> _]. repeat split.
Qed.

(** The stop-list branch hands the quoted feature and context on to the
    recorder of stopped features. *)
Lemma write_delegates (fuel : nat) (fs : feature_recorder_set) (rname sr : string)
  (r : feature_recorder) (pos0 : pos0_t) (feature_ context_ feature context futf8 : string) :
  frm fs !! rname = Some r ->
  disabled (set_flags fs) = false ->
  write_prepare fs r feature_ context_ = Ret (Some (feature, context, futf8)) ->
  on_stop_list fs r futf8 context = Some sr ->
  write (S fuel) fs rname pos0 feature_ context_ = write fuel fs sr pos0 feature context.
Proof.
  intros Hr Hd Hp Hs. cbn [write]. rewrite Hr, Hd, Hp. cbn. rewrite Hs. reflexivity.
Qed.

(** A write that passes the stop list ends in [write0]. *)
Lemma write_direct (fuel : nat) (fs : feature_recorder_set) (rname : string)
  (r : feature_recorder) (pos0 : pos0_t) (feature_ context_ feature context futf8 : string) :
  frm fs !! rname = Some r ->
  disabled (set_flags fs) = false ->
  write_prepare fs r feature_ context_ = Ret (Some (feature, context, futf8)) ->
  on_stop_list fs r futf8 context = None ->
  write (S fuel) fs rname pos0 feature_ context_ =
  Ret (set_frm fs (<[rname := write0 fs (histograms_add_feature r feature) pos0 feature context]>
                     (frm fs))).
Proof.
  intros Hr Hd Hp Hs. cbn [write]. rewrite Hr, Hd, Hp. cbn. rewrite Hs. reflexivity.
Qed.

(** On a recorder that takes writes, [write] returns and leaves the
    recorder as [written] says; the recorder takes writes afterwards,
    too. *)
Lemma write_takes (fuel : nat) (f : feature_recorder_set) (n : string)
  (r : feature_recorder) (pos0 : pos0_t) (feature context : string) :
  takes_writes f n -> frm f !! n = Some r ->
  write (S fuel) f n pos0 feature context =
    Ret (set_frm f (<[n := written f r pos0 feature context]> (frm f))) /\
  static_eq r (written f r pos0 feature context) /\
  takes_writes (set_frm f (<[n := written f r pos0 feature context]> (frm f))) n.
Proof.
  intros (Hd & Hp & r0 & Hr0 & Hstop) Hr. rewrite Hr in Hr0. injection Hr0 as <-.
  assert (Hst : static_eq r (written f r pos0 feature context)).
  { unfold written. destruct (strlen _ =? 0);
      [apply static_eq_refl | apply static_eq_write0]. }
  split; [|split; [exact Hst|]].
  - cbn [write]. rewrite Hr, Hd. unfold write_prepare. rewrite Hp. cbn [andb].
    unfold written, quoted.
    destruct (quote_if_necessary (def r) feature
                (if no_context (flags (def r)) then "" else context)) as [qf qc].
    cbn [fst snd].
    destruct (strlen qf =? 0); cbn [mbind res_bind].
    + rewrite (insert_id _ _ _ Hr), set_frm_id. reflexivity.
    + assert (Hoff : on_stop_list f r (make_utf8 feature) qc = None).
      { unfold on_stop_list. destruct Hstop as [Hs | Hs]; rewrite Hs;
          [destruct (no_stoplist (flags (def r)))|]; reflexivity. }
      rewrite Hoff. reflexivity.
  - split; [exact Hd|]. split; [exact Hp|]. exists (written f r pos0 feature context).
    cbn [frm set_frm stop_list]. rewrite lookup_insert_eq. split; [reflexivity|].
    destruct Hst as (_ & Hdef & _). rewrite Hdef. exact Hstop.
Qed.

End WithExternals.

(** What [write0] has put into the sink and added to the counter of a
    recorder that is [written] in an enabled set [Hd]. *)
Ltac written_log Hd :=
  unfold written, log_entry, write0; rewrite Hd;
  destruct (strlen _ =? 0);
  cbn [write0_log features_written histograms_add_feature];
  rewrite ?app_nil_r; reflexivity.

Section WithExternals.
Context `{!Externals}.

(** C7 (amended). When the stop list matches, the feature goes to the
    recorder of stopped features, which stores one more triple and counts
    one more feature; the primary recorder is left exactly as it was: no
    line in its sink, no histogram entry, and its counter
    [features_written] keeps its value. *)
Theorem C7_stop_list_leaves_primary_untouched
  (fuel : nat) (fs : feature_recorder_set) (rname sr : string)
  (r srec : feature_recorder) (check_feature_context : string -> string -> bool)
  (pos0 : pos0_t) (feature_ context_ feature context futf8 feature' context' futf8' : string) :
  disabled (set_flags fs) = false ->
  frm fs !! rname = Some r ->
  no_stoplist (flags (def r)) = false ->
  stop_list fs = Some check_feature_context ->
  stop_list_recorder fs = Some sr ->
  write_prepare fs r feature_ context_ = Ret (Some (feature, context, futf8)) ->
  check_feature_context futf8 context = true ->
  sr <> rname ->
  frm fs !! sr = Some srec ->
  no_stoplist (flags (def srec)) = true ->
  write_prepare fs srec feature context = Ret (Some (feature', context', futf8')) ->
  exists fs' srec',
    write (S (S fuel)) fs rname pos0 feature_ context_ = Ret fs' /\
    frm fs' !! rname = Some r /\
    frm fs' !! sr = Some srec' /\
    write0_log srec' = (write0_log srec ++ [(pos0, feature', context')])%list /\
    features_written srec' = uint64_t (features_written srec + 1) /\
    forall r', frm fs' !! rname = Some r' ->
      features_written r' = features_written r /\
      write0_log r' = write0_log r /\ histograms r' = histograms r.
Proof.
  intros Hd Hr Hns Hsl Hslr Hp Hchk Hne Hsr Hsns Hp'.
  assert (Hon : on_stop_list fs r futf8 context = Some sr).
  { unfold on_stop_list. rewrite Hns, Hsl, Hslr, Hchk. reflexivity. }
  assert (Hoff : on_stop_list fs srec futf8' context' = None).
  { unfold on_stop_list. rewrite Hsns. reflexivity. }
  rewrite (write_delegates (S fuel) fs rname sr r pos0 feature_ context_ feature context futf8)
    by assumption.
  rewrite (write_direct fuel fs sr srec pos0 feature context feature' context' futf8')
    by assumption.
  eexists. eexists. split; [reflexivity|].
  cbn [frm set_frm].
  rewrite lookup_insert_ne by done. rewrite lookup_insert_eq.
  split; [exact Hr|]. split; [reflexivity|].
  unfold write0. rewrite Hd. cbn.
  split; [reflexivity|]. split; [reflexivity|].
  intros r' Hr'. rewrite Hr in Hr'. inversion Hr'; subst. repeat split.
Qed.

(** *** write_buf *)

(** Positions at or behind the end of the buffer raise the error. *)
Lemma write_buf_outside (fuel : nat) (fs : feature_recorder_set) (rname : string)
  (r : feature_recorder) (sbuf : Sbuf.sbuf_t) (pos len : Z) :
  frm fs !! rname = Some r ->
  pos >= Sbuf.bufsize sbuf ->
  write_buf fuel fs rname sbuf pos len =
  Throw (runtime_error ("*** write_buf: WRITE OUTSIDE BUFFER. pos=" +:+ dec pos +:+ " sbuf=")).
Proof.
  intros Hr Hpos. unfold write_buf. rewrite Hr.
  destruct (Z.ltb_spec pos (Sbuf.bufsize sbuf)); [lia|].
  rewrite andb_false_r.
  destruct (Z.geb_spec pos (Sbuf.bufsize sbuf)); [reflexivity | lia].
Qed.

(** Positions in the margin are dropped without a word. *)
Lemma write_buf_margin (fuel : nat) (fs : feature_recorder_set) (rname : string)
  (r : feature_recorder) (sbuf : Sbuf.sbuf_t) (pos len : Z) :
  frm fs !! rname = Some r ->
  Sbuf.pagesize sbuf <= pos < Sbuf.bufsize sbuf ->
  write_buf fuel fs rname sbuf pos len = Ret fs.
Proof.
  intros Hr [Hlo Hhi]. unfold write_buf. rewrite Hr.
  destruct (Z.geb_spec pos (Sbuf.pagesize sbuf)); [|lia].
  destruct (Z.ltb_spec pos (Sbuf.bufsize sbuf)); [reflexivity | lia].
Qed.

(** In the page, the feature is taken with the length [write_buf_len]. *)
Lemma write_buf_in_page (fuel : nat) (fs : feature_recorder_set) (rname : string)
  (r : feature_recorder) (sbuf : Sbuf.sbuf_t) (pos len : Z) :
  frm fs !! rname = Some r ->
  pos < Sbuf.pagesize sbuf -> pos < Sbuf.bufsize sbuf ->
  write_buf fuel fs rname sbuf pos len =
  (feature ← sbuf_substr sbuf pos (write_buf_len sbuf pos len);
   context ← (if negb (no_context (flags (def r)))
              then write_buf_context r sbuf pos (write_buf_len sbuf pos len) else Ret "");
   write fuel fs rname (pos0_add (Sbuf.pos0 sbuf) pos) feature context).
Proof.
  intros Hr Hpage Hbuf. unfold write_buf. rewrite Hr.
  destruct (Z.geb_spec pos (Sbuf.pagesize sbuf)); [lia|].
  cbn [andb].
  destruct (Z.geb_spec pos (Sbuf.bufsize sbuf)); [lia | reflexivity].
Qed.

(** The length is brought in when [pos + len] does not wrap around. *)
Lemma write_buf_len_clamped (sbuf : Sbuf.sbuf_t) (pos len : Z) :
  0 <= pos < Sbuf.bufsize sbuf -> 0 <= len -> pos + len < 2 ^ 64 ->
  pos + len > Sbuf.bufsize sbuf ->
  write_buf_len sbuf pos len = Sbuf.bufsize sbuf - pos.
Proof.
  intros Hpos Hlen Hno Hgt. unfold write_buf_len, size_t_wrap.
  rewrite (Z.mod_small (pos + len)) by lia.
  destruct (Z.gtb_spec (pos + len) (Sbuf.bufsize sbuf)); [|lia].
  apply Z.mod_small. lia.
Qed.

Lemma write_buf_len_kept (sbuf : Sbuf.sbuf_t) (pos len : Z) :
  0 <= pos -> 0 <= len -> pos + len <= Sbuf.bufsize sbuf -> Sbuf.bufsize sbuf < 2 ^ 64 ->
  write_buf_len sbuf pos len = len.
Proof.
  intros Hpos Hlen Hle Hmax. unfold write_buf_len, size_t_wrap.
  rewrite (Z.mod_small (pos + len)) by lia.
  destruct (Z.gtb_spec (pos + len) (Sbuf.bufsize sbuf)); [lia | reflexivity].
Qed.

End WithExternals.
End FRFacts.

(** ** Facts about carving *)

Module CarveFacts.
Import FR Props FRFacts.

Lemma files_written_app (a b : list fs_event) :
  files_written (a ++ b) = (files_written a + files_written b)%nat.
Proof.
  induction a as [|e a IH]; [reflexivity|].
  destruct e; cbn [files_written app]; rewrite IH; reflexivity.
Qed.

Lemma set_carve_state_id (r : feature_recorder) :
  set_carve_state r (carve_cache r) (carved_file_count r) = r.
Proof. destruct r; reflexivity. Qed.

Lemma append_assoc (a b c : string) : (a +:+ b) +:+ c = a +:+ (b +:+ c).
Proof.
  induction a as [|x a IH]; [reflexivity|].
  change (String x ((a +:+ b) +:+ c) = String x (a +:+ (b +:+ c))).
  rewrite IH. reflexivity.
Qed.

Section WithExternals.
Context `{!Externals}.

(** The XML of a cache hit is the one of the spec. *)
Lemma carve_xml_cached (fs : feature_recorder_set) (header data : Sbuf.sbuf_t) :
  carve_xml fs true CACHED header data (hash fs data) = cached_xml fs header data.
Proof. reflexivity. Qed.

(** In a mode that carves, [carve] gets past its [switch]. *)
Lemma carve_reaches_body (fuel : nat) (fs : feature_recorder_set) (rname : string)
  (r : feature_recorder) (header data : Sbuf.sbuf_t) (ext : string) (mtime : Z) :
  frm fs !! rname = Some r ->
  carves_in (carve_mode r) (do_not_carve_encoding r) data ->
  carve fuel fs rname header data ext mtime =
  carve_body fuel fs rname r header data ext mtime.
Proof.
  intros Hr Hc. unfold carve. rewrite Hr. unfold carves_in in Hc.
  destruct (carve_mode r); [contradiction | | reflexivity].
  destruct Hc as [Hp Ha].
  destruct (Z.eqb_spec (strlen (path (Sbuf.pos0 data))) 0); [contradiction|].
  destruct (String.eqb_spec (alphaPart (Sbuf.pos0 data)) (do_not_carve_encoding r));
    [contradiction | reflexivity].
Qed.

(** A call whose body is in the cache records [CACHED] and does nothing
    else. *)
Lemma carve_cached (fuel : nat) (fs : feature_recorder_set) (rname : string)
  (r : feature_recorder) (c : carve_call) :
  frm fs !! rname = Some r ->
  carves_in (carve_mode r) (do_not_carve_encoding r) (cc_data c) ->
  hash fs (cc_data c) ∈ carve_cache r ->
  carve fuel fs rname (cc_header c) (cc_data c) (cc_ext c) (cc_mtime c) =
  record_cached fuel fs rname c.
Proof.
  intros Hr Hmode Hin.
  rewrite (carve_reaches_body fuel fs rname r _ _ _ _ Hr Hmode).
  unfold carve_body, record_cached.
  rewrite (bool_decide_eq_true_2 _ Hin).
  assert (Hcache : {[hash fs (cc_data c)]} ∪ carve_cache r = carve_cache r)
    by (apply subseteq_union_1_L; set_solver).
  rewrite Hcache, set_carve_state_id, (insert_id _ _ _ Hr), set_frm_id.
  rewrite carve_xml_cached. reflexivity.
Qed.

Lemma holds_write (fuel : nat) (fs fs' : feature_recorder_set) (rname n h : string)
  (hf : list byte -> string) (m : carve_mode_t) (e : string) (pos0 : pos0_t) (f c : string) :
  holds fs rname h hf m e -> write fuel fs n pos0 f c = Ret fs' -> holds fs' rname h hf m e.
Proof.
  intros (Hhf & r & Hr & Hmode & Henc & Hin) Hw.
  pose proof (write_disk _ _ _ _ _ _ _ Hw) as (_ & Hf & _).
  apply write_frame in Hw as [_ Hst]. specialize (Hst rname). rewrite Hr in Hst.
  inversion Hst as [? r' (_ & _ & _ & Hm & He & Hc & _) |]; subst.
  split; [congruence|]. exists r'. repeat split; congruence.
Qed.

Lemma record_cached_holds (fuel : nat) (fs : feature_recorder_set) (rname h : string)
  (hf : list byte -> string) (m : carve_mode_t) (e : string) (c : carve_call) :
  holds fs rname h hf m e ->
  holds (snd (record_cached fuel fs rname c)) rname h hf m e /\
  disk (snd (record_cached fuel fs rname c)) = disk fs /\
  forall p, fst (record_cached fuel fs rname c) = Ret p -> p = CACHED.
Proof.
  intros Hh. unfold record_cached.
  destruct (write fuel fs rname _ CACHED _) as [fs2| | | |] eqn:Hw; cbn [fst snd].
  - split; [eapply holds_write; eauto|].
    split; [apply (write_disk _ _ _ _ _ _ _ Hw)|]. intros p [= <-]. reflexivity.
  - split; [exact Hh|]. split; [reflexivity|]. intros p Hp. discriminate Hp.
  - split; [exact Hh|]. split; [reflexivity|]. intros p Hp. discriminate Hp.
  - split; [exact Hh|]. split; [reflexivity|]. intros p Hp. discriminate Hp.
  - split; [exact Hh|]. split; [reflexivity|]. intros p Hp. discriminate Hp.
Qed.

(** Once the body is in the cache, a sequence of carves of bodies with
    this hash is a sequence of [CACHED] records. *)
Lemma carve_seq_cached (fuel : nat) (rname h : string) (hf : list byte -> string)
  (m : carve_mode_t) (e : string) (calls : list carve_call) :
  forall fs : feature_recorder_set,
    holds fs rname h hf m e ->
    Forall (fun c => hf (sbuf_bytes (cc_data c)) = h /\ carves_in m e (cc_data c)) calls ->
    carve_seq fuel fs rname calls = record_cached_seq fuel fs rname calls /\
    disk (snd (carve_seq fuel fs rname calls)) = disk fs /\
    Forall (fun x => forall p, x = Ret p -> p = CACHED) (fst (carve_seq fuel fs rname calls)).
Proof.
  induction calls as [|c rest IH]; intros fs Hh Hall.
  - repeat split. constructor.
  - apply Forall_cons in Hall as [[Hc Hcv] Hrest].
    pose proof Hh as (Hhf & r & Hr & Hmode & Henc & Hin).
    cbn [carve_seq record_cached_seq].
    rewrite (carve_cached fuel fs rname r c Hr)
      by (first [rewrite Hmode, Henc; exact Hcv | unfold hash; rewrite Hhf, Hc; exact Hin]).
    destruct (record_cached_holds fuel fs rname _ hf m e c Hh) as (Hh1 & Hd1 & Hp1).
    destruct (record_cached fuel fs rname c) as [r1 fs1]. cbn [fst snd] in *.
    destruct (IH fs1 Hh1 Hrest) as (Heq & Hd & Hf).
    rewrite <- Heq.
    destruct (carve_seq fuel fs1 rname rest) as [rs fs2]. cbn [fst snd] in *.
    split; [reflexivity|]. split; [congruence|].
    constructor; assumption.
Qed.

(** The first carve of a body. *)
Lemma carve_first (fuel : nat) (fs : feature_recorder_set) (rname : string)
  (r : feature_recorder) (header data : Sbuf.sbuf_t) (ext : string) (mtime : Z) :
  frm fs !! rname = Some r ->
  carves_in (carve_mode r) (do_not_carve_encoding r) data ->
  hash fs data ∉ carve_cache r ->
  carve fuel fs rname header data ext mtime =
  let rel := carved_relative_path r data ext (carved_file_count r) in
  let abs := carved_absolute_path fs r data ext (carved_file_count r) in
  let fs1 := carve_reserve fs rname r (hash fs data) in
  match write fuel fs1 rname (Sbuf.pos0 data) rel
              (carve_xml fs false rel header data (hash fs data)) with
  | Ret fs2 =>
      if negb (file_open_ok abs) then
        (Throw (runtime_error ("cannot open file for writing:" +:+ abs)), fs2)
      else
        let fs3 := add_disk fs2 [file_written abs (sbuf_bytes header ++ sbuf_bytes data)%list] in
        if negb (file_write_ok abs) then
          (Throw (runtime_error ("error writing file " +:+ abs)), fs3)
        else (Ret rel, if mtime >? 0 then add_disk fs3 [utimes abs mtime] else fs3)
  | Throw e => (Throw e, fs1)
  | Abort => (Abort, fs1)
  | Undef => (Undef, fs1)
  | NoFuel => (NoFuel, fs1)
  end.
Proof.
  intros Hr Hmode Hnot.
  rewrite (carve_reaches_body fuel fs rname r _ _ _ _ Hr Hmode). unfold carve_body.
  rewrite (bool_decide_eq_false_2 _ Hnot). reflexivity.
Qed.

Lemma holds_reserve (fs : feature_recorder_set) (rname h : string) (r : feature_recorder) :
  holds (carve_reserve fs rname r h) rname h (hasher_func fs)
        (carve_mode r) (do_not_carve_encoding r).
Proof.
  split; [reflexivity|].
  eexists. cbn [carve_reserve frm add_disk set_frm].
  rewrite lookup_insert_eq. split; [reflexivity|].
  split; [reflexivity|]. split; [reflexivity|]. cbn. set_solver.
Qed.

Lemma holds_add_disk (fs : feature_recorder_set) (rname h : string)
  (hf : list byte -> string) (m : carve_mode_t) (e : string) (evs : list fs_event) :
  holds fs rname h hf m e -> holds (add_disk fs evs) rname h hf m e.
Proof. intros Hh. exact Hh. Qed.

Lemma carve_xml_carved (fs : feature_recorder_set) (rel : string)
  (header data : Sbuf.sbuf_t) :
  carve_xml fs false rel header data (hash fs data) = carved_xml fs rel header data.
Proof.
  unfold carve_xml, carved_xml. cbn [negb].
  rewrite !append_assoc. reflexivity.
Qed.

Lemma log_entry_def (r r' : feature_recorder) (pos0 : pos0_t) (f c : string) :
  def r' = def r -> log_entry r' pos0 f c = log_entry r pos0 f c.
Proof. intros Hd. unfold log_entry, quoted. rewrite Hd. reflexivity. Qed.

Lemma cached_xml_same (fs fs' : feature_recorder_set) (header data : Sbuf.sbuf_t) :
  hasher_func fs' = hasher_func fs -> hasher_name fs' = hasher_name fs ->
  cached_xml fs' header data = cached_xml fs header data.
Proof. intros Hf Hn. unfold cached_xml, hash. rewrite Hf, Hn. reflexivity. Qed.

(** On a recorder that takes writes, a sequence of carves of bodies
    that are in the cache puts one [CACHED] record after the other
    into the sink and leaves the file system alone. *)
Lemma carve_seq_records (fuel : nat) (rname h : string) (fs0 : feature_recorder_set)
  (r0 : feature_recorder) (calls : list carve_call) :
  Forall (fun c => hash fs0 (cc_data c) = h /\
                   carves_in (carve_mode r0) (do_not_carve_encoding r0) (cc_data c)) calls ->
  forall (fs : feature_recorder_set) (r : feature_recorder),
    takes_writes fs rname -> frm fs !! rname = Some r ->
    def r = def r0 -> carve_mode r = carve_mode r0 ->
    do_not_carve_encoding r = do_not_carve_encoding r0 -> h ∈ carve_cache r ->
    hasher_func fs = hasher_func fs0 -> hasher_name fs = hasher_name fs0 ->
    exists fs2 r2,
      carve_seq (S fuel) fs rname calls = (map (fun _ => Ret CACHED) calls, fs2) /\
      frm fs2 !! rname = Some r2 /\ static_eq r r2 /\
      write0_log r2 = (write0_log r ++ cached_entries r0 fs0 calls)%list /\
      disk fs2 = disk fs.
Proof.
  induction calls as [|c rest IH]; intros Hall fs r Htakes Hr Hdef Hmode Henc Hin Hhf Hhn.
  { exists fs, r. cbn [carve_seq map]. unfold cached_entries. cbn [map concat].
    rewrite app_nil_r. split; [reflexivity|]. split; [exact Hr|].
    split; [apply static_eq_refl|]. split; reflexivity. }
  apply Forall_cons in Hall as [[Hc Hcv] Hrest].
  cbn [carve_seq].
  rewrite (carve_cached (S fuel) fs rname r c Hr)
    by (first [rewrite Hmode, Henc; exact Hcv
              | unfold hash in *; rewrite Hhf, Hc; exact Hin]).
  unfold record_cached.
  pose proof Htakes as (Hd & _).
  destruct (write_takes fuel fs rname r (Sbuf.pos0 (cc_data c)) CACHED
              (cached_xml fs (cc_header c) (cc_data c)) Htakes Hr)
    as (Hw & Hst & Htakes').
  rewrite Hw.
  set (r' := written fs r (Sbuf.pos0 (cc_data c)) CACHED
               (cached_xml fs (cc_header c) (cc_data c))) in *.
  assert (Hlog : write0_log r' =
            (write0_log r ++ log_entry r (Sbuf.pos0 (cc_data c)) CACHED
                               (cached_xml fs (cc_header c) (cc_data c)))%list)
    by (unfold r'; written_log Hd).
  pose proof Hst as (_ & Hdef' & _ & Hmode' & Henc' & Hcache' & _).
  destruct (IH Hrest (set_frm fs (<[rname := r']> (frm fs))) r' Htakes')
    as (fs2 & r2 & Hseq & Hr2 & Hst2 & Hlog2 & Hdisk2).
  { cbn [frm set_frm]. apply lookup_insert_eq. }
  { congruence. }
  { congruence. }
  { congruence. }
  { rewrite Hcache'. exact Hin. }
  { exact Hhf. }
  { exact Hhn. }
  exists fs2, r2. rewrite Hseq. cbn [map].
  split; [reflexivity|]. split; [exact Hr2|].
  split; [eapply static_eq_trans; eassumption|].
  split; [|exact Hdisk2].
  rewrite Hlog2, Hlog. unfold cached_entries. cbn [map concat].
  rewrite (log_entry_def r0 r) by exact Hdef.
  rewrite (cached_xml_same fs0 fs) by assumption.
  rewrite <- app_assoc. reflexivity.
Qed.


End WithExternals.
End CarveFacts.

(** ** Facts about quoting and unquoting *)

Module QuoteFacts.
Import Quote.

Lemma unquote_loop_other (c : ascii) (t : string) :
  Ascii.eqb c "\" = false ->
  unquote_loop (String c t) = String c (unquote_loop t).
Proof.
  intros Hc. destruct t as [|c1 [|c2 [|c3 rest]]]; cbn [unquote_loop]; try reflexivity.
  rewrite Hc. reflexivity.
Qed.

(** The two hexadecimal digits of an escape give the byte back. *)
Lemma hex_digits_decode (c : ascii) :
  isxdigit (hexdigit (code c / 16)) = true /\
  isxdigit (hexdigit (code c mod 16)) = true /\
  char_of (Z.lor (hexval (hexdigit (code c / 16)) * 16) (hexval (hexdigit (code c mod 16)))) = c.
Proof.
  destruct c as [[] [] [] [] [] [] [] []]; vm_compute; repeat split.
Qed.

Lemma unquote_loop_esc (c : ascii) (t : string) :
  unquote_loop (esc c +:+ t) = String c (unquote_loop t).
Proof.
  destruct (hex_digits_decode c) as (H1 & H2 & H3).
  change (esc c +:+ t) with
    (String "\" (String "x" (String (hexdigit (code c / 16))
       (String (hexdigit (code c mod 16)) t)))).
  cbn [unquote_loop].
  change (isodigit "x") with false. rewrite andb_false_r. cbn [andb].
  change (Ascii.eqb "\" "\") with true. change (Ascii.eqb "x" "x") with true.
  cbn [andb]. rewrite H1, H2. cbn [andb]. rewrite H3. reflexivity.
Qed.

Lemma strlen_cons (c : ascii) (s : string) : strlen (String c s) = strlen s + 1.
Proof. unfold strlen. cbn [String.length]. lia. Qed.

Lemma strlen_nonneg (s : string) : 0 <= strlen s.
Proof. unfold strlen. lia. Qed.

Lemma strlen_esc (c : ascii) (s : string) : strlen (esc c +:+ s) = strlen s + 4.
Proof.
  change (esc c +:+ s) with
    (String "\" (String "x" (String (hexdigit (code c / 16))
       (String (hexdigit (code c mod 16)) s)))).
  rewrite !strlen_cons. lia.
Qed.

Local Abbreviation quoted s := (validateOrEscapeUTF8_spec s true true).

(** Escaping and the loop of [unquote_string], for a string without a
    backslash. *)
Lemma unquote_loop_quoted (n : nat) :
  forall s : string,
    (String.length s <= n)%nat ->
    contains "\" s = false ->
    unquote_loop (quoted s) = s /\ (strlen (quoted s) < 4 -> quoted s = s).
Proof.
  induction n as [|n IH]; intros s Hlen Hbs.
  { destruct s; [split; reflexivity | cbn in Hlen; lia]. }
  destruct s as [|c0 t]; [split; reflexivity|].
  cbn [contains] in Hbs. cbn [String.length] in Hlen.
  destruct (Ascii.eqb c0 "\") eqn:Hc0; [discriminate|].
  assert (Hbad : unquote_loop (esc c0 +:+ quoted t) = String c0 t /\
                 (strlen (esc c0 +:+ quoted t) < 4 -> esc c0 +:+ quoted t = String c0 t)).
  { destruct (IH t ltac:(lia) Hbs) as [IHt _].
    rewrite unquote_loop_esc, IHt. split; [reflexivity|].
    rewrite strlen_esc. pose proof (strlen_nonneg (quoted t)). lia. }
  cbn [validateOrEscapeUTF8_spec]. rewrite Hc0. cbn [andb].
  destruct (code c0 <? 128).
  { destruct (not_printable c0); [exact Hbad|].
    destruct (IH t ltac:(lia) Hbs) as [IHt IHl].
    rewrite unquote_loop_other, IHt by exact Hc0. split; [reflexivity|].
    rewrite strlen_cons. intros Hl. rewrite IHl by lia. reflexivity. }
  destruct t as [|c1 t1]; [exact Hbad|].
  cbn [contains] in Hbs. cbn [String.length] in Hlen.
  destruct (Ascii.eqb c1 "\") eqn:Hc1; [discriminate|].
  destruct (seq2 c0 c1).
  { destruct (IH t1 ltac:(lia) Hbs) as [IHt IHl].
    rewrite !unquote_loop_other, IHt by assumption. split; [reflexivity|].
    rewrite !strlen_cons. intros Hl. rewrite IHl by lia. reflexivity. }
  destruct t1 as [|c2 t2]; [exact Hbad|].
  cbn [contains] in Hbs. cbn [String.length] in Hlen.
  destruct (Ascii.eqb c2 "\") eqn:Hc2; [discriminate|].
  destruct (seq3 c0 c1 c2).
  { destruct (IH t2 ltac:(lia) Hbs) as [IHt IHl].
    rewrite !unquote_loop_other, IHt by assumption. split; [reflexivity|].
    rewrite !strlen_cons. intros Hl. rewrite IHl by lia. reflexivity. }
  destruct t2 as [|c3 t3]; [exact Hbad|].
  cbn [contains] in Hbs. cbn [String.length] in Hlen.
  destruct (Ascii.eqb c3 "\") eqn:Hc3; [discriminate|].
  destruct (seq4 c0 c1 c2 c3); [|exact Hbad].
  destruct (IH t3 ltac:(lia) Hbs) as [IHt IHl].
  rewrite !unquote_loop_other, IHt by assumption. split; [reflexivity|].
  rewrite !strlen_cons. intros Hl. pose proof (strlen_nonneg (quoted t3)). lia.
Qed.

Lemma list_ascii_of_string_app (a b : string) :
  list_ascii_of_string (a +:+ b) = (list_ascii_of_string a ++ list_ascii_of_string b)%list.
Proof.
  induction a as [|x a IH]; [reflexivity|].
  change (String x a +:+ b) with (String x (a +:+ b)).
  cbn [list_ascii_of_string app]. rewrite IH. reflexivity.
Qed.

Lemma esc_printable (c0 c : ascii) :
  In c (list_ascii_of_string (esc c0)) -> not_printable c = false.
Proof.
  intros Hin.
  destruct c0 as [[] [] [] [] [] [] [] []]; cbn in Hin;
    repeat (destruct Hin as [<- | Hin]; [reflexivity|]); contradiction.
Qed.

Lemma high_printable (c : ascii) : 128 <= code c -> not_printable c = false.
Proof.
  intros Hc. unfold not_printable.
  destruct (Z.ltb_spec (code c) 32); [lia|].
  destruct (Z.eqb_spec (code c) 127); [lia | reflexivity].
Qed.

Lemma seq_high :
  (forall c0 c1, seq2 c0 c1 = true -> 128 <= code c0 /\ 128 <= code c1) /\
  (forall c0 c1 c2, seq3 c0 c1 c2 = true ->
     128 <= code c0 /\ 128 <= code c1 /\ 128 <= code c2) /\
  (forall c0 c1 c2 c3, seq4 c0 c1 c2 c3 = true ->
     128 <= code c0 /\ 128 <= code c1 /\ 128 <= code c2 /\ 128 <= code c3).
Proof.
  unfold seq2, seq3, seq4, cont, between.
  repeat split; intros;
    repeat match goal with
           | H : _ && _ = true |- _ => apply andb_prop in H as [? ?]
           | H : _ || _ = true |- _ => apply orb_prop in H as [? | ?]
           | H : (_ <=? _) = true |- _ => apply Z.leb_le in H
           end; lia.
Qed.

(** The spec-modelled escaping meets the two sentences of the spec it
    was missing: with a policy that escapes, what it gives holds no raw
    tab, line feed or carriage return, and no other byte below 128 that
    is not printable. *)
Lemma quoted_printable (n : nat) (escape_backslash : bool) :
  forall s : string,
    (String.length s <= n)%nat ->
    forall c, In c (list_ascii_of_string (validateOrEscapeUTF8_spec s true escape_backslash)) ->
              not_printable c = false.
Proof.
  destruct seq_high as (Hs2 & Hs3 & Hs4).
  induction n as [|n IH]; intros s Hlen c Hin.
  { destruct s; [destruct Hin | cbn in Hlen; lia]. }
  destruct s as [|c0 t]; [destruct Hin|].
  cbn [String.length] in Hlen.
  assert (Hbad : In c (list_ascii_of_string
                         (esc c0 +:+ validateOrEscapeUTF8_spec t true escape_backslash)) ->
                 not_printable c = false).
  { rewrite list_ascii_of_string_app. intros Hc. apply in_app_or in Hc as [Hc | Hc].
    - exact (esc_printable c0 c Hc).
    - apply (IH t); [lia | exact Hc]. }
  cbn [validateOrEscapeUTF8_spec] in Hin.
  destruct (Z.ltb_spec (code c0) 128) as [Hlow | Hhigh].
  { destruct (Ascii.eqb c0 "\" && escape_backslash).
    - cbn [list_ascii_of_string] in Hin.
      destruct Hin as [<- | [<- | Hin]]; [reflexivity | reflexivity |].
      apply (IH t); [lia | exact Hin].
    - destruct (not_printable c0) eqn:Hnp; [exact (Hbad Hin)|].
      cbn [list_ascii_of_string] in Hin. destruct Hin as [<- | Hin]; [exact Hnp|].
      apply (IH t); [lia | exact Hin]. }
  destruct t as [|c1 t1]; [exact (Hbad Hin)|].
  cbn [String.length] in Hlen.
  destruct (seq2 c0 c1) eqn:H2.
  { apply Hs2 in H2 as [? ?]. cbn [list_ascii_of_string] in Hin.
    destruct Hin as [<- | [<- | Hin]]; try (apply high_printable; assumption).
    apply (IH t1); [lia | exact Hin]. }
  destruct t1 as [|c2 t2]; [exact (Hbad Hin)|].
  cbn [String.length] in Hlen.
  destruct (seq3 c0 c1 c2) eqn:H3.
  { apply Hs3 in H3 as (? & ? & ?). cbn [list_ascii_of_string] in Hin.
    destruct Hin as [<- | [<- | [<- | Hin]]]; try (apply high_printable; assumption).
    apply (IH t2); [lia | exact Hin]. }
  destruct t2 as [|c3 t3]; [exact (Hbad Hin)|].
  cbn [String.length] in Hlen.
  destruct (seq4 c0 c1 c2 c3) eqn:H4; [|exact (Hbad Hin)].
  apply Hs4 in H4 as (? & ? & ? & ?). cbn [list_ascii_of_string] in Hin.
  destruct Hin as [<- | [<- | [<- | [<- | Hin]]]]; try (apply high_printable; assumption).
  apply (IH t3); [lia | exact Hin].
Qed.

Lemma implies_lt_false (a b : Z) : a <= b -> (a >? b) = false.
Proof. intros Hle. rewrite Z.gtb_ltb. apply Z.ltb_ge. exact Hle. Qed.

Lemma unquote_string_quoted (s : string) :
  contains "\" s = false -> unquote_string (quoted s) = s.
Proof.
  intros Hbs. destruct (unquote_loop_quoted (String.length s) s (le_n _) Hbs) as [Hl Hs].
  unfold unquote_string. destruct (Z.ltb_spec (strlen (quoted s)) 4); auto.
Qed.

(** C9 (amended). With the default flags, unquoting the quoted feature
    gives the feature back when the feature holds no backslash and its
    quoted form is not cut short by [max_feature_size]. *)
Theorem C9_unquote_quoted_without_backslash (E : FR.Externals)
  (d : FR.feature_recorder_def) (x context : string) :
  (forall s a b, @FR.validateOrEscapeUTF8 E s a b = validateOrEscapeUTF8_spec s a b) ->
  FR.no_quote (FR.flags d) = false ->
  FR.xml (FR.flags d) = false ->
  contains "\" x = false ->
  strlen (validateOrEscapeUTF8_spec x true true) <= FR.max_feature_size d ->
  unquote_string (fst (@FR.quote_if_necessary E d x context)) = x.
Proof.
  intros Hspec Hnq Hxml Hbs Hlen. unfold FR.quote_if_necessary.
  rewrite Hnq, Hxml. cbn [fst]. rewrite !Hspec.
  rewrite (implies_lt_false (strlen (quoted x)) (FR.max_feature_size d) Hlen).
  apply unquote_string_quoted. exact Hbs.
Qed.

(** The claim as stated fails on a backslash, which is doubled and stays
    doubled, and on a feature whose quoted form is cut short. *)
Lemma C9_counterexample :
  unquote_string
    (fst (@FR.quote_if_necessary Fixtures.externals0 (Fixtures.def0 "url") "\" "")) = "\\" /\
  unquote_string
    (fst (@FR.quote_if_necessary Fixtures.externals0 (Fixtures.def0 "url") "\" "")) <> "\" /\
  unquote_string
    (fst (@FR.quote_if_necessary Fixtures.externals0 (Fixtures.def_short "url")
            (String (ascii_of_N 255) "") "")) <> String (ascii_of_N 255) "".
Proof.
  split; [reflexivity|]. split; intros Hcontra; vm_compute in Hcontra; discriminate Hcontra.
Qed.

(** A feature with a tab, an invalid byte and a line feed. *)
Lemma C9_witness :
  unquote_string
    (fst (@FR.quote_if_necessary Fixtures.externals0 (Fixtures.def0 "url")
            (String "009" (String (ascii_of_N 255) (String "a" (String "010" "bc")))) "")) =
  String "009" (String (ascii_of_N 255) (String "a" (String "010" "bc"))).
Proof.
  apply (C9_unquote_quoted_without_backslash Fixtures.externals0 (Fixtures.def0 "url")
           (String "009" (String (ascii_of_N 255) (String "a" (String "010" "bc")))) "").
  - intros s a b. reflexivity.
  - reflexivity.
  - reflexivity.
  - reflexivity.
  - vm_compute. intros Hcontra. discriminate Hcontra.
Defined.

End QuoteFacts.

(** ** Facts about the scanner set *)

Module SSFacts.
Import FR SS Props FRFacts.

Lemma skipped_should_run (ss : scanner_set) (sbuf : Sbuf.sbuf_t) (seen_before : bool)
  (ngram_size : Z) (k : N) (i : scanner_info) :
  skipped ss sbuf seen_before ngram_size k i = false <->
  should_run ss sbuf seen_before ngram_size k i.
Proof.
  unfold skipped, should_run.
  destruct (set_mem k (enabled_scanners ss)); cbn [negb];
    [|split; [discriminate | intros [? _]; discriminate]].
  destruct (Z.gtb_spec ngram_size 0) as [Hn|Hn];
    destruct (scan_ngram_buffer (scanner_flags i)); cbn [andb Bool.eqb];
    try (split; [discriminate | intros (_ & Hc & _); exfalso; apply Hc; split; [lia | reflexivity]]).
  all: destruct (Z.gtb_spec (Sbuf.depth sbuf) 0) as [Hd|Hd];
    destruct (depth0_only (scanner_flags i)); cbn [andb];
    try (split; [discriminate | intros (_ & _ & Hc & _); exfalso; apply Hc; split; [lia | reflexivity]]).
  all: destruct seen_before; destruct (scan_seen_before (scanner_flags i)); cbn [andb Bool.eqb];
    try (split; [discriminate | intros (_ & _ & _ & Hc); exfalso; apply Hc; split; reflexivity]).
  all: split; [intros _ | reflexivity].
  all: split; [reflexivity|]; repeat split; intros [H1 H2]; try discriminate; lia.
Qed.

Lemma skipped_same (ss ss' : scanner_set) (sbuf : Sbuf.sbuf_t) (seen_before : bool)
  (ngram_size : Z) (k : N) (i : scanner_info) :
  enabled_scanners ss' = enabled_scanners ss ->
  skipped ss' sbuf seen_before ngram_size k i = skipped ss sbuf seen_before ngram_size k i.
Proof. intros He. unfold skipped. rewrite He. reflexivity. Qed.

Section WithScanners.
Context `{!Externals} `{!Scanners}.

Lemma write_prepare_not_pedantic (f : feature_recorder_set) (r : feature_recorder)
  (a b : string) :
  pedantic (set_flags f) = false -> exists o, write_prepare f r a b = Ret o.
Proof.
  intros Hp. unfold write_prepare. rewrite Hp. cbn [andb].
  destruct (quote_if_necessary (def r) a (if no_context (flags (def r)) then "" else b))
    as [feature context].
  destruct (strlen feature =? 0); eauto.
Qed.

(** An alert recorder that takes every alert returns from every write
    and takes every alert afterwards, too. *)
Lemma alert_write_ok (fuel : nat) (f : feature_recorder_set) (pos0 : pos0_t)
  (feature context : string) :
  alert_ok f ->
  exists f', alert_write (S fuel) f pos0 feature context = Ret f' /\
             write (S fuel) f ALERT_RECORDER_NAME pos0 feature context = Ret f' /\
             alert_ok f'.
Proof.
  intros (Hp & r & Hr & Hstop).
  unfold alert_write, get_alert_recorder, named_feature_recorder. rewrite Hr.
  cbn [mbind res_bind].
  assert (Hw : exists f', write (S fuel) f ALERT_RECORDER_NAME pos0 feature context = Ret f').
  { cbn [write]. rewrite Hr. destruct (disabled (set_flags f)); [eauto|].
    destruct (write_prepare_not_pedantic f r feature context Hp) as [[[[ft cx] u]|] Ho];
      rewrite Ho; cbn [mbind res_bind]; [|eauto].
    assert (Hoff : on_stop_list f r u cx = None).
    { unfold on_stop_list. destruct Hstop as [Hs | Hs]; rewrite Hs;
        [destruct (no_stoplist (flags (def r)))|]; reflexivity. }
    rewrite Hoff. eauto. }
  destruct Hw as [f' Hw]. exists f'. split; [exact Hw|]. split; [exact Hw|].
  pose proof (write_frame _ _ _ _ _ _ _ Hw) as [Hf Hst].
  specialize (Hst ALERT_RECORDER_NAME). rewrite Hr in Hst.
  apply static_eq_some in Hst as (r' & Hr' & _ & Hdef & _).
  rewrite Hf. split; [exact Hp|]. exists r'. split; [exact Hr'|].
  cbn [stop_list set_frm]. rewrite Hdef. exact Hstop.
Qed.

Lemma handler_alert_ok (fuel : nat) (f : feature_recorder_set) (sbuf : Sbuf.sbuf_t)
  (name context : string) :
  alert_ok f ->
  exists f', handler_alert (S fuel) f sbuf name context = Ret f' /\
             alert_write (S fuel) f (Sbuf.pos0 sbuf) ("scanner=" +:+ name) context = Ret f' /\
             alert_ok f'.
Proof.
  intros Hok.
  destruct (alert_write_ok fuel f (Sbuf.pos0 sbuf) ("scanner=" +:+ name) context Hok)
    as (f' & Ha & _ & Hok').
  exists f'. unfold handler_alert. rewrite Ha. auto.
Qed.

(** The dispatch loop calls scanners in the order of [to_run] and no
    others, whatever the scanners and the alert recorder do: an
    exception that leaves a handler cuts the list short. *)
Lemma dispatch_calls_only_to_run (fuel : nat) (sbuf : Sbuf.sbuf_t) (seen_before : bool)
  (ngram_size : Z) (db : list (N * scanner_info)) :
  forall (ss : scanner_set) (children : Z),
    exists called rest,
      invoked (snd (dispatch fuel db ss sbuf seen_before ngram_size children)) =
        (invoked ss ++ called)%list /\
      to_run ss sbuf seen_before ngram_size db = (called ++ rest)%list.
Proof.
  induction db as [|[k i] tl IH]; intros ss children.
  { exists [], []. cbn [dispatch snd]. rewrite app_nil_r. split; reflexivity. }
  cbn [dispatch]. unfold to_run. cbn [List.filter fst snd].
  destruct (skipped ss sbuf seen_before ngram_size k i) eqn:Hskip; cbn [negb].
  { apply IH. }
  destruct (scanner_scan k sbuf children (fs ss)) as [[out children1] f1].
  cbn [map fst].
  set (cut := exists called rest : list N,
         invoked (add_invoked (set_fs ss f1) k) = (invoked ss ++ called)%list /\
         (k :: to_run ss sbuf seen_before ngram_size tl = called ++ rest)%list).
  assert (Hcut : cut).
  { exists [k], (to_run ss sbuf seen_before ngram_size tl). split; reflexivity. }
  match goal with
  | |- context [match ?h with Ret _ => _ | _ => _ end] => destruct h as [f2| | | |]
  end; cbn [snd]; try exact Hcut.
  destruct (IH (set_fs (add_invoked (set_fs ss f1) k) f2) children1)
    as (called & rest & Hinv & Hrun).
  exists (k :: called), rest. split.
  - rewrite Hinv. cbn [invoked set_fs add_invoked]. rewrite <- app_assoc. reflexivity.
  - cbn [app]. f_equal. rewrite <- Hrun. reflexivity.
Qed.

(** So does [process_sbuf], in every phase, at every depth and with
    every alert recorder. *)
Lemma process_sbuf_calls_only_to_run (fuel : nat) (ss : scanner_set) (sbuf : Sbuf.sbuf_t)
  (children : Z) :
  exists called rest,
    invoked (snd (process_sbuf fuel ss sbuf children)) = (invoked ss ++ called)%list /\
    to_run ss sbuf (bool_decide (sbuf_hash sbuf ∈ sbuf_seen_set ss))
           (find_ngram_size sbuf (max_ngram ss)) (scanner_info_db ss) =
      (called ++ rest)%list.
Proof.
  set (run := to_run ss sbuf (bool_decide (sbuf_hash sbuf ∈ sbuf_seen_set ss))
                (find_ngram_size sbuf (max_ngram ss)) (scanner_info_db ss)).
  assert (Hnone : forall s : scanner_set, invoked s = invoked ss ->
            exists called rest, invoked s = (invoked ss ++ called)%list /\
                                run = (called ++ rest)%list).
  { intros s Hs. exists [], run. rewrite app_nil_r. split; [exact Hs | reflexivity]. }
  assert (Hloop : forall s : scanner_set,
            invoked s = invoked ss -> enabled_scanners s = enabled_scanners ss ->
            scanner_info_db s = scanner_info_db ss -> max_ngram s = max_ngram ss ->
            exists called rest,
              invoked (snd (let '(r, s') :=
                              dispatch fuel (scanner_info_db s) s sbuf
                                (bool_decide (sbuf_hash sbuf ∈ sbuf_seen_set ss))
                                (find_ngram_size sbuf (max_ngram s)) children in
                            match r with
                            | Ret c => if c =? 0 then (Ret tt, s') else (Abort, s')
                            | Throw e => (Throw e, s')
                            | Abort => (Abort, s')
                            | Undef => (Undef, s')
                            | NoFuel => (NoFuel, s')
                            end)) = (invoked ss ++ called)%list /\
              run = (called ++ rest)%list).
  { intros s Hinv Hen Hdb Hng.
    destruct (dispatch_calls_only_to_run fuel sbuf
                (bool_decide (sbuf_hash sbuf ∈ sbuf_seen_set ss))
                (find_ngram_size sbuf (max_ngram s)) (scanner_info_db s) s children)
      as (called & rest & Hi & Hr).
    exists called, rest. split.
    - destruct (dispatch fuel (scanner_info_db s) s sbuf _ _ children) as [[c| | | |] s'];
        cbn [snd] in Hi |- *; try (rewrite Hi, Hinv; reflexivity).
      destruct (c =? 0); cbn [snd]; rewrite Hi, Hinv; reflexivity.
    - rewrite <- Hr. subst run. rewrite Hdb, Hng. unfold to_run. f_equal.
      apply List.filter_ext. intros [k i]. cbn [fst snd].
      rewrite (skipped_same ss s) by exact Hen. reflexivity. }
  unfold process_sbuf.
  destruct (negb (phase_eqb (current_phase ss) PHASE_SCAN)); [apply Hnone; reflexivity|].
  destruct (Sbuf.depth sbuf >=? max_depth ss).
  { destruct (alert_write fuel (fs ss) (Sbuf.pos0 sbuf) _ _);
      try (apply Hnone; reflexivity).
    destruct (children =? 0); apply Hnone; reflexivity. }
  cbv zeta.
  destruct (bool_decide (sbuf_hash sbuf ∈ sbuf_seen_set ss)) eqn:Hseen.
  - destruct (dup_data_alerts _).
    + destruct (alert_write fuel _ _ _ _); try (apply Hnone; reflexivity).
      apply Hloop; reflexivity.
    + apply Hloop; reflexivity.
  - apply Hloop; reflexivity.
Qed.

Section Dispatch.
Hypothesis scanners_keep_alerts :
  forall k sbuf children f, alert_ok f -> alert_ok (snd (scanner_scan k sbuf children f)).

(** With an alert recorder that takes every alert, the dispatch loop
    comes to its end, whatever the scanners throw, and has called every
    scanner that is not skipped. *)
Lemma dispatch_ok (fuel : nat) (sbuf : Sbuf.sbuf_t) (seen_before : bool) (ngram_size : Z)
  (db : list (N * scanner_info)) :
  forall (ss : scanner_set) (children : Z),
    alert_ok (fs ss) ->
    exists children' ss',
      dispatch (S fuel) db ss sbuf seen_before ngram_size children = (Ret children', ss') /\
      alert_ok (fs ss') /\
      invoked ss' = (invoked ss ++ to_run ss sbuf seen_before ngram_size db)%list /\
      enabled_scanners ss' = enabled_scanners ss /\
      scanner_info_db ss' = scanner_info_db ss /\
      current_phase ss' = current_phase ss.
Proof.
  induction db as [|[k i] rest IH]; intros ss children Hok.
  { exists children, ss. unfold to_run. cbn [dispatch List.filter map].
    rewrite app_nil_r. split; [reflexivity|]. split; [exact Hok|]. repeat split. }
  cbn [dispatch]. unfold to_run. cbn [List.filter fst snd].
  destruct (skipped ss sbuf seen_before ngram_size k i) eqn:Hskip; cbn [negb].
  { apply IH. exact Hok. }
  pose proof (scanners_keep_alerts k sbuf children (fs ss) Hok) as Hok1.
  destruct (scanner_scan k sbuf children (fs ss)) as [[out children1] f1].
  cbn [snd] in Hok1.
  assert (Hh : exists f2,
    match out with
    | returned => Ret f1
    | threw e => handler_alert (S fuel) f1 sbuf (si_name i)
                   ("<exception>" +:+ exn_what e +:+ "</exception>")
    | threw_other => handler_alert (S fuel) f1 sbuf (si_name i)
                       "<unknown_exception></unknown_exception>"
    end = Ret f2 /\ alert_ok f2).
  { destruct out as [|e|].
    - eauto.
    - destruct (handler_alert_ok fuel f1 sbuf (si_name i)
                  ("<exception>" +:+ exn_what e +:+ "</exception>") Hok1)
        as (f2 & Hh & _ & Hk); eauto.
    - destruct (handler_alert_ok fuel f1 sbuf (si_name i)
                  "<unknown_exception></unknown_exception>" Hok1)
        as (f2 & Hh & _ & Hk); eauto. }
  destruct Hh as (f2 & Hh & Hok2). rewrite Hh.
  destruct (IH (set_fs (add_invoked (set_fs ss f1) k) f2) children1 Hok2)
    as (c' & ss' & Hd & Hok' & Hinv & Hen & Hdb & Hph).
  exists c', ss'. split; [exact Hd|]. split; [exact Hok'|].
  split.
  { rewrite Hinv. cbn [invoked set_fs add_invoked map].
    rewrite <- app_assoc. reflexivity. }
  auto.
Qed.

(** The state in which the dispatch loop starts. *)
Lemma before_dispatch (fuel : nat) (ss : scanner_set) (sbuf : Sbuf.sbuf_t) :
  alert_ok (fs ss) ->
  let seen_before := bool_decide (sbuf_hash sbuf ∈ sbuf_seen_set ss) in
  let ss1 := note_sbuf ss (Sbuf.depth sbuf) (sbuf_hash sbuf) in
  exists ss3,
    (if seen_before then
       if dup_data_alerts ss1 then
         match alert_write (S fuel) (fs ss1) (Sbuf.pos0 sbuf)
                 ("DUP SBUF " +:+ sha1_hexdigest (sbuf_bytes sbuf))
                 ("<buflen>" +:+ dec (Sbuf.bufsize sbuf) +:+ "</buflen>") with
         | Ret f => (Ret tt, add_dup_bytes (set_fs ss1 f) (Sbuf.bufsize sbuf))
         | Throw e => (Throw e, ss1)
         | Abort => (Abort, ss1)
         | Undef => (Undef, ss1)
         | NoFuel => (NoFuel, ss1)
         end
       else (Ret tt, add_dup_bytes ss1 (Sbuf.bufsize sbuf))
     else (Ret tt, ss1)) = (Ret tt, ss3) /\
    alert_ok (fs ss3) /\ invoked ss3 = invoked ss /\
    enabled_scanners ss3 = enabled_scanners ss /\
    scanner_info_db ss3 = scanner_info_db ss /\ max_ngram ss3 = max_ngram ss /\
    current_phase ss3 = current_phase ss.
Proof.
  intros Hok seen_before ss1.
  destruct seen_before;
    [|exists ss1; split; [reflexivity|]; split; [exact Hok|]; repeat split].
  destruct (dup_data_alerts ss1);
    [|eexists; split; [reflexivity|]; split; [exact Hok|]; repeat split].
  destruct (alert_write_ok fuel (fs ss1) (Sbuf.pos0 sbuf)
              ("DUP SBUF " +:+ sha1_hexdigest (sbuf_bytes sbuf))
              ("<buflen>" +:+ dec (Sbuf.bufsize sbuf) +:+ "</buflen>") Hok)
    as (f & Ha & _ & Hokf).
  rewrite Ha. eexists. split; [reflexivity|]. split; [exact Hokf|]. repeat split.
Qed.

Lemma in_to_run (ss : scanner_set) (sbuf : Sbuf.sbuf_t) (seen_before : bool)
  (ngram_size : Z) (db : list (N * scanner_info)) (k : N) :
  In k (to_run ss sbuf seen_before ngram_size db) <->
  exists i, In (k, i) db /\ should_run ss sbuf seen_before ngram_size k i.
Proof.
  unfold to_run. rewrite in_map_iff. split.
  - intros ([k' i] & Hk & Hin). cbn [fst] in Hk. subst k'.
    apply List.filter_In in Hin as [Hin Hs]. cbn [fst snd] in Hs.
    apply negb_true_iff in Hs. exists i. split; [exact Hin|].
    apply skipped_should_run. exact Hs.
  - intros (i & Hin & Hs). exists (k, i). split; [reflexivity|].
    apply List.filter_In. split; [exact Hin|]. cbn [fst snd].
    apply negb_true_iff. apply skipped_should_run. exact Hs.
Qed.

(** What [process_sbuf] does below the depth limit when the alert
    recorder takes every alert. *)
Lemma process_sbuf_below_max_depth (fuel : nat) (ss : scanner_set) (sbuf : Sbuf.sbuf_t)
  (children : Z) :
  current_phase ss = PHASE_SCAN ->
  ~ Sbuf.depth sbuf >= max_depth ss ->
  alert_ok (fs ss) ->
  (fst (process_sbuf (S fuel) ss sbuf children) = Ret tt \/
   fst (process_sbuf (S fuel) ss sbuf children) = Abort) /\
  invoked (snd (process_sbuf (S fuel) ss sbuf children)) =
    (invoked ss ++
     to_run ss sbuf (bool_decide (sbuf_hash sbuf ∈ sbuf_seen_set ss))
            (find_ngram_size sbuf (max_ngram ss)) (scanner_info_db ss))%list /\
  current_phase (snd (process_sbuf (S fuel) ss sbuf children)) = PHASE_SCAN.
Proof.
  intros Hph Hdepth Hok. unfold process_sbuf. rewrite Hph. cbn [phase_eqb negb].
  destruct (Z.geb_spec (Sbuf.depth sbuf) (max_depth ss)) as [Hge|_]; [lia|].
  destruct (before_dispatch fuel ss sbuf Hok) as (ss3 & Heq & Hok3 & Hinv & Hen & Hdb & Hng & Hp3).
  cbv zeta in Heq. rewrite Heq.
  destruct (dispatch_ok fuel sbuf (bool_decide (sbuf_hash sbuf ∈ sbuf_seen_set ss))
              (find_ngram_size sbuf (max_ngram ss3)) (scanner_info_db ss3) ss3 children Hok3)
    as (c' & ss' & Hd & _ & Hinv' & _ & _ & Hp').
  rewrite Hd.
  assert (Hrun : to_run ss3 sbuf (bool_decide (sbuf_hash sbuf ∈ sbuf_seen_set ss))
                   (find_ngram_size sbuf (max_ngram ss3)) (scanner_info_db ss3) =
                 to_run ss sbuf (bool_decide (sbuf_hash sbuf ∈ sbuf_seen_set ss))
                   (find_ngram_size sbuf (max_ngram ss)) (scanner_info_db ss)).
  { rewrite Hdb, Hng. unfold to_run. f_equal. apply List.filter_ext.
    intros [k i]. cbn [fst snd]. rewrite (skipped_same ss ss3) by exact Hen. reflexivity. }
  destruct (c' =? 0); cbn [fst snd].
  - split; [left; reflexivity|]. split; [congruence | congruence].
  - split; [right; reflexivity|]. split; [congruence | congruence].
Qed.

End Dispatch.

(** A handler of the dispatch loop whose alert recorder takes writes
    returns and leaves the alert recorder as [written] says. *)
Lemma handler_alert_takes (fuel : nat) (f : feature_recorder_set) (sbuf : Sbuf.sbuf_t)
  (name context : string) (ralert : feature_recorder) :
  takes_writes f ALERT_RECORDER_NAME ->
  frm f !! ALERT_RECORDER_NAME = Some ralert ->
  handler_alert (S fuel) f sbuf name context =
    Ret (set_frm f (<[ALERT_RECORDER_NAME :=
                        written f ralert (Sbuf.pos0 sbuf) ("scanner=" +:+ name) context]>
                      (frm f))) /\
  static_eq ralert (written f ralert (Sbuf.pos0 sbuf) ("scanner=" +:+ name) context).
Proof.
  intros Htakes Hr.
  destruct (write_takes fuel f ALERT_RECORDER_NAME ralert (Sbuf.pos0 sbuf)
              ("scanner=" +:+ name) context Htakes Hr) as (Hw & Hst & _).
  unfold handler_alert, alert_write, get_alert_recorder, named_feature_recorder.
  rewrite Hr. cbn [mbind res_bind]. rewrite Hw. auto.
Qed.



End WithScanners.
End SSFacts.

(** ** Facts about the phases and about apply_scanner_commands *)

Module EnableFacts.
Import FR SS Props FRFacts SSFacts.

Lemma with_histograms_nil (r : feature_recorder) : with_histograms r [] = r.
Proof. destruct r. unfold with_histograms. cbn. rewrite app_nil_r. reflexivity. Qed.

Lemma with_histograms_app (r : feature_recorder) (a b : list histogram_def) :
  with_histograms (with_histograms r a) b = with_histograms r (a ++ b).
Proof.
  unfold with_histograms. cbn. rewrite map_app, app_assoc. reflexivity.
Qed.

Lemma hists_for_app (n : string) (a b : list histogram_def) :
  hists_for n (a ++ b) = (hists_for n a ++ hists_for n b)%list.
Proof. apply List.filter_app. Qed.

Lemma def_for_app (n : string) (a b : list feature_recorder_def) :
  def_for n (a ++ b) = match def_for n a with Some d => Some d | None => def_for n b end.
Proof.
  unfold def_for. induction a as [|d a IH]; [reflexivity|].
  cbn. destruct (String.eqb (def_name d) n); [reflexivity | exact IH].
Qed.

Lemma def_for_some (n : string) (defs : list feature_recorder_def) (d : feature_recorder_def) :
  def_for n defs = Some d -> In n (map def_name defs) /\ def_name d = n.
Proof.
  intros Hf. apply List.find_some in Hf as [Hin Heq].
  apply String.eqb_eq in Heq. split; [|exact Heq].
  rewrite <- Heq. apply in_map. exact Hin.
Qed.

Lemma def_for_none (n : string) (defs : list feature_recorder_def) :
  def_for n defs = None <-> ~ In n (map def_name defs).
Proof.
  unfold def_for. induction defs as [|d defs IH]; cbn; [tauto|].
  destruct (String.eqb_spec (def_name d) n) as [Heq|Hne].
  - split; [discriminate | intros Hc; exfalso; apply Hc; left; exact Heq].
  - rewrite IH. tauto.
Qed.

Lemma hists_declared_mono (P Q : string -> Prop) (db : list (N * scanner_info)) :
  (forall n, P n -> Q n) -> hists_declared P db -> hists_declared Q db.
Proof.
  revert P Q. induction db as [|[k i] rest IH]; intros P Q HPQ; [trivial|].
  cbn [hists_declared]. intros [Hh Hrest]. split.
  - eapply Forall_impl; [exact Hh|]. cbn. intros h [Hp | Hin]; auto.
  - eapply IH; [|exact Hrest]. cbn. intros n [Hp | Hin]; auto.
Qed.

Section WithScanners.
Context `{!Externals} `{!Scanners}.

Lemma ready_flags (f : feature_recorder_set) :
  ready f ->
  record_files (set_flags f) && record_sql (set_flags f) = false /\
  negb (record_files (set_flags f)) && negb (record_sql (set_flags f)) = false.
Proof.
  intros [Hx _]. destruct (record_files (set_flags f)), (record_sql (set_flags f));
    cbn in *; auto; discriminate.
Qed.

Lemma create_feature_recorders_ok (defs : list feature_recorder_def) :
  forall f : feature_recorder_set,
    ready f ->
    NoDup (map def_name defs) ->
    Forall (fun n => frm f !! n = None) (map def_name defs) ->
    exists f',
      create_feature_recorders f defs = Ret f' /\ ready f' /\
      forall n, frm f' !! n =
                match def_for n defs with
                | Some d => Some (new_recorder d)
                | None => frm f !! n
                end.
Proof.
  induction defs as [|d defs IH]; intros f Hready Hnd Habs.
  { exists f. repeat split; try apply Hready. }
  cbn [map] in Hnd, Habs. apply NoDup_cons in Hnd as [Hnotin Hnd].
  apply Forall_cons in Habs as [Hd Habs].
  destruct (ready_flags f Hready) as [Hf1 Hf2].
  cbn [create_feature_recorders]. unfold create_feature_recorder at 1.
  rewrite Hf1, Hf2, Hd. cbn [mbind res_bind].
  set (f1 := set_frm f (<[def_name d := new_recorder d]> (frm f))).
  assert (Hready1 : ready f1).
  { destruct Hready as [Hx Hw]. split; [exact Hx|]. intros n r. cbn [f1 frm set_frm].
    destruct (decide (def_name d = n)) as [<-|Hne].
    - rewrite lookup_insert_eq. intros [= <-]. reflexivity.
    - rewrite lookup_insert_ne by done. apply Hw. }
  destruct (IH f1 Hready1 Hnd) as (f' & Hc & Hready' & Hl).
  { apply Forall_forall. intros n Hin. subst f1. cbn [frm set_frm].
    rewrite lookup_insert_ne.
    - rewrite Forall_forall in Habs. apply Habs. exact Hin.
    - intros Heq. apply Hnotin. rewrite Heq. exact Hin. }
  exists f'. split; [exact Hc|]. split; [exact Hready'|].
  intros n. rewrite Hl. unfold def_for. cbn [List.find].
  fold (def_for n defs).
  destruct (String.eqb_spec (def_name d) n) as [Heq|Hne].
  - destruct (def_for n defs) as [d'|] eqn:Hd'.
    + apply def_for_some in Hd' as [Hin _]. exfalso. apply Hnotin.
      apply list_elem_of_In. rewrite Heq. exact Hin.
    + subst f1. cbn [frm set_frm]. rewrite <- Heq. apply lookup_insert_eq.
  - destruct (def_for n defs); [reflexivity|].
    subst f1. cbn [frm set_frm]. apply lookup_insert_ne. exact Hne.
Qed.

Lemma add_histograms_ok (hs : list histogram_def) :
  forall f : feature_recorder_set,
    ready f ->
    Forall (fun h => is_Some (frm f !! feature h)) hs ->
    exists f',
      add_histograms f hs = Ret f' /\ ready f' /\
      forall n, frm f' !! n = (fun r => with_histograms r (hists_for n hs)) <$> frm f !! n.
Proof.
  induction hs as [|h hs IH]; intros f Hready Hin.
  { exists f. split; [reflexivity|]. split; [exact Hready|].
    intros n. cbn [hists_for List.filter]. destruct (frm f !! n) as [r|]; cbn; [|reflexivity].
    rewrite with_histograms_nil. reflexivity. }
  apply Forall_cons in Hin as [[r Hr] Hin].
  cbn [add_histograms]. unfold set_histogram_add at 1, named_feature_recorder.
  rewrite Hr. cbn [mbind res_bind]. unfold histogram_add.
  destruct Hready as [Hx Hw].
  assert (Hz : (features_written r =? 0) = true) by (rewrite (Hw _ _ Hr); reflexivity).
  rewrite Hz. cbn [negb mbind res_bind].
  set (r1 := {| name := name r; def := def r; features_written := features_written r;
                carved_file_count := carved_file_count r; carve_mode := carve_mode r;
                do_not_carve_encoding := do_not_carve_encoding r;
                carve_cache := carve_cache r;
                histograms := (histograms r ++ [ {| hdef := h; added := [] |} ])%list;
                context_window := context_window r; write0_log := write0_log r |}).
  set (f1 := set_frm f (<[feature h := r1]> (frm f))).
  assert (Hready1 : ready f1).
  { split; [exact Hx|]. intros n r'. cbn [f1 frm set_frm].
    destruct (decide (feature h = n)) as [<-|Hne].
    - rewrite lookup_insert_eq. intros [= <-]. cbn. apply (Hw _ _ Hr).
    - rewrite lookup_insert_ne by done. apply Hw. }
  destruct (IH f1 Hready1) as (f' & Hc & Hready' & Hl).
  { apply Forall_forall. intros h' Hh'. rewrite Forall_forall in Hin.
    cbn [f1 frm set_frm].
    destruct (decide (feature h = feature h')) as [<-|Hne].
    - rewrite lookup_insert_eq. eauto.
    - rewrite lookup_insert_ne by done. apply Hin. exact Hh'. }
  exists f'. split; [exact Hc|]. split; [exact Hready'|].
  intros n. rewrite Hl. cbn [f1 frm set_frm]. unfold hists_for. cbn [List.filter].
  fold (hists_for n hs).
  destruct (String.eqb_spec (feature h) n) as [Heq|Hne].
  - subst n. rewrite lookup_insert_eq, Hr. cbn. f_equal.
    unfold with_histograms, r1. cbn. rewrite <- app_assoc. reflexivity.
  - rewrite lookup_insert_ne by done. reflexivity.
Qed.

Lemma hists_for_absent (n : string) (hs : list histogram_def) (P : string -> Prop) :
  Forall (fun h => P (feature h)) hs -> ~ P n -> hists_for n hs = [].
Proof.
  intros Hall Hn. induction hs as [|h hs IH]; [reflexivity|].
  apply Forall_cons in Hall as [Hh Hall]. unfold hists_for. cbn [List.filter].
  destruct (String.eqb_spec (feature h) n) as [Heq|Hne]; [subst n; contradiction|].
  apply IH. exact Hall.
Qed.

Lemma create_requested_ok (db : list (N * scanner_info)) :
  forall (f : feature_recorder_set) (present : string -> Prop),
    ready f ->
    NoDup (map def_name (declared_defs db)) ->
    Forall (fun n => frm f !! n = None) (map def_name (declared_defs db)) ->
    (forall n, present n -> is_Some (frm f !! n)) ->
    hists_declared present db ->
    exists f',
      create_requested f db = Ret f' /\ ready f' /\
      forall n, frm f' !! n =
                (fun r => with_histograms r (hists_for n (declared_hists db))) <$>
                match def_for n (declared_defs db) with
                | Some d => Some (new_recorder d)
                | None => frm f !! n
                end.
Proof.
  induction db as [|[k i] rest IH]; intros f present Hready Hnd Habs Hpres Hh.
  { exists f. split; [reflexivity|]. split; [exact Hready|].
    intros n. cbn. destruct (frm f !! n); cbn; [|reflexivity].
    rewrite with_histograms_nil. reflexivity. }
  change (declared_defs ((k, i) :: rest)) with (feature_defs i ++ declared_defs rest)%list in *.
  change (declared_hists ((k, i) :: rest))
    with (histogram_defs i ++ declared_hists rest)%list.
  rewrite map_app in Hnd, Habs.
  apply NoDup_app in Hnd as (Hnd1 & Hdisj & Hnd2).
  apply Forall_app in Habs as [Habs1 Habs2].
  cbn [hists_declared] in Hh. destruct Hh as [Hhi Hhrest].
  destruct (create_feature_recorders_ok (feature_defs i) f Hready Hnd1 Habs1)
    as (f1 & Hc1 & Hready1 & Hl1).
  assert (Hhi1 : Forall (fun h => is_Some (frm f1 !! feature h)) (histogram_defs i)).
  { eapply Forall_impl; [exact Hhi|]. cbn. intros h Hcase. rewrite Hl1.
    destruct (def_for (feature h) (feature_defs i)) as [d|] eqn:Hd; [eauto|].
    destruct Hcase as [Hp | Hin]; [apply Hpres; exact Hp|].
    apply def_for_none in Hd. contradiction. }
  destruct (add_histograms_ok (histogram_defs i) f1 Hready1 Hhi1)
    as (f2 & Hc2 & Hready2 & Hl2).
  destruct (IH f2 (fun n => present n \/ In n (map def_name (feature_defs i)))
              Hready2 Hnd2) as (f' & Hc & Hready' & Hl).
  { apply Forall_forall. intros n Hin. rewrite Hl2, Hl1.
    assert (Hnone : def_for n (feature_defs i) = None).
    { apply def_for_none. intros Hin1. apply (Hdisj n); [|exact Hin].
      apply list_elem_of_In. exact Hin1. }
    rewrite Hnone. rewrite Forall_forall in Habs2. rewrite (Habs2 n Hin). reflexivity. }
  { intros n Hcase. rewrite Hl2, Hl1. apply fmap_is_Some.
    destruct (def_for n (feature_defs i)) as [d|] eqn:Hd; [eauto|].
    destruct Hcase as [Hp | Hin]; [apply Hpres; exact Hp|].
    apply def_for_none in Hd. contradiction. }
  { exact Hhrest. }
  exists f'. split.
  { cbn [create_requested]. rewrite Hc1. cbn [mbind res_bind]. rewrite Hc2.
    cbn [mbind res_bind]. exact Hc. }
  split; [exact Hready'|].
  intros n. rewrite Hl, def_for_app, hists_for_app.
  destruct (def_for n (feature_defs i)) as [d|] eqn:Hd.
  - assert (Hnone : def_for n (declared_defs rest) = None).
    { apply def_for_none. intros Hin. apply def_for_some in Hd as [Hin1 _].
      apply (Hdisj n); apply list_elem_of_In; assumption. }
    rewrite Hnone, Hl2, Hl1, Hd. cbn. rewrite with_histograms_app. reflexivity.
  - destruct (def_for n (declared_defs rest)) as [d|] eqn:Hd2.
    + cbn. f_equal. f_equal.
      assert (Hnil : hists_for n (histogram_defs i) = []).
      { apply (hists_for_absent n _ (fun m => is_Some (frm f1 !! m)) Hhi1).
        rewrite Hl1, Hd. apply def_for_some in Hd2 as [Hin _].
        rewrite Forall_forall in Habs2.
        rewrite (Habs2 n) by (apply list_elem_of_In; exact Hin).
        intros [x Hx]. discriminate Hx. }
      rewrite Hnil. reflexivity.
    + rewrite Hl2, Hl1, Hd. destruct (frm f !! n); cbn; [|reflexivity].
      rewrite with_histograms_app. reflexivity.
Qed.

(** C8 (amended). From a set whose recorder map is empty, once the
    queued commands are resolved, [apply_scanner_commands] creates the
    alert recorder (unless [no_alert] is set) and then the feature
    recorders and histograms declared by the info records of all the
    registered scanners, enabled or not, and nothing else, provided that
    no recorder name is declared twice and that every histogram is
    declared for a recorder that exists when it is added. *)
Theorem C8_recorders_of_all_registered_scanners (ss : scanner_set) (en : list N) :
  current_phase ss = PHASE_INIT ->
  apply_commands (scanner_info_db ss) (scanner_commands ss) (enabled_scanners ss) = Ret en ->
  frm (fs ss) = ∅ ->
  xorb (record_files (set_flags (fs ss))) (record_sql (set_flags (fs ss))) = true ->
  NoDup (map def_name
           ((if no_alert (set_flags (fs ss)) then [] else [default_def ALERT_RECORDER_NAME])
            ++ declared_defs (scanner_info_db ss))) ->
  hists_declared
    (fun n => no_alert (set_flags (fs ss)) = false /\ n = ALERT_RECORDER_NAME)
    (scanner_info_db ss) ->
  exists ss',
    apply_scanner_commands ss = Ret ss' /\
    current_phase ss' = PHASE_ENABLED /\
    enabled_scanners ss' = en /\
    scanner_info_db ss' = scanner_info_db ss /\
    forall n,
      frm (fs ss') !! n =
      (fun d => with_histograms (new_recorder d)
                  (hists_for n (declared_hists (scanner_info_db ss)))) <$>
      def_for n
        ((if no_alert (set_flags (fs ss)) then [] else [default_def ALERT_RECORDER_NAME])
         ++ declared_defs (scanner_info_db ss)).
Proof.
  intros Hph Hcmd Hempty Hx Hnd Hh.
  unfold apply_scanner_commands. rewrite Hph, Hcmd. cbn [phase_eqb negb mbind res_bind].
  assert (Hready : ready (fs ss)).
  { split; [exact Hx|]. intros n r. rewrite Hempty, lookup_empty. discriminate. }
  destruct (ready_flags (fs ss) Hready) as [Hf1 Hf2].
  unfold create_alert_recorder, create_feature_recorder.
  destruct (no_alert (set_flags (fs ss))) eqn:Hna; cbn [negb app] in *.
  - (* no alert recorder *)
    destruct (create_requested_ok (scanner_info_db ss) (fs ss)
                (fun n => true = false /\ n = ALERT_RECORDER_NAME) Hready Hnd)
      as (f' & Hc & _ & Hl).
    { apply Forall_forall. intros n _. rewrite Hempty. apply lookup_empty. }
    { intros n [Hcontra _]. discriminate Hcontra. }
    { exact Hh. }
    cbn [negb mbind res_bind]. rewrite Hc. cbn [mbind res_bind]. eexists. split; [reflexivity|].
    repeat split. intros n. cbn [fs set_fs set_phase set_db]. rewrite Hl.
    rewrite Hempty, lookup_empty.
    destruct (def_for n (declared_defs (scanner_info_db ss))); reflexivity.
  - (* the alert recorder is created first *)
    rewrite Hf1, Hf2. cbn [def_name default_def].
    rewrite Hempty, lookup_empty. cbn [mbind res_bind].
    cbn [map def_name default_def] in Hnd. apply NoDup_cons in Hnd as [Hnotin Hnd].
    set (f1 := set_frm (fs ss)
                 (<[ALERT_RECORDER_NAME := new_recorder (default_def ALERT_RECORDER_NAME)]> ∅)).
    assert (Hready1 : ready f1).
    { split; [exact Hx|]. intros n r. subst f1. cbn [frm set_frm].
      destruct (decide (ALERT_RECORDER_NAME = n)) as [<-|Hne].
      - rewrite lookup_insert_eq. intros [= <-]. reflexivity.
      - rewrite lookup_insert_ne, lookup_empty by done. discriminate. }
    destruct (create_requested_ok (scanner_info_db ss) f1
                (fun n => false = false /\ n = ALERT_RECORDER_NAME) Hready1 Hnd)
      as (f' & Hc & _ & Hl).
    { apply Forall_forall. intros n Hin. subst f1. cbn [frm set_frm].
      rewrite lookup_insert_ne, lookup_empty; [reflexivity|].
      intros Heq. apply Hnotin. rewrite Heq. exact Hin. }
    { intros n [_ ->]. subst f1. cbn [frm set_frm]. rewrite lookup_insert_eq. eauto. }
    { exact Hh. }
    rewrite Hc. cbn [mbind res_bind]. eexists. split; [reflexivity|].
    repeat split. intros n. cbn [fs set_fs set_phase set_db]. rewrite Hl.
    change (default_def ALERT_RECORDER_NAME :: declared_defs (scanner_info_db ss))
      with ([default_def ALERT_RECORDER_NAME] ++ declared_defs (scanner_info_db ss))%list.
    rewrite def_for_app. unfold def_for at 2. cbn [List.find def_name default_def].
    destruct (String.eqb_spec ALERT_RECORDER_NAME n) as [Heq|Hne].
    + assert (Hnone : def_for n (declared_defs (scanner_info_db ss)) = None).
      { apply def_for_none. intros Hin. apply Hnotin. rewrite Heq.
        apply list_elem_of_In. exact Hin. }
      rewrite Hnone. subst f1 n. cbn [frm set_frm]. rewrite lookup_insert_eq. reflexivity.
    + destruct (def_for n (declared_defs (scanner_info_db ss))); [reflexivity|].
      subst f1. cbn [frm set_frm]. rewrite lookup_insert_ne, lookup_empty by done.
      reflexivity.
Qed.

(** *** The phases *)

Lemma dispatch_phase (fuel : nat) (sbuf : Sbuf.sbuf_t) (seen_before : bool)
  (ngram_size : Z) (db : list (N * scanner_info)) :
  forall (ss : scanner_set) (children : Z),
    current_phase (snd (dispatch fuel db ss sbuf seen_before ngram_size children))
    = current_phase ss.
Proof.
  induction db as [|[k i] rest IH]; intros ss children; [reflexivity|].
  cbn [dispatch]. destruct (skipped ss sbuf seen_before ngram_size k i); [apply IH|].
  destruct (scanner_scan k sbuf children (fs ss)) as [[out c1] f1].
  destruct out as [|e|]; [rewrite IH; reflexivity| |].
  - destruct (handler_alert fuel f1 sbuf (si_name i) _); try reflexivity.
    rewrite IH. reflexivity.
  - destruct (handler_alert fuel f1 sbuf (si_name i) _); try reflexivity.
    rewrite IH. reflexivity.
Qed.

(** [process_sbuf] and [shutdown] refuse to run outside of [PHASE_SCAN],
    [apply_scanner_commands] outside of [PHASE_INIT] and [phase_scan]
    outside of [PHASE_ENABLED]. *)
Lemma wrong_phase_rejected (fuel : nat) (ss : scanner_set) (sbuf : Sbuf.sbuf_t)
  (children : Z) :
  (current_phase ss <> PHASE_SCAN ->
   process_sbuf fuel ss sbuf children =
     (Throw (runtime_error "process_sbuf can only be run in scanner_params::PHASE_SCAN"), ss) /\
   shutdown ss =
     Throw (runtime_error "shutdown can only be called in scanner_params::PHASE_SCAN")) /\
  (current_phase ss <> PHASE_INIT ->
   apply_scanner_commands ss =
     Throw (runtime_error
              "apply_scanner_commands can only be run in scanner_params::PHASE_INIT")) /\
  (current_phase ss <> PHASE_ENABLED ->
   phase_scan ss =
     Throw (runtime_error "start_scan can only be run in scanner_params::PHASE_ENABLED")).
Proof.
  unfold process_sbuf, shutdown, apply_scanner_commands, phase_scan.
  destruct (current_phase ss); repeat split; intros; first [reflexivity | congruence].
Qed.

(** No operation moves the phase backwards. *)
Lemma phase_monotone (fuel : nat) (ss ss' : scanner_set) (sbuf : Sbuf.sbuf_t)
  (children : Z) (k : N) :
  (add_scanner ss k = Ret ss' -> current_phase ss' = current_phase ss) /\
  (apply_scanner_commands ss = Ret ss' ->
     current_phase ss = PHASE_INIT /\ current_phase ss' = PHASE_ENABLED) /\
  (phase_scan ss = Ret ss' ->
     current_phase ss = PHASE_ENABLED /\ current_phase ss' = PHASE_SCAN) /\
  (shutdown ss = Ret ss' ->
     current_phase ss = PHASE_SCAN /\ current_phase ss' = PHASE_SHUTDOWN) /\
  current_phase (snd (process_sbuf fuel ss sbuf children)) = current_phase ss.
Proof.
  split; [|split; [|split; [|split]]].
  - unfold add_scanner. destruct (db_find k (scanner_info_db ss)); [discriminate|].
    destruct (scanner_init k) as [info|]; [|discriminate].
    destruct (db_find k (db_insert k info (scanner_info_db ss))) as [i|]; [|discriminate].
    destruct (default_enabled (scanner_flags i)); intros [= <-]; reflexivity.
  - unfold apply_scanner_commands. destruct (current_phase ss) eqn:Hph; try discriminate.
    cbn [phase_eqb negb].
    destruct (apply_commands _ _ _); try discriminate. cbn [mbind res_bind].
    destruct (create_alert_recorder _); try discriminate. cbn [mbind res_bind].
    destruct (create_requested _ _); try discriminate. cbn [mbind res_bind].
    intros [= <-]. split; reflexivity.
  - unfold phase_scan. destruct (current_phase ss) eqn:Hph; try discriminate.
    intros [= <-]. split; reflexivity.
  - unfold shutdown. destruct (current_phase ss) eqn:Hph; try discriminate.
    intros [= <-]. split; reflexivity.
  - unfold process_sbuf. destruct (phase_eqb (current_phase ss) PHASE_SCAN); [|reflexivity].
    cbn [negb].
    destruct (Sbuf.depth sbuf >=? max_depth ss).
    + destruct (alert_write fuel (fs ss) _ _ _); try reflexivity.
      destruct (children =? 0); reflexivity.
    + destruct (bool_decide (sbuf_hash sbuf ∈ sbuf_seen_set ss)).
      * destruct (dup_data_alerts _).
        -- destruct (alert_write fuel _ _ _ _); try reflexivity.
           match goal with
           | |- context [dispatch ?f ?db ?s ?b ?sn ?ng ?c] =>
               pose proof (dispatch_phase f b sn ng db s c) as Hd;
               destruct (dispatch f db s b sn ng c) as [[c'| | | |] s']
           end; cbn [snd] in *; try (rewrite Hd; reflexivity).
           destruct (c' =? 0); cbn [snd]; rewrite Hd; reflexivity.
        -- match goal with
           | |- context [dispatch ?f ?db ?s ?b ?sn ?ng ?c] =>
               pose proof (dispatch_phase f b sn ng db s c) as Hd;
               destruct (dispatch f db s b sn ng c) as [[c'| | | |] s']
           end; cbn [snd] in *; try (rewrite Hd; reflexivity).
           destruct (c' =? 0); cbn [snd]; rewrite Hd; reflexivity.
      * match goal with
        | |- context [dispatch ?f ?db ?s ?b ?sn ?ng ?c] =>
            pose proof (dispatch_phase f b sn ng db s c) as Hd;
            destruct (dispatch f db s b sn ng c) as [[c'| | | |] s']
        end; cbn [snd] in *; try (rewrite Hd; reflexivity).
        destruct (c' =? 0); cbn [snd]; rewrite Hd; reflexivity.
Qed.

(** [add_scanner] never looks at the phase. *)
Lemma add_scanner_any_phase (ss : scanner_set) (k : N) (p : phase_t) :
  add_scanner (set_phase ss p) k =
  match add_scanner ss k with
  | Ret s => Ret (set_phase s p)
  | Throw e => Throw e
  | Abort => Abort
  | Undef => Undef
  | NoFuel => NoFuel
  end.
Proof.
  unfold add_scanner. cbn [scanner_info_db set_phase enabled_scanners].
  destruct (db_find k (scanner_info_db ss)); [reflexivity|].
  destruct (scanner_init k) as [info|]; [|reflexivity].
  destruct (db_find k (db_insert k info (scanner_info_db ss))) as [i|]; [|reflexivity].
  destruct (default_enabled (scanner_flags i)); reflexivity.
Qed.

End WithScanners.
End EnableFacts.

(** ** The claims on concrete inputs *)

Module Examples.
Import FR SS Props FRFacts SSFacts EnableFacts CarveFacts Fixtures Fixtures2.

#[local] Existing Instance externals0.
#[local] Existing Instance scanners0.

(** *** Stop list *)

Lemma C7_counterexample :
  no_stoplist (flags (def rec_url)) = false /\
  (exists check_feature_context,
     stop_list fs0 = Some check_feature_context /\
     check_feature_context (make_utf8 "spam") "ctx" = true) /\
  exists fs',
    write 2 fs0 "url" pos0_zero "spam" "ctx" = Ret fs' /\
    (features_written <$> frm fs0 !! "url") = Some 0 /\
    (features_written <$> frm fs' !! "url") = Some 0 /\
    (features_written <$> frm fs' !! "url") <> Some (0 + 1).
Proof.
  split; [reflexivity|]. split; [eexists; split; reflexivity|].
  eexists. split; [vm_compute; reflexivity|].
  split; [reflexivity|]. split; [reflexivity|].
  intros Hcontra. vm_compute in Hcontra. discriminate Hcontra.
Qed.

Lemma C7_witness :
  exists fs' srec',
    write 2 fs0 "url" pos0_zero "spam" "ctx" = Ret fs' /\
    frm fs' !! "url" = Some rec_url /\
    frm fs' !! "url_stopped" = Some srec' /\
    write0_log srec' = (write0_log rec_stopped ++ [(pos0_zero, "spam", "ctx")])%list /\
    features_written srec' = uint64_t (features_written rec_stopped + 1) /\
    forall r', frm fs' !! "url" = Some r' ->
      features_written r' = features_written rec_url /\
      write0_log r' = write0_log rec_url /\ histograms r' = histograms rec_url.
Proof.
  apply (C7_stop_list_leaves_primary_untouched 0 fs0 "url" "url_stopped"
           rec_url rec_stopped (fun feature_utf8 _ => String.eqb feature_utf8 "spam")
           pos0_zero "spam" "ctx" "spam" "ctx" "spam" "spam" "ctx" "spam").
  - reflexivity.
  - reflexivity.
  - reflexivity.
  - reflexivity.
  - reflexivity.
  - vm_compute. reflexivity.
  - reflexivity.
  - intros Hcontra. discriminate Hcontra.
  - reflexivity.
  - reflexivity.
  - vm_compute. reflexivity.
Defined.

(** *** write_buf *)

(** C10. Positions at or behind the end of the buffer raise the runtime
    error and positions in the margin are dropped, as the claim says; but
    the test [pos + len > bufsize] that brings the length in is computed
    in [size_t]: for the position 5 in the page of an 8-byte buffer and
    the length [SIZE_MAX] the sum wraps around to 4, the length is not
    brought in to [bufsize - pos = 3], and [substr] is called with the
    length [SIZE_MAX]. *)
Theorem C10_write_buf_length_not_clamped_on_wrap :
  5 < Sbuf.pagesize text_buf /\
  5 + Sbuf.SIZE_MAX > Sbuf.bufsize text_buf /\
  write_buf_len text_buf 5 Sbuf.SIZE_MAX = Sbuf.SIZE_MAX /\
  write_buf_len text_buf 5 Sbuf.SIZE_MAX <> Sbuf.bufsize text_buf - 5 /\
  write_buf 2 fs0 "url" text_buf 5 Sbuf.SIZE_MAX =
    (feature ← sbuf_substr text_buf 5 Sbuf.SIZE_MAX;
     context ← write_buf_context rec_url text_buf 5 Sbuf.SIZE_MAX;
     write 2 fs0 "url" (pos0_add (Sbuf.pos0 text_buf) 5) feature context) /\
  (exists fs', write_buf 2 fs0 "url" text_buf 5 3 = Ret fs') /\
  write_buf 2 fs0 "url" text_buf 5 Sbuf.SIZE_MAX = Throw range_exception_t.
Proof.
  split; [reflexivity|]. split; [reflexivity|]. split; [reflexivity|].
  split; [intros Hcontra; vm_compute in Hcontra; discriminate Hcontra|].
  split; [reflexivity|]. split; [eexists; vm_compute; reflexivity|].
  vm_compute. reflexivity.
Qed.

Example write_buf_examples :
  (exists e, write_buf 2 fs0 "url" text_buf 8 1 = Throw (runtime_error e)) /\
  write_buf 2 fs0 "url" text_buf 6 1 = Ret fs0 /\
  write_buf_len text_buf 5 10 = 3.
Proof.
  split; [eexists; vm_compute; reflexivity|]. split; reflexivity.
Qed.

(** *** Carving *)

Lemma takes_writes_fs_plain : takes_writes fs_plain "url".
Proof.
  split; [reflexivity|]. split; [reflexivity|].
  exists rec_url. split; [reflexivity | left; reflexivity].
Qed.



(** *** The scanner set *)

(** C5. [PHASE_INIT] is the phase for adding scanners, and
    [apply_scanner_commands], [phase_scan], [process_sbuf] and [shutdown]
    all test the phase; [add_scanner] does not: in [PHASE_SCAN] a new
    scanner is registered and enabled without any error. *)
Theorem C5_add_scanner_accepted_in_scan_phase :
  current_phase ss_scan = PHASE_SCAN /\
  db_find 4 (scanner_info_db ss_scan) = None /\
  exists ss',
    add_scanner ss_scan 4 = Ret ss' /\
    current_phase ss' = PHASE_SCAN /\
    db_find 4 (scanner_info_db ss') = Some info_off /\
    (forall e, add_scanner ss_scan 4 <> Throw e).
Proof.
  split; [reflexivity|]. split; [reflexivity|].
  eexists. split; [vm_compute; reflexivity|].
  split; [reflexivity|]. split; [reflexivity|].
  intros e Hcontra. vm_compute in Hcontra. discriminate Hcontra.
Qed.

Lemma scanners0_keep_alerts :
  forall k sbuf children f, alert_ok f -> alert_ok (snd (scanner_scan k sbuf children f)).
Proof. intros k sbuf children f Hok. exact Hok. Qed.

Lemma alert_ok_fs0 : alert_ok fs0.
Proof.
  split; [reflexivity|]. exists rec_alerts. split; [reflexivity|]. right. reflexivity.
Qed.

Lemma takes_writes_fs0 : takes_writes fs0 ALERT_RECORDER_NAME.
Proof.
  split; [reflexivity|]. split; [reflexivity|].
  exists rec_alerts. split; [reflexivity | right; reflexivity].
Qed.





(** *** apply_scanner_commands *)

Lemma C8_counterexample :
  exists ss',
    apply_scanner_commands ss_two = Ret ss' /\
    enabled_scanners ss' = [1%N] /\
    db_find 4 (scanner_info_db ss') = Some info_off /\
    set_mem 4 (enabled_scanners ss') = false /\
    (forall k i, In (k, i) (scanner_info_db ss') ->
       set_mem k (enabled_scanners ss') = true ->
       ~ In "zip" (map def_name (feature_defs i))) /\
    is_Some (frm (fs ss') !! "zip").
Proof.
  eexists. split; [vm_compute; reflexivity|].
  split; [reflexivity|]. split; [reflexivity|]. split; [reflexivity|].
  split.
  - intros k i [Hin | [Hin | []]] Hen; inversion Hin; subst.
    + cbn. intros [Hcontra | []]. discriminate Hcontra.
    + vm_compute in Hen. discriminate Hen.
  - vm_compute. eauto.
Qed.

(** Two scanners that declare the same recorder: the second declaration
    raises [FeatureRecorderAlreadyExists]. *)
Example duplicate_declaration_throws :
  apply_scanner_commands (set_db ss_init [(1%N, info_good1); (6%N, info_good1)] [1%N]) =
  Throw (FeatureRecorderAlreadyExists "feature recorder already exists: url").
Proof. vm_compute. reflexivity. Qed.

Lemma C8_witness :
  exists ss',
    apply_scanner_commands ss_two = Ret ss' /\
    current_phase ss' = PHASE_ENABLED /\
    enabled_scanners ss' = [1%N] /\
    scanner_info_db ss' = scanner_info_db ss_two /\
    forall n,
      frm (fs ss') !! n =
      (fun d => with_histograms (new_recorder d)
                  (hists_for n (declared_hists (scanner_info_db ss_two)))) <$>
      def_for n
        ((if no_alert (set_flags (fs ss_two)) then [] else [default_def ALERT_RECORDER_NAME])
         ++ declared_defs (scanner_info_db ss_two)).
Proof.
  apply (C8_recorders_of_all_registered_scanners ss_two [1%N]).
  - reflexivity.
  - reflexivity.
  - reflexivity.
  - reflexivity.
  - apply (bool_decide_unpack _). vm_compute. exact I.
  - split; [constructor; [right; left; reflexivity | constructor]|].
    split; [constructor | exact I].
Defined.

End Examples.

(** ** Facts about comparing, searching and reading lines *)

Module SbufOpsFacts.
Import Sbuf SbufOps SbufFacts.

Lemma byte_val_inj (x y : byte) : byte_val x = byte_val y -> x = y.
Proof.
  unfold byte_val. intros Heq. apply N2Z.inj in Heq.
  pose proof (Byte.of_to_N x) as Hx. rewrite Heq, Byte.of_to_N in Hx.
  congruence.
Qed.

Lemma wrap_small (z : Z) : 0 <= z < 2 ^ 64 -> size_t_wrap z = z.
Proof. intros Hz. unfold size_t_wrap. apply Z.mod_small. exact Hz. Qed.

(** A read inside the storage gives the byte there. *)
Lemma rd_in_storage (s : sbuf_t) (i : Z) :
  0 <= i < Z.of_nat (length (buf s)) -> i < 2 ^ 64 ->
  exists b, nth_error (buf s) (Z.to_nat i) = Some b /\
            rd s i = Ret (byte_val b) /\ byte_at s i = Some (byte_val b).
Proof.
  intros Hi Hmax. unfold rd, byte_at. rewrite wrap_small by lia.
  rewrite buf_at_nth_error by lia.
  destruct (nth_error (buf s) (Z.to_nat i)) as [b|] eqn:Hb.
  - exists b. repeat split.
  - apply nth_error_None in Hb. lia.
Qed.

Lemma rd_in_buffer (s : sbuf_t) (i : Z) :
  wf s -> 0 <= i < bufsize s ->
  exists b, nth_error (buf s) (Z.to_nat i) = Some b /\
            rd s i = Ret (byte_val b) /\ byte_at s i = Some (byte_val b).
Proof. intros (Hp & Hl & Hm) Hi. apply rd_in_storage; lia. Qed.

Lemma index_in_buffer (s : sbuf_t) (i : Z) :
  wf s -> 0 <= i < bufsize s ->
  exists v, Sbuf.index s i = Ret v /\ byte_at s i = Some v.
Proof.
  intros Hwf Hi. destruct (rd_in_buffer s i Hwf Hi) as (b & _ & Hr & Hb).
  exists (byte_val b). unfold Sbuf.index.
  destruct (Z.ltb_spec i (bufsize s)); [|lia]. auto.
Qed.

(** X1. [operator[]] never fails and never leaves the buffer: for every
    index of type [size_t] it gives the byte at that index when the
    index is below [bufsize], and 0 otherwise. *)
Theorem index_total_and_safe (s : sbuf_t) (i : Z) :
  wf s -> 0 <= i < 2 ^ 64 ->
  (i < bufsize s ->
     exists b, nth_error (buf s) (Z.to_nat i) = Some b /\
               Sbuf.index s i = Ret (byte_val b)) /\
  (bufsize s <= i -> Sbuf.index s i = Ret 0).
Proof.
  intros Hwf Hi. split.
  - intros Hlt. destruct (rd_in_buffer s i Hwf) as (b & Hn & Hr & _); [lia|].
    exists b. split; [exact Hn|]. unfold Sbuf.index.
    destruct (Z.ltb_spec i (bufsize s)); [exact Hr | lia].
  - intros Hge. unfold Sbuf.index.
    destruct (Z.ltb_spec i (bufsize s)); [lia | reflexivity].
Qed.

(** *** memcmp *)

Lemma memcmp_bytes_spec (n : nat) :
  forall a b : list byte,
    (n <= length a)%nat -> (n <= length b)%nat ->
    exists c, memcmp_bytes a b n = Ret c /\ (c = Eq <-> firstn n a = firstn n b).
Proof.
  induction n as [|n IH]; intros a b Ha Hb.
  { exists Eq. split; [reflexivity|]. split; reflexivity. }
  destruct a as [|x a]; [simpl in Ha; lia|].
  destruct b as [|y b]; [simpl in Hb; lia|].
  simpl in Ha, Hb.
  destruct (IH a b) as (r & Hr & Hiff); [lia | lia |].
  cbn [memcmp_bytes]. rewrite Hr. cbn [mbind res_bind].
  eexists. split; [reflexivity|].
  cbn [firstn].
  destruct (Z.compare_spec (byte_val x) (byte_val y)) as [Heq | Hlt | Hgt].
  - apply byte_val_inj in Heq. subst y. rewrite Hiff.
    split; [intros ->; reflexivity | intros [= ->]; reflexivity].
  - split; [discriminate | intros [= -> _]; lia].
  - split; [discriminate | intros [= -> _]; lia].
Qed.

(** X2. [memcmp] tests its bounds without wrap-around: a comparison of
    [len > 0] bytes at [at] throws the range exception whenever
    [at + len] exceeds [bufsize], for every [at] and [len] of type
    [size_t]; otherwise it compares inside the buffer, and its result
    is zero exactly when the [len] bytes at [at] are those of [cbuf]. *)
Theorem memcmp_checks_without_wrap (s : sbuf_t) (cbuf : list byte) (at_ len : Z) :
  wf s -> 0 <= at_ < 2 ^ 64 -> 0 <= len < 2 ^ 64 ->
  (0 < len -> at_ + len > bufsize s -> memcmp s cbuf at_ len = Throw range_exception_t) /\
  (at_ + len <= bufsize s -> len <= Z.of_nat (length cbuf) ->
     exists c, memcmp s cbuf at_ len = Ret c /\
               (c = Eq <-> slice s at_ (Z.to_nat len) = firstn (Z.to_nat len) cbuf)).
Proof.
  intros (Hp & Hl & Hm) Hat Hlen. unfold memcmp, left. split.
  - intros Hpos Hgt.
    destruct (Z.ltb_spec at_ (bufsize s)).
    + destruct (Z.ltb_spec (bufsize s - at_) len); [reflexivity | lia].
    + destruct (Z.ltb_spec 0 len); [reflexivity | lia].
  - intros Hle Hc.
    assert (Hno : ((if at_ <? bufsize s then bufsize s - at_ else 0) <? len) = false).
    { destruct (Z.ltb_spec at_ (bufsize s)); apply Z.ltb_ge; lia. }
    rewrite Hno.
    destruct (Z.gtb_spec at_ (Z.of_nat (length (buf s)))); [lia|].
    destruct (memcmp_bytes_spec (Z.to_nat len) (skipn (Z.to_nat at_) (buf s)) cbuf)
      as (c & Hr & Hiff).
    + rewrite length_skipn. lia.
    + lia.
    + exists c. split; [exact Hr|]. unfold slice. exact Hiff.
Qed.

(** X3. [get_struct_ptr] gives a pointer only to a structure that lies
    inside the buffer: for every position of type [uint32_t] and every
    size below [2^63], a result other than the null pointer means that
    [pos + sizeof(TYPE) <= bufsize], and the null pointer that it is not. *)
Theorem get_struct_ptr_inside (s : sbuf_t) (sz pos : Z) :
  0 <= pos < 2 ^ 32 -> 0 <= sz < 2 ^ 63 ->
  match get_struct_ptr s sz pos with
  | Some p => p = pos /\ pos + sz <= bufsize s
  | None => bufsize s < pos + sz
  end.
Proof.
  intros Hpos Hsz. unfold get_struct_ptr, uint32_t.
  rewrite (Z.mod_small pos) by lia.
  rewrite wrap_small by lia.
  destruct (Z.leb_spec (pos + sz) (bufsize s)); [split; [reflexivity | lia] | lia].
Qed.

(** *** find *)

Lemma ssize_t_small (z : Z) : 0 <= z < 2 ^ 63 -> ssize_t z = z.
Proof.
  intros Hz. unfold ssize_t, to_signed.
  rewrite Z.mod_small by lia.
  destruct (Z.ltb_spec z (2 ^ (64 - 1))) as [_ | Hge]; [reflexivity|].
  change (2 ^ (64 - 1)) with (2 ^ 63) in Hge. lia.
Qed.

Lemma find_ch_from_spec (s : sbuf_t) (ch : Z) (n : nat) :
  wf s -> pagesize s < 2 ^ 63 ->
  forall start : Z,
    0 <= start -> pagesize s - start <= Z.of_nat n ->
    exists r, find_ch_from n s ch start = Ret r /\
      ((r = -1 /\ forall i, start <= i < pagesize s -> byte_at s i <> Some ch) \/
       (start <= r < pagesize s /\ byte_at s r = Some ch /\
        forall i, start <= i < r -> byte_at s i <> Some ch)).
Proof.
  intros Hwf Hpage. pose proof Hwf as (Hp & Hl & Hm).
  induction n as [|n IH]; intros start Hstart Hfuel.
  - cbn [find_ch_from].
    destruct (Z.ltb_spec start (pagesize s)); [lia|].
    exists (-1). split; [reflexivity|]. left. split; [reflexivity|]. intros i Hi. lia.
  - cbn [find_ch_from].
    destruct (Z.ltb_spec start (pagesize s)) as [Hlt | Hge].
    2: { exists (-1). split; [reflexivity|]. left. split; [reflexivity|]. intros i Hi. lia. }
    destruct (rd_in_buffer s start Hwf) as (b & _ & Hr & Hb); [lia|].
    rewrite Hr. cbn [mbind res_bind].
    destruct (Z.eqb_spec (byte_val b) ch) as [Heq | Hne].
    + exists (ssize_t start). split; [reflexivity|]. right.
      rewrite ssize_t_small by lia.
      split; [lia|]. split; [rewrite Hb, Heq; reflexivity|]. intros i Hi. lia.
    + rewrite wrap_small by lia.
      destruct (IH (start + 1)) as (r & Hf & Hspec); [lia | lia |].
      exists r. split; [exact Hf|].
      assert (Hhere : byte_at s start <> Some ch) by (rewrite Hb; congruence).
      destruct Hspec as [[-> Hnone] | (Hr1 & Hr2 & Hr3)].
      * left. split; [reflexivity|]. intros i Hi.
        destruct (Z.eq_dec i start) as [-> | Hne']; [exact Hhere | apply Hnone; lia].
      * right. split; [lia|]. split; [exact Hr2|]. intros i Hi.
        destruct (Z.eq_dec i start) as [-> | Hne']; [exact Hhere | apply Hr3; lia].
Qed.

(** X4. [find(ch, start)] gives the index of the first byte [ch] of the
    page at or behind [start], and -1 when the page holds none there; a
    byte of the margin is never found. *)
Theorem find_ch_first_in_page (s : sbuf_t) (ch start : Z) :
  wf s -> pagesize s < 2 ^ 63 -> 0 <= start ->
  exists r, find_ch s ch start = Ret r /\
    ((r = -1 /\ forall i, start <= i < pagesize s -> byte_at s i <> Some ch) \/
     (start <= r < pagesize s /\ byte_at s r = Some ch /\
      forall i, start <= i < r -> byte_at s i <> Some ch)).
Proof.
  intros Hwf Hpage Hstart. unfold find_ch.
  apply find_ch_from_spec; [exact Hwf | exact Hpage | exact Hstart | lia].
Qed.

Lemma code_range (c : ascii) : 0 <= Quote.code c < 256.
Proof.
  unfold Quote.code. pose proof (N_ascii_bounded c) as Hb. lia.
Qed.

Lemma char_val_byte (cs : bool) (c : ascii) (v : Z) :
  0 <= v < 256 -> v = char_val cs c -> v = Quote.code c.
Proof.
  intros Hv ->. unfold char_val in *. pose proof (code_range c).
  destruct (cs && (128 <=? Quote.code c)); [lia | reflexivity].
Qed.

Lemma uint8_char_val (cs : bool) (c : ascii) : uint8_t (char_val cs c) = Quote.code c.
Proof.
  unfold char_val, uint8_t. pose proof (code_range c).
  destruct cs; cbn [andb]; [|apply Z.mod_small; lia].
  destruct (Z.leb_spec 128 (Quote.code c)); [|apply Z.mod_small; lia].
  replace (Quote.code c - 256) with (Quote.code c + (-1) * 2 ^ 8) by lia.
  rewrite Z.mod_add by lia. apply Z.mod_small. lia.
Qed.

Lemma memchr_some (c : Z) (n : nat) :
  forall (l : list byte) (base loc : Z),
    memchr l base c n = Ret (Some loc) ->
    base <= loc < base + Z.of_nat n /\
    exists b, nth_error l (Z.to_nat (loc - base)) = Some b /\ byte_val b = c.
Proof.
  induction n as [|n IH]; intros l base loc Hm; [discriminate|].
  cbn [memchr] in Hm. destruct l as [|b t]; [discriminate|].
  destruct (Z.eqb_spec (byte_val b) c) as [Heq | Hne].
  - inversion Hm; subst. split; [lia|]. exists b.
    replace (loc - loc) with 0 by lia. split; reflexivity.
  - apply IH in Hm as (Hr & b' & Hn & Hb). split; [lia|]. exists b'.
    replace (Z.to_nat (loc - base)) with (S (Z.to_nat (loc - (base + 1)))) by lia.
    split; assumption.
Qed.

Lemma memchr_none (c : Z) (n : nat) :
  forall (l : list byte) (base : Z),
    (n <= length l)%nat -> (forall b, In b l -> byte_val b <> c) ->
    memchr l base c n = Ret None.
Proof.
  induction n as [|n IH]; intros l base Hlen Hall; [reflexivity|].
  destruct l as [|b t]; [simpl in Hlen; lia|].
  cbn [memchr].
  destruct (Z.eqb_spec (byte_val b) c) as [Heq | Hne].
  - exfalso. apply (Hall b); [left; reflexivity | exact Heq].
  - apply IH; [simpl in Hlen; lia|]. intros b' Hin. apply Hall. right. exact Hin.
Qed.

Lemma no_nul_tail (c : ascii) (rest : string) : no_nul (String c rest) -> no_nul rest.
Proof. intros Hn c' Hin. apply Hn. right. exact Hin. Qed.

Lemma c_first_zero (str : string) : no_nul str -> c_first str = 0 -> str = EmptyString.
Proof.
  destruct str as [|c rest]; [reflexivity|]. intros Hn Hz. exfalso.
  apply (Hn c); [left; reflexivity | exact Hz].
Qed.

Lemma match_at_sound (cs : bool) (s : sbuf_t) (loc : Z) :
  wf s -> 0 <= loc ->
  forall (str : string) (i : Z),
    no_nul str -> 0 <= i -> loc + i <= bufsize s ->
    match_at cs s loc i str = Ret true ->
    loc + i + strlen str <= bufsize s /\
    forall (j : nat) (c : ascii),
      nth_error (list_ascii_of_string str) j = Some c ->
      byte_at s (loc + i + Z.of_nat j) = Some (Quote.code c).
Proof.
  intros Hwf Hloc. pose proof Hwf as (Hp & Hl & Hm).
  induction str as [|c rest IH]; intros i Hn Hi Hle Hmatch; [discriminate|].
  cbn [match_at] in Hmatch.
  rewrite wrap_small in Hmatch by lia.
  destruct (Z.ltb_spec (loc + i) (bufsize s)) as [Hlt | Hge]; [|discriminate].
  destruct (Z.eqb_spec (Quote.code c) 0); [discriminate|]. cbn [andb negb] in Hmatch.
  destruct (rd_in_buffer s (loc + i) Hwf) as (b & _ & Hr & Hb); [lia|].
  rewrite Hr in Hmatch. cbn [mbind res_bind] in Hmatch.
  destruct (Z.eqb_spec (byte_val b) (char_val cs c)) as [Heq | Hne]; [|discriminate].
  cbn [negb] in Hmatch.
  apply char_val_byte in Heq; [|apply byte_val_range].
  assert (Hhere : byte_at s (loc + i + Z.of_nat 0) = Some (Quote.code c)).
  { replace (loc + i + Z.of_nat 0) with (loc + i) by lia. rewrite Hb, Heq. reflexivity. }
  destruct (Z.eqb_spec (c_first rest) 0) as [Hz | Hnz].
  - apply c_first_zero in Hz; [|eapply no_nul_tail; exact Hn]. subst rest.
    unfold strlen. cbn [String.length]. split; [lia|].
    intros j c' Hj. destruct j as [|j]; [|destruct j; discriminate].
    cbn in Hj. inversion Hj; subst. exact Hhere.
  - rewrite wrap_small in Hmatch by lia.
    apply IH in Hmatch as [Hlen Hall]; [|eapply no_nul_tail; exact Hn | lia | lia].
    unfold strlen in *. cbn [String.length]. split; [lia|].
    intros j c' Hj. destruct j as [|j].
    + cbn in Hj. inversion Hj; subst. exact Hhere.
    + cbn in Hj. apply Hall in Hj.
      replace (loc + i + Z.of_nat (S j)) with (loc + (i + 1) + Z.of_nat j) by lia.
      exact Hj.
Qed.

Lemma find_str_from_sound (cs : bool) (s : sbuf_t) (str : string) (r : Z) (n : nat) :
  wf s -> bufsize s < 2 ^ 63 -> no_nul str ->
  forall start : Z,
    0 <= start ->
    find_str_from n cs s str start = Ret r -> r <> -1 ->
    start <= r /\ r + strlen str <= bufsize s /\
    forall (j : nat) (c : ascii),
      nth_error (list_ascii_of_string str) j = Some c ->
      byte_at s (r + Z.of_nat j) = Some (Quote.code c).
Proof.
  intros Hwf Hmax Hn. pose proof Hwf as (Hp & Hl & Hm).
  assert (Hstep : forall start loc,
    0 <= start < pagesize s ->
    memchr (skipn (Z.to_nat start) (buf s)) start
           (uint8_t (match str with
                     | EmptyString => 0
                     | String c _ => char_val cs c
                     end))
           (Z.to_nat (size_t_wrap (bufsize s - start))) = Ret (Some loc) ->
    start <= loc < bufsize s).
  { intros start loc Hs Hmc. apply memchr_some in Hmc as (Hr & _).
    rewrite wrap_small in Hr by lia. lia. }
  induction n as [|n IH]; intros start Hstart Hf Hr.
  - cbn [find_str_from] in Hf.
    destruct (Z.ltb_spec start (pagesize s)) as [Hlt | Hge]; [|inversion Hf; subst; lia].
    destruct (memchr _ start _ _) as [[loc|]| | | |] eqn:Hmc; cbn [mbind res_bind] in Hf;
      try discriminate; [|inversion Hf; subst; lia].
    apply Hstep in Hmc as Hloc; [|lia].
    destruct (match_at cs s loc 0 str) as [[|]| | | |] eqn:Hma; cbn [mbind res_bind] in Hf;
      try discriminate.
    inversion Hf; subst r. rewrite ssize_t_small by lia.
    apply match_at_sound in Hma as [Hlen Hall]; [|exact Hwf | lia | exact Hn | lia | lia].
    split; [lia|]. split; [lia|].
    intros j c Hj. apply Hall in Hj. replace (loc + 0 + Z.of_nat j) with (loc + Z.of_nat j) in Hj by lia.
    exact Hj.
  - cbn [find_str_from] in Hf.
    destruct (Z.ltb_spec start (pagesize s)) as [Hlt | Hge]; [|inversion Hf; subst; lia].
    destruct (memchr _ start _ _) as [[loc|]| | | |] eqn:Hmc; cbn [mbind res_bind] in Hf;
      try discriminate; [|inversion Hf; subst; lia].
    apply Hstep in Hmc as Hloc; [|lia].
    destruct (match_at cs s loc 0 str) as [[|]| | | |] eqn:Hma; cbn [mbind res_bind] in Hf;
      try discriminate.
    + inversion Hf; subst r. rewrite ssize_t_small by lia.
      apply match_at_sound in Hma as [Hlen Hall]; [|exact Hwf | lia | exact Hn | lia | lia].
      split; [lia|]. split; [lia|].
      intros j c Hj. apply Hall in Hj.
      replace (loc + 0 + Z.of_nat j) with (loc + Z.of_nat j) in Hj by lia.
      exact Hj.
    + rewrite (wrap_small (loc + 1)) in Hf by lia. rewrite wrap_small in Hf by lia.
      apply IH in Hf as (H1 & H2 & H3); [|lia | exact Hr].
      split; [lia|]. split; assumption.
Qed.

(** X5. [find(str, start)] is sound: a result other than -1 is an index
    at or behind [start] at which the bytes of the buffer are the
    characters of [str], all of them inside [bufsize]; this holds
    whether [char] is signed or not. *)
Theorem find_str_sound (char_signed : bool) (s : sbuf_t) (str : string) (start r : Z) :
  wf s -> bufsize s < 2 ^ 63 -> no_nul str -> 0 <= start ->
  find_str char_signed s str start = Ret r -> r <> -1 ->
  start <= r /\ r + strlen str <= bufsize s /\
  forall (j : nat) (c : ascii),
    nth_error (list_ascii_of_string str) j = Some c ->
    byte_at s (r + Z.of_nat j) = Some (Quote.code c).
Proof.
  intros Hwf Hmax Hn Hstart Hf Hr. unfold find_str in Hf.
  destruct (c_first str =? 0); [inversion Hf; subst; lia|].
  eapply find_str_from_sound; eassumption.
Qed.

Lemma code_ascii_of_byte (b : byte) : Quote.code (ascii_of_byte b) = byte_val b.
Proof.
  unfold Quote.code, byte_val. f_equal.
  destruct b; reflexivity.
Qed.

(** X6. [find(str, start)] is not complete: after a failed match at
    [loc] the search goes on at [loc + 2], so that in a buffer that
    starts with the bytes [x x y], in which [x] does not occur again,
    the two-character string [x y] is not found although it is at
    index 1. *)
Theorem find_str_misses_overlap (char_signed : bool) (s : sbuf_t) (x y : byte)
  (rest : list byte) :
  buf s = x :: x :: y :: rest ->
  bufsize s = 3 + Z.of_nat (length rest) -> bufsize s < 2 ^ 64 ->
  2 <= pagesize s <= bufsize s ->
  x <> y -> byte_val x <> 0 -> byte_val y <> 0 ->
  (forall b, In b rest -> b <> x) ->
  find_str char_signed s (String (ascii_of_byte x) (String (ascii_of_byte y) "")) 0
    = Ret (-1) /\
  slice s 1 2 = [x; y].
Proof.
  intros Hbuf Hsize Hmax Hpage Hxy Hx Hy Hrest. split.
  2: { unfold slice. rewrite Hbuf. reflexivity. }
  assert (Hwf : wf s) by (unfold wf; rewrite Hbuf; cbn [length]; lia).
  set (str := String (ascii_of_byte x) (String (ascii_of_byte y) "")).
  assert (Hc0 : uint8_t (match str with
                         | EmptyString => 0
                         | String c _ => char_val char_signed c
                         end) = byte_val x).
  { subst str. cbv iota. rewrite uint8_char_val. apply code_ascii_of_byte. }
  assert (Hfirst : memchr (skipn (Z.to_nat 0) (buf s)) 0 (byte_val x)
                     (Z.to_nat (size_t_wrap (bufsize s - 0))) = Ret (Some 0)).
  { replace (Z.to_nat (size_t_wrap (bufsize s - 0)))
      with (S (Z.to_nat (bufsize s - 1))) by (rewrite wrap_small by lia; lia).
    rewrite Hbuf. change (Z.to_nat 0) with 0%nat. cbn [skipn memchr].
    rewrite Z.eqb_refl. reflexivity. }
  assert (Hm : match_at char_signed s 0 0 str = Ret false).
  { assert (Hr0 : rd s 0 = Ret (byte_val x))
      by (unfold rd; rewrite wrap_small by lia; rewrite Hbuf; reflexivity).
    assert (Hr1 : rd s 1 = Ret (byte_val x))
      by (unfold rd; rewrite wrap_small by lia; rewrite Hbuf; reflexivity).
    subst str. cbn [match_at c_first]. rewrite !code_ascii_of_byte.
    rewrite (wrap_small (0 + 0)) by lia. change (0 + 0) with 0.
    destruct (Z.ltb_spec 0 (bufsize s)); [|lia].
    destruct (Z.eqb_spec (byte_val x) 0) as [Hc|_]; [contradiction|].
    destruct (Z.eqb_spec (byte_val y) 0) as [Hc|_]; [contradiction|].
    cbn [andb negb]. rewrite Hr0. cbn [mbind res_bind].
    destruct (byte_val x =? char_val char_signed (ascii_of_byte x)); [|reflexivity].
    cbn [negb]. rewrite (wrap_small (0 + 1)) by lia.
    rewrite (wrap_small (0 + (0 + 1))) by lia. change (0 + (0 + 1)) with 1.
    destruct (Z.ltb_spec 1 (bufsize s)); [|lia].
    cbn [andb]. rewrite Hr1. cbn [mbind res_bind].
    destruct (Z.eqb_spec (byte_val x) (char_val char_signed (ascii_of_byte y))) as [Heq|];
      [|reflexivity].
    apply char_val_byte in Heq; [|apply byte_val_range].
    rewrite code_ascii_of_byte in Heq. apply byte_val_inj in Heq. contradiction. }
  assert (Hsecond : memchr (skipn (Z.to_nat 2) (buf s)) 2 (byte_val x)
                      (Z.to_nat (size_t_wrap (bufsize s - 2))) = Ret None).
  { apply memchr_none.
    - rewrite wrap_small by lia. rewrite length_skipn, Hbuf. cbn [length]. lia.
    - rewrite Hbuf. change (Z.to_nat 2) with 2%nat. cbn [skipn].
      intros b [<- | Hin] Hb; apply byte_val_inj in Hb; [congruence|].
      apply (Hrest b Hin). exact Hb. }
  assert (Hnext : forall m, find_str_from m char_signed s str 2 = Ret (-1)).
  { intros m. destruct m as [|m]; cbn [find_str_from];
      (destruct (Z.ltb_spec 2 (pagesize s)); [|reflexivity]);
      rewrite Hc0, Hsecond; reflexivity. }
  unfold find_str. fold str.
  replace (c_first str) with (byte_val x) by (symmetry; apply code_ascii_of_byte).
  destruct (Z.eqb_spec (byte_val x) 0) as [Hc|_]; [contradiction|].
  destruct (Z.to_nat (pagesize s - 0)) as [|m] eqn:Hfuel; [lia|].
  cbn [find_str_from].
  destruct (Z.ltb_spec 0 (pagesize s)); [|lia].
  rewrite Hc0, Hfirst. cbn [mbind res_bind]. rewrite Hm. cbn [mbind res_bind].
  rewrite (wrap_small (0 + 1)) by lia. rewrite wrap_small by lia.
  apply Hnext.
Qed.

(** *** getline *)

Lemma skip_to_line_start_spec (s : sbuf_t) (n : nat) :
  wf s ->
  forall pos : Z,
    0 < pos <= pagesize s -> pagesize s - pos <= Z.of_nat n ->
    exists p, skip_to_line_start n s pos = Ret p /\
      pos <= p <= pagesize s /\
      (p < pagesize s -> byte_at s (p - 1) = Some 10) /\
      forall i, pos <= i < p -> byte_at s (i - 1) <> Some 10.
Proof.
  intros Hwf. pose proof Hwf as (Hp & Hl & Hm).
  induction n as [|n IH]; intros pos Hpos Hfuel; cbn [skip_to_line_start].
  - destruct (Z.ltb_spec pos (pagesize s)); [lia|].
    exists pos. split; [reflexivity|]. split; [lia|]. split; intros; lia.
  - destruct (Z.ltb_spec pos (pagesize s)) as [Hlt | Hge].
    2: { exists pos. split; [reflexivity|]. split; [lia|]. split; intros; lia. }
    rewrite (wrap_small (pos - 1)), (wrap_small (pos + 1)) by lia.
    destruct (index_in_buffer s (pos - 1) Hwf) as (v & Hv & Hb); [lia|].
    rewrite Hv. cbn [mbind res_bind].
    destruct (Z.eqb_spec v 10) as [-> | Hne]; cbn [negb].
    + exists pos. split; [reflexivity|]. split; [lia|].
      split; [intros _; exact Hb | intros; lia].
    + destruct (IH (pos + 1)) as (p & Hs & Hr & Hnl & Hall); [lia | lia |].
      exists p. split; [exact Hs|]. split; [lia|]. split; [exact Hnl|].
      intros i Hi. destruct (Z.eq_dec i pos) as [-> | Hne'].
      * rewrite Hb. congruence.
      * apply Hall. lia.
Qed.

Lemma scan_to_eol_spec (s : sbuf_t) (n : nat) :
  wf s ->
  forall pos : Z,
    0 <= pos < pagesize s -> pagesize s - pos - 1 <= Z.of_nat n ->
    exists q, scan_to_eol n s pos = Ret q /\
      pos < q <= pagesize s /\
      (q < pagesize s -> byte_at s q = Some 10) /\
      forall i, pos < i < q -> byte_at s i <> Some 10.
Proof.
  intros Hwf. pose proof Hwf as (Hp & Hl & Hm).
  induction n as [|n IH]; intros pos Hpos Hfuel; cbn [scan_to_eol]; cbv zeta;
    rewrite wrap_small by lia.
  - destruct (Z.ltb_spec (pos + 1) (pagesize s)); [lia|].
    exists (pos + 1). split; [reflexivity|]. split; [lia|]. split; intros; lia.
  - destruct (Z.ltb_spec (pos + 1) (pagesize s)) as [Hlt | Hge].
    2: { exists (pos + 1). split; [reflexivity|]. split; [lia|]. split; intros; lia. }
    destruct (index_in_buffer s (pos + 1) Hwf) as (v & Hv & Hb); [lia|].
    rewrite Hv. cbn [mbind res_bind].
    destruct (Z.eqb_spec v 10) as [-> | Hne].
    + exists (pos + 1). split; [reflexivity|]. split; [lia|].
      split; [intros _; exact Hb | intros; lia].
    + destruct (IH (pos + 1)) as (q & Hs & Hr & Hnl & Hall); [lia | lia |].
      exists q. split; [exact Hs|]. split; [lia|]. split; [exact Hnl|].
      intros i Hi. destruct (Z.eq_dec i (pos + 1)) as [-> | Hne'].
      * rewrite Hb. congruence.
      * apply Hall. lia.
Qed.

(** X7. [getline] finds the next line of the page: called with [pos]
    it sets [line_start] to the first index at or behind [pos] that
    follows a line feed (to 0 for [pos = 0]) and moves [pos] to the
    next line feed behind [line_start], or to [pagesize]; a line has at
    least one byte, since the byte at [line_start] itself is not
    tested.  It answers [false], leaving [line_start] and [line_len]
    alone, exactly when [pos] is outside the page or no line starts at
    or behind [pos]. *)
Theorem getline_next_line (s : sbuf_t) (pos ls ll : Z) :
  wf s -> 0 <= pos ->
  exists g, getline s pos ls ll = Ret g /\
    if found g then
      pos <= line_start g < pagesize s /\
      (pos = 0 -> line_start g = 0) /\
      (0 < pos ->
         byte_at s (line_start g - 1) = Some 10 /\
         forall i, pos <= i < line_start g -> byte_at s (i - 1) <> Some 10) /\
      line_start g < new_pos g <= pagesize s /\
      line_len g = new_pos g - line_start g /\
      (new_pos g < pagesize s -> byte_at s (new_pos g) = Some 10) /\
      (forall i, line_start g < i < new_pos g -> byte_at s i <> Some 10)
    else
      line_start g = ls /\ line_len g = ll /\
      (pagesize s <= pos \/
       (0 < pos /\ forall i, pos <= i < pagesize s -> byte_at s (i - 1) <> Some 10)).
Proof.
  intros Hwf Hpos. pose proof Hwf as (Hp & Hl & Hm). unfold getline.
  destruct (Z.geb_spec pos (pagesize s)) as [Hout | Hin].
  { eexists. split; [reflexivity|]. cbn. split; [reflexivity|]. split; [reflexivity|].
    left. lia. }
  destruct (Z.gtb_spec pos 0) as [Hgt | Hzero].
  - destruct (skip_to_line_start_spec s (Z.to_nat (pagesize s)) Hwf pos)
      as (p & Hs & Hr & Hnl & Hall); [lia | lia |].
    rewrite Hs. cbn [mbind res_bind andb].
    destruct (Z.geb_spec p (pagesize s)) as [Hend | Hline].
    + eexists. split; [reflexivity|]. cbn. split; [reflexivity|]. split; [reflexivity|].
      right. split; [lia|]. intros i Hi. apply Hall. lia.
    + destruct (scan_to_eol_spec s (Z.to_nat (pagesize s)) Hwf p)
        as (q & Hq & Hqr & Hqnl & Hqall); [lia | lia |].
      rewrite Hq. cbn [mbind res_bind].
      eexists. split; [reflexivity|]. cbn [found line_start new_pos line_len].
      rewrite wrap_small by lia.
      split; [lia|]. split; [lia|].
      split; [intros _; split; [apply Hnl; lia | exact Hall]|].
      split; [lia|]. split; [reflexivity|]. split; assumption.
  - assert (pos = 0) by lia. subst pos. cbn [mbind res_bind andb].
    destruct (scan_to_eol_spec s (Z.to_nat (pagesize s)) Hwf 0)
      as (q & Hq & Hqr & Hqnl & Hqall); [lia | lia |].
    rewrite Hq. cbn [mbind res_bind].
    eexists. split; [reflexivity|]. cbn [found line_start new_pos line_len].
    rewrite wrap_small by lia.
    split; [lia|]. split; [reflexivity|]. split; [lia|].
    split; [lia|]. split; [reflexivity|]. split; assumption.
Qed.

End SbufOpsFacts.

(** ** Facts about the constructors *)

Module SbufHeapOpsFacts.
Import Sbuf SbufHeap SbufOps SbufHeapOps SbufFacts SbufHeapFacts SbufOpsFacts.

Lemma buf_at_skipn (l : list byte) (off i : Z) :
  0 <= off -> 0 <= i -> buf_at (skipn (Z.to_nat off) l) i = buf_at l (off + i).
Proof.
  intros Hoff Hi. rewrite !buf_at_nth_error by lia.
  rewrite nth_error_skipn. f_equal. lia.
Qed.

Lemma add_child_view (h h' : gmap N node) (p : N) :
  add_child h p = Ret h' ->
  forall a, view_of h' a = view_of h a.
Proof.
  unfold add_child. destruct (h !! p) as [n|] eqn:Hp; [|discriminate].
  intros [= <-] a. unfold view_of.
  destruct (decide (p = a)) as [<- | Hne].
  - rewrite lookup_insert_eq, Hp. reflexivity.
  - rewrite lookup_insert_ne by done. reflexivity.
Qed.

Lemma del_child_view (h h' : gmap N node) (p : N) :
  del_child h p = Ret h' ->
  forall a, view_of h' a = view_of h a.
Proof.
  unfold del_child. destruct (h !! p) as [n|] eqn:Hp; [|discriminate].
  destruct (int_wrap (children n - 1) >=? 0); [|discriminate].
  intros [= <-] a. unfold view_of.
  destruct (decide (p = a)) as [<- | Hne].
  - rewrite lookup_insert_eq, Hp. reflexivity.
  - rewrite lookup_insert_ne by done. reflexivity.
Qed.

(** X8. A child made by the constructor taking [(parent, off, len)],
    for every [off] and [len] of type [size_t].  When [off + len] does
    not wrap around and [off] is not above the size of the parent, the
    child lies inside its parent: it has [min(len, bufsize - off)]
    bytes, all of them page, and its byte [i] is the byte [off + i] of
    the parent.  When [off + len] does not wrap around and [off] is
    above [bufsize], the subtraction [bufsize - off] wraps around and
    the child claims more bytes than its parent has.  When [off + len]
    wraps around, with [off] not above [bufsize], the test
    [off + len < bufsize] passes and the child claims [len] bytes, more
    than its parent has left at [off]; with [off] above [bufsize] it
    claims [len] bytes or, again, the wrapped difference. *)
Theorem sbuf_off_len_view (h : gmap N node) (c p : N) (off len : Z) (t pn : node) :
  h !! c = None -> h !! p = Some t -> h !! highest_parent h p = Some pn ->
  wf (view t) -> 0 <= off < 2 ^ 64 -> 0 <= len < 2 ^ 64 ->
  exists h' v,
    sbuf_off_len h c p off len = Ret h' /\ view_of h' c = Some v /\
    (off + len < 2 ^ 64 -> off <= bufsize (view t) ->
       bufsize v = Z.min len (bufsize (view t) - off) /\
       pagesize v = bufsize v /\ wf v /\
       forall i, 0 <= i < bufsize v -> byte_at v i = byte_at (view t) (off + i)) /\
    (off + len < 2 ^ 64 -> bufsize (view t) < off ->
       bufsize v = 2 ^ 64 - (off - bufsize (view t)) /\ bufsize (view t) < bufsize v) /\
    (2 ^ 64 <= off + len -> off <= bufsize (view t) ->
       bufsize v = len /\ pagesize v = len /\ bufsize (view t) - off < bufsize v) /\
    (2 ^ 64 <= off + len -> bufsize (view t) < off ->
       bufsize v = (if off + len - 2 ^ 64 <? bufsize (view t) then len
                    else 2 ^ 64 - (off - bufsize (view t))) /\
       pagesize v = bufsize v /\ 0 < bufsize v).
Proof.
  intros Hc Hp Hroot (Hpg & Hl & Hm) Hoff Hlen.
  assert (Hne : c <> highest_parent h p) by (intros ->; congruence).
  assert (Hdiff : bufsize (view t) < off ->
            size_t_wrap (bufsize (view t) - off) = 2 ^ 64 - (off - bufsize (view t))).
  { intros Hout. unfold size_t_wrap.
    replace (bufsize (view t) - off) with (2 ^ 64 - (off - bufsize (view t)) + (-1) * 2 ^ 64)
      by lia.
    rewrite Z.mod_add by lia. apply Z.mod_small. lia. }
  assert (Hsum : 2 ^ 64 <= off + len -> size_t_wrap (off + len) = off + len - 2 ^ 64).
  { intros Hw. unfold size_t_wrap. symmetry.
    apply Z.mod_unique_pos with (q := 1); lia. }
  unfold sbuf_off_len. rewrite Hp.
  unfold add_child at 1. rewrite lookup_insert_ne, Hroot by done.
  eexists. eexists. split; [reflexivity|].
  unfold view_of. rewrite lookup_insert_ne by done. rewrite lookup_insert_eq.
  split; [reflexivity|]. cbn [view bufsize pagesize buf].
  split; [|split; [|split]].
  - intros Hno Hin. rewrite (wrap_small (off + len)) by lia.
    assert (Hsz : (if off + len <? bufsize (view t) then len
                   else size_t_wrap (bufsize (view t) - off))
                  = Z.min len (bufsize (view t) - off)).
    { destruct (Z.ltb_spec (off + len) (bufsize (view t))); [lia|].
      rewrite wrap_small by lia. lia. }
    rewrite Hsz. split; [reflexivity|]. split; [reflexivity|].
    split.
    + unfold wf. cbn [bufsize pagesize buf]. rewrite length_skipn. lia.
    + intros i Hi. unfold byte_at. cbn [buf]. rewrite buf_at_skipn by lia. reflexivity.
  - intros Hno Hout. rewrite (wrap_small (off + len)) by lia.
    destruct (Z.ltb_spec (off + len) (bufsize (view t))); [lia|].
    rewrite (Hdiff Hout). lia.
  - intros Hw Hin. rewrite (Hsum Hw).
    destruct (Z.ltb_spec (off + len - 2 ^ 64) (bufsize (view t))); [|lia].
    split; [reflexivity|]. split; [reflexivity|]. lia.
  - intros Hw Hout. rewrite (Hsum Hw), (Hdiff Hout).
    split; [reflexivity|]. split; [reflexivity|].
    destruct (Z.ltb_spec (off + len - 2 ^ 64) (bufsize (view t))); lia.
Qed.

(** X9. [operator+] gives a view of the rest of the buffer for every
    [off]: sizes that would become negative are 0, the child lies inside
    the storage of its parent, and its byte [i] is the byte [off + i] of
    the parent. *)
Theorem operator_plus_view (h : gmap N node) (c p : N) (off : Z) (t : node) :
  h !! p = Some t -> wf (view t) -> 0 <= off ->
  exists h' v,
    operator_plus h c p off = Ret h' /\ view_of h' c = Some v /\
    bufsize v = Z.max 0 (bufsize (view t) - off) /\
    pagesize v = Z.max 0 (pagesize (view t) - off) /\
    wf v /\
    forall i, 0 <= i < bufsize v -> byte_at v i = byte_at (view t) (off + i).
Proof.
  intros Hp (Hpg & Hl & Hm) Hoff. unfold operator_plus, sbuf_off. rewrite Hp.
  eexists. eexists. split; [reflexivity|].
  unfold view_of. rewrite lookup_insert_eq. split; [reflexivity|].
  cbn [view bufsize pagesize buf].
  assert (Hb : (if bufsize (view t) >? off then bufsize (view t) - off else 0)
               = Z.max 0 (bufsize (view t) - off))
    by (destruct (Z.gtb_spec (bufsize (view t)) off); lia).
  assert (Hg : (if pagesize (view t) >? off then pagesize (view t) - off else 0)
               = Z.max 0 (pagesize (view t) - off))
    by (destruct (Z.gtb_spec (pagesize (view t)) off); lia).
  rewrite Hb, Hg. split; [reflexivity|]. split; [reflexivity|]. split.
  - unfold wf. cbn [bufsize pagesize buf]. rewrite length_skipn. lia.
  - intros i Hi. unfold byte_at. cbn [buf]. rewrite buf_at_skipn by lia. reflexivity.
Qed.

(** X10. [operator+] adds up: the view [(s + a) + b] has the storage and
    the sizes of the view [s + (a + b)]. *)
Theorem operator_plus_adds_up (h : gmap N node) (c1 c2 c3 p : N) (a b : Z) (t : node) :
  h !! p = Some t -> h !! c1 = None -> 0 <= a -> 0 <= b ->
  exists h1 h2 h3 v2 v3,
    operator_plus h c1 p a = Ret h1 /\
    operator_plus h1 c2 c1 b = Ret h2 /\
    operator_plus h c3 p (a + b) = Ret h3 /\
    view_of h2 c2 = Some v2 /\ view_of h3 c3 = Some v3 /\
    buf v2 = buf v3 /\ bufsize v2 = bufsize v3 /\ pagesize v2 = pagesize v3.
Proof.
  intros Hp Hc1 Ha Hb. unfold operator_plus, sbuf_off. rewrite Hp.
  eexists. eexists. eexists. eexists. eexists.
  split; [reflexivity|]. rewrite lookup_insert_eq.
  split; [reflexivity|]. split; [reflexivity|].
  unfold view_of. rewrite !lookup_insert_eq.
  split; [reflexivity|]. split; [reflexivity|].
  cbn [view bufsize pagesize buf].
  split; [|split].
  - rewrite skipn_skipn. f_equal. lia.
  - destruct (Z.gtb_spec (bufsize (view t)) a);
      destruct (Z.gtb_spec (bufsize (view t)) (a + b));
      repeat match goal with |- context [?x >? ?y] => destruct (Z.gtb_spec x y) end; lia.
  - destruct (Z.gtb_spec (pagesize (view t)) a);
      destruct (Z.gtb_spec (pagesize (view t)) (a + b));
      repeat match goal with |- context [?x >? ?y] => destruct (Z.gtb_spec x y) end; lia.
Qed.

Lemma page_le_buf_add_child (h h' : gmap N node) (p : N) :
  page_le_buf h -> add_child h p = Ret h' -> page_le_buf h'.
Proof.
  unfold add_child. destruct (h !! p) as [n|] eqn:Hp; [|discriminate].
  intros Hall [= <-]. apply map_Forall_insert_2; [|exact Hall].
  apply (Hall p n Hp).
Qed.

Lemma page_le_buf_del_child (h h' : gmap N node) (p : N) :
  page_le_buf h -> del_child h p = Ret h' -> page_le_buf h'.
Proof.
  unfold del_child. destruct (h !! p) as [n|] eqn:Hp; [|discriminate].
  destruct (int_wrap (children n - 1) >=? 0); [|discriminate].
  intros Hall [= <-]. apply map_Forall_insert_2; [|exact Hall].
  apply (Hall p n Hp).
Qed.

(** X11. "pagesize <= bufsize" is kept by every way to make or to
    destroy a buffer: the constructor of a root brings [pagesize] down
    to [bufsize], and the constructors of children, the move
    constructor and the destructor leave a heap in which it holds for
    every object. *)
Theorem constructors_keep_page_le_buf (h : gmap N node) :
  page_le_buf h ->
  (forall c pos0_ buf_ bufsize_ pagesize_,
      page_le_buf (sbuf_root h c pos0_ buf_ bufsize_ pagesize_)) /\
  (forall c that_pos0 that h',
      sbuf_pos0_parent h c that_pos0 that = Ret h' -> page_le_buf h') /\
  (forall c that off len h',
      sbuf_off_len h c that off len = Ret h' -> page_le_buf h') /\
  (forall c that off h', operator_plus h c that off = Ret h' -> page_le_buf h') /\
  (forall c that h', sbuf_move h c that = Ret h' -> page_le_buf h') /\
  (forall c h', destroy h c = Ret h' -> page_le_buf h').
Proof.
  intros Hall. repeat split.
  - intros c pos0_ buf_ bufsize_ pagesize_. unfold sbuf_root.
    apply map_Forall_insert_2; [|exact Hall].
    cbn [view pagesize bufsize]. unfold min.
    destruct (Z.ltb_spec pagesize_ bufsize_); lia.
  - intros c that_pos0 that h'. unfold sbuf_pos0_parent.
    destruct (h !! that) as [t|] eqn:Ht; [|discriminate].
    apply page_le_buf_add_child. apply map_Forall_insert_2; [|exact Hall].
    cbn [view pagesize bufsize]. apply (Hall that t Ht).
  - intros c that off len h'. unfold sbuf_off_len.
    destruct (h !! that) as [t|] eqn:Ht; [|discriminate].
    apply page_le_buf_add_child. apply map_Forall_insert_2; [|exact Hall].
    cbn [view pagesize bufsize]. lia.
  - intros c that off h'. unfold operator_plus, sbuf_off.
    destruct (h !! that) as [t|] eqn:Ht; [|discriminate].
    intros [= <-]. apply map_Forall_insert_2; [|exact Hall].
    cbn [view pagesize bufsize]. pose proof (Hall that t Ht) as Hle. cbn beta in Hle.
    destruct (Z.gtb_spec (bufsize (view t)) off);
      destruct (Z.gtb_spec (pagesize (view t)) off); lia.
  - intros c that h'. unfold sbuf_move.
    destruct (h !! that) as [t|] eqn:Ht; [|discriminate].
    destruct (parent t) as [p|]; [|discriminate].
    destruct (del_child _ p) as [h1| | | |] eqn:Hd; try discriminate.
    cbn [mbind res_bind]. apply page_le_buf_add_child.
    eapply page_le_buf_del_child; [|exact Hd].
    apply map_Forall_insert_2; [|exact Hall].
    cbn [view]. apply (Hall that t Ht).
  - intros c h'. unfold destroy.
    destruct (h !! c) as [n|] eqn:Hn; [|discriminate].
    destruct (parent n) as [p|].
    + destruct (del_child h p) as [h1| | | |] eqn:Hd; try discriminate.
      cbn [mbind res_bind]. intros [= <-]. apply map_Forall_delete.
      eapply page_le_buf_del_child; [exact Hall | exact Hd].
    + cbn [mbind res_bind]. intros [= <-]. apply map_Forall_delete. exact Hall.
Qed.

(** X12. The move constructor takes the moved object off the counter of
    the parent and puts the new one on, so the counter keeps its value;
    but the moved object keeps its parent pointer, and its destructor
    takes it off once more.  After a child has been moved and both
    objects have been destroyed the counter of the parent is one too
    low, and with no other child the assertion [children >= 0] fails.
    Moving a buffer without parent calls [del_child] through a null
    pointer. *)
Theorem sbuf_move_is_uncounted_twice (h : gmap N node) (c that p : N) (t pn : node) :
  h !! c = None -> h !! that = Some t ->
  (parent t = None -> sbuf_move h c that = Undef) /\
  (parent t = Some p -> h !! p = Some pn -> that <> p ->
   1 <= children pn < 2 ^ 31 ->
   exists h1 h2,
     sbuf_move h c that = Ret h1 /\
     children_of h1 p = Some (children pn) /\
     destroy h1 that = Ret h2 /\
     children_of h2 p = Some (children pn - 1) /\
     if children pn =? 1 then destroy h2 c = Abort
     else exists h3, destroy h2 c = Ret h3 /\
                     children_of h3 p = Some (children pn - 2)).
Proof.
  intros Hc Ht. split.
  { intros Hroot. unfold sbuf_move. rewrite Ht, Hroot. reflexivity. }
  intros Hpar Hp Hne Hn.
  assert (Hcp : c <> p) by (intros ->; congruence).
  assert (Hct : c <> that) by (intros ->; congruence).
  unfold sbuf_move. rewrite Ht, Hpar.
  unfold del_child at 1. rewrite lookup_insert_ne, Hp by done.
  rewrite int_wrap_small by lia.
  destruct (Z.geb_spec (children pn - 1) 0) as [_|]; [|lia].
  cbn [mbind res_bind]. unfold add_child. rewrite lookup_insert_eq.
  cbn [children set_children]. rewrite int_wrap_small by lia.
  replace (children pn - 1 + 1) with (children pn) by lia.
  rewrite insert_insert_eq, set_children_twice, set_children_id.
  eexists. eexists. split; [reflexivity|].
  split.
  { unfold children_of. rewrite lookup_insert_eq. reflexivity. }
  unfold destroy at 1.
  rewrite lookup_insert_ne by done. rewrite lookup_insert_ne by done. rewrite Ht, Hpar.
  unfold del_child at 1. rewrite lookup_insert_eq.
  rewrite int_wrap_small by lia.
  destruct (Z.geb_spec (children pn - 1) 0) as [_|]; [|lia].
  cbn [mbind res_bind]. rewrite insert_insert_eq.
  split; [reflexivity|]. split.
  { unfold children_of. rewrite lookup_delete_ne by done. rewrite lookup_insert_eq.
    reflexivity. }
  assert (Hlc : delete that (<[p:=set_children pn (children pn - 1)]>
                               (<[c:={| view := view t; parent := Some p; children := 0 |}]> h))
                !! c = Some {| view := view t; parent := Some p; children := 0 |}).
  { rewrite lookup_delete_ne by done. rewrite lookup_insert_ne by done.
    apply lookup_insert_eq. }
  assert (Hlp : delete that (<[p:=set_children pn (children pn - 1)]>
                               (<[c:={| view := view t; parent := Some p; children := 0 |}]> h))
                !! p = Some (set_children pn (children pn - 1))).
  { rewrite lookup_delete_ne by done. apply lookup_insert_eq. }
  unfold destroy. rewrite Hlc. cbn [parent].
  unfold del_child. rewrite Hlp. cbn [children set_children].
  destruct (Z.eqb_spec (children pn) 1) as [H1 | H1].
  - rewrite H1. reflexivity.
  - rewrite int_wrap_small by lia.
    destruct (Z.geb_spec (children pn - 1 - 1) 0) as [_|]; [|lia].
    cbn [mbind res_bind]. eexists. split; [reflexivity|].
    unfold children_of. rewrite lookup_delete_ne by done. rewrite lookup_insert_eq.
    cbn. f_equal. lia.
Qed.

End SbufHeapOpsFacts.

(** ** Facts about feature lines and file names *)

Module StrsFacts.
Import Strs.

Lemma string_find_none (c : ascii) (line : string) :
  contains c line = false -> forall pos, string_find line c pos = None.
Proof.
  induction line as [|a t IH]; intros Hc pos; [reflexivity|].
  cbn [contains] in Hc. destruct (Ascii.eqb a c) eqn:Ha; [discriminate|].
  cbn [string_find]. destruct pos; rewrite Ha || idtac; rewrite IH by exact Hc; reflexivity.
Qed.

Lemma string_find_first (c : ascii) (pre rest : string) :
  contains c pre = false ->
  string_find (pre +:+ String c rest) c 0 = Some (String.length pre).
Proof.
  induction pre as [|a t IH]; intros Hc.
  - change ("" +:+ String c rest) with (String c rest).
    cbn [string_find String.length]. rewrite Ascii.eqb_refl. reflexivity.
  - cbn [contains] in Hc. destruct (Ascii.eqb a c) eqn:Ha; [discriminate|].
    change (String a t +:+ String c rest) with (String a (t +:+ String c rest)).
    cbn [string_find String.length]. rewrite Ha, IH by exact Hc. reflexivity.
Qed.

Lemma string_find_skip (c : ascii) (pre : string) :
  forall (line : string) (pos : nat),
    string_find (pre +:+ line) c (String.length pre + pos) =
    (fun n => (String.length pre + n)%nat) <$> string_find line c pos.
Proof.
  induction pre as [|a t IH]; intros line pos.
  - change ("" +:+ line) with line. cbn [String.length Nat.add].
    destruct (string_find line c pos); reflexivity.
  - change (String a t +:+ line) with (String a (t +:+ line)).
    cbn [String.length Nat.add string_find]. rewrite IH.
    destruct (string_find line c pos); reflexivity.
Qed.

Lemma substring_skip (pre : string) :
  forall (line : string) (n : nat),
    substring (String.length pre) n (pre +:+ line) = substring 0 n line.
Proof.
  induction pre as [|a t IH]; intros line n; [reflexivity|].
  change (String a t +:+ line) with (String a (t +:+ line)).
  cbn [String.length substring]. apply IH.
Qed.

Lemma substring_prefix (s rest : string) :
  substring 0 (String.length s) (s +:+ rest) = s.
Proof.
  induction s as [|a t IH]; [destruct rest; reflexivity|].
  change (String a t +:+ rest) with (String a (t +:+ rest)).
  cbn [String.length substring]. rewrite IH. reflexivity.
Qed.

Lemma substring_all (s : string) (n : nat) :
  (String.length s <= n)%nat -> substring 0 n s = s.
Proof.
  revert n. induction s as [|a t IH]; intros n Hn.
  - destruct n; reflexivity.
  - destruct n as [|n]; [cbn in Hn; lia|].
    cbn [substring]. rewrite IH; [reflexivity | cbn in Hn; lia].
Qed.

Lemma length_append (a b : string) :
  String.length (a +:+ b) = (String.length a + String.length b)%nat.
Proof.
  induction a as [|c t IH]; [reflexivity|].
  change (String c t +:+ b) with (String c (t +:+ b)). cbn [String.length]. rewrite IH.
  reflexivity.
Qed.

Lemma string_append_assoc (a b c : string) : (a +:+ b) +:+ c = a +:+ (b +:+ c).
Proof.
  induction a as [|x t IH]; [reflexivity|].
  change ((String x t +:+ b) +:+ c) with (String x ((t +:+ b) +:+ c)).
  rewrite IH. reflexivity.
Qed.

Lemma extract_feature_cases (pos feature context : string) :
  contains "009" pos = false -> contains "009" feature = false ->
  extract_feature (feature_line pos feature context) = Ret feature /\
  extract_feature (pos +:+ String "009" feature) = Ret feature /\
  extract_feature pos = Ret "".
Proof.
  intros Hpos Hfeat.
  assert (Hlong : forall line : string,
    string_find (pos +:+ String "009" line) "009" 0
    = Some (String.length pos)) by (intros rest; apply string_find_first; exact Hpos).
  assert (Hshift : forall line : string,
    string_find (pos +:+ String "009" line) "009" (String.length pos + 1)
    = (fun n => (String.length pos + 1 + n)%nat) <$> string_find line "009" 0).
  { intros line.
    replace (pos +:+ String "009" line) with ((pos +:+ String "009" "") +:+ line)
      by (rewrite string_append_assoc; reflexivity).
    replace (String.length pos + 1)%nat
      with (String.length (pos +:+ String "009" "") + 0)%nat
      by (rewrite length_append; cbn; lia).
    rewrite string_find_skip. rewrite length_append. cbn [String.length].
    destruct (string_find line "009" 0); cbn [fmap option_fmap option_map];
      [f_equal; lia | reflexivity]. }
  assert (Hsub : forall (line : string) (n : nat),
    substring (String.length pos + 1) n (pos +:+ String "009" line) = substring 0 n line).
  { intros line n.
    replace (pos +:+ String "009" line) with ((pos +:+ String "009" "") +:+ line)
      by (rewrite string_append_assoc; reflexivity).
    replace (String.length pos + 1)%nat with (String.length (pos +:+ String "009" ""))
      by (rewrite length_append; cbn; lia).
    apply substring_skip. }
  split; [|split].
  - unfold extract_feature, feature_line. rewrite Hlong. cbv zeta.
    rewrite Hshift. rewrite (string_find_first "009" feature context Hfeat).
    cbn [fmap option_fmap option_map]. unfold string_substr.
    match goal with
    | |- context [(?a <? ?b)%nat] => destruct (Nat.ltb_spec a b) as [Hlt|_]
    end.
    { rewrite !length_append in Hlt. cbn [String.length] in Hlt. lia. }
    f_equal. rewrite Hsub.
    replace (String.length pos + 1 + String.length feature - (String.length pos + 1))%nat
      with (String.length feature) by lia.
    apply substring_prefix.
  - unfold extract_feature. rewrite Hlong. cbv zeta. rewrite Hshift.
    rewrite (string_find_none "009" feature) by exact Hfeat.
    cbn [fmap option_fmap option_map]. unfold string_substr_from, string_substr.
    match goal with
    | |- context [(?a <? ?b)%nat] => destruct (Nat.ltb_spec a b) as [Hlt|_]
    end.
    { rewrite !length_append in Hlt. cbn [String.length] in Hlt. lia. }
    f_equal. rewrite Hsub. apply substring_all.
    rewrite !length_append. cbn [String.length]. lia.
  - unfold extract_feature. rewrite string_find_none by exact Hpos. reflexivity.
Qed.

(** X13. [extract_feature] undoes the making of a feature line: from
    the line [pos TAB feature TAB context], and also from
    [pos TAB feature] without a context, it gives back [feature],
    whenever neither the position nor the feature holds a tab. *)
Theorem extract_feature_of_line (pos feature context : string) :
  contains "009" pos = false -> contains "009" feature = false ->
  extract_feature (feature_line pos feature context) = Ret feature /\
  extract_feature (pos +:+ String "009" feature) = Ret feature.
Proof.
  intros Hpos Hfeat.
  destruct (extract_feature_cases pos feature context Hpos Hfeat) as (H1 & H2 & _).
  split; assumption.
Qed.

Lemma split_at (c : ascii) (line : string) :
  contains c line = false \/
  exists pre rest, line = pre +:+ String c rest /\ contains c pre = false.
Proof.
  induction line as [|a t IH]; [left; reflexivity|].
  cbn [contains]. destruct (Ascii.eqb_spec a c) as [-> | Hne].
  - right. exists "", t. split; reflexivity.
  - destruct IH as [Hno | (pre & rest & -> & Hpre)]; [left; exact Hno|].
    right. exists (String a pre), rest. split; [reflexivity|].
    cbn [contains]. destruct (Ascii.eqb_spec a c); [contradiction | exact Hpre].
Qed.

(** X14. [extract_feature] returns for every line, without the
    [std::out_of_range] of [substr], and what it returns holds no tab:
    the empty string for a line without a tab, and otherwise the part
    between the first tab and the second tab or the end of the line. *)
Theorem extract_feature_total (line : string) :
  exists feature, extract_feature line = Ret feature /\ contains "009" feature = false.
Proof.
  destruct (split_at "009" line) as [Hno | (pos & rest & -> & Hpos)].
  - exists "". split; [|reflexivity].
    destruct (extract_feature_cases line "" "" Hno eq_refl) as (_ & _ & H3). exact H3.
  - destruct (split_at "009" rest) as [Hno | (feature & context & -> & Hfeat)].
    + exists rest. split; [|exact Hno].
      destruct (extract_feature_cases pos rest "" Hpos Hno) as (_ & H2 & _). exact H2.
    + exists feature. split; [|exact Hfeat].
      destruct (extract_feature_cases pos feature context Hpos Hfeat) as (H1 & _ & _).
      exact H1.
Qed.

(** X15. [replace(src, f, t)] keeps the length of the string and changes
    the characters [f], and only these, to [t]: when [t] is another
    character than [f] the result holds no [f], and a string without
    [f] comes back as it is. *)
Theorem replace_changes_f_only (src : string) (f t : ascii) :
  String.length (replace src f t) = String.length src /\
  (f <> t -> contains f (replace src f t) = false) /\
  (contains f src = false -> replace src f t = src) /\
  (forall (i : nat) (c : ascii),
      nth_error (list_ascii_of_string src) i = Some c ->
      nth_error (list_ascii_of_string (replace src f t)) i
      = Some (if Ascii.eqb c f then t else c)).
Proof.
  induction src as [|a rest (IH1 & IH2 & IH3 & IH4)].
  { repeat split; try reflexivity. intros [|i] c Hc; discriminate. }
  cbn [replace String.length contains list_ascii_of_string].
  split; [rewrite IH1; reflexivity|]. split; [|split].
  - intros Hne. destruct (Ascii.eqb_spec a f) as [-> | Haf].
    + destruct (Ascii.eqb_spec t f) as [-> | _]; [contradiction | apply IH2; exact Hne].
    + destruct (Ascii.eqb_spec a f); [contradiction | apply IH2; exact Hne].
  - destruct (Ascii.eqb_spec a f); [discriminate|]. intros Hc. rewrite IH3 by exact Hc.
    reflexivity.
  - intros [|i] c Hc; cbn in Hc |- *.
    + inversion Hc; subst. reflexivity.
    + apply IH4. exact Hc.
Qed.

Lemma char_of_code (c : ascii) : Quote.char_of (uint8_t (Quote.code c)) = c.
Proof.
  unfold Quote.char_of, Quote.code, uint8_t.
  pose proof (N_ascii_bounded c) as Hb.
  rewrite (Z.mod_small (Z.of_N (N_of_ascii c))) by lia.
  rewrite (Z.mod_small (Z.of_N (N_of_ascii c))) by lia.
  rewrite N2Z.id. apply ascii_N_embedding.
Qed.

Lemma uint8_code (c : ascii) : uint8_t (Quote.code c) = Quote.code c.
Proof.
  unfold Quote.code, uint8_t. pose proof (N_ascii_bounded c) as Hb.
  apply Z.mod_small. lia.
Qed.

(** X16. [valid_dosname] keeps the length of the name and leaves no
    character that it holds to be invalid: control characters, the
    space, bytes from 128 on, the double quote and the characters
    [* + , / : ; < = > ? \ | $] and both square brackets all become an
    underscore.  A name
    without such characters comes back as it is, so applying the
    function twice gives what applying it once gives. *)
Theorem valid_dosname_is_valid (name : string) :
  String.length (valid_dosname name) = String.length name /\
  (forall c, In c (list_ascii_of_string (valid_dosname name)) ->
             dos_invalid (Quote.code c) = false) /\
  ((forall c, In c (list_ascii_of_string name) -> dos_invalid (Quote.code c) = false) ->
   valid_dosname name = name) /\
  valid_dosname (valid_dosname name) = valid_dosname name.
Proof.
  assert (Hfix : forall n : string,
    (forall c, In c (list_ascii_of_string n) -> dos_invalid (Quote.code c) = false) ->
    valid_dosname n = n).
  { induction n as [|a rest IH]; intros Hall; [reflexivity|].
    cbn [valid_dosname]. cbv zeta. rewrite uint8_code.
    rewrite (Hall a) by (left; reflexivity).
    rewrite <- (uint8_code a), char_of_code. rewrite IH; [reflexivity|].
    intros c Hin. apply Hall. right. exact Hin. }
  assert (Hvalid : forall n c, In c (list_ascii_of_string (valid_dosname n)) ->
                               dos_invalid (Quote.code c) = false).
  { induction n as [|a rest IH]; intros c Hin; [destruct Hin|].
    cbn [valid_dosname list_ascii_of_string] in Hin. cbv zeta in Hin.
    destruct Hin as [<- | Hin]; [|apply IH; exact Hin].
    rewrite uint8_code.
    destruct (dos_invalid (Quote.code a)) eqn:Ha; [reflexivity|].
    rewrite <- (uint8_code a), char_of_code. exact Ha. }
  split; [|split; [|split]].
  - induction name as [|a rest IH]; [reflexivity|].
    cbn [valid_dosname String.length]. rewrite IH. reflexivity.
  - apply Hvalid.
  - apply Hfix.
  - apply Hfix. apply Hvalid.
Qed.

End StrsFacts.

(** ** More facts about the feature recorder and its set *)

Module FRMore.
Import FR Props FRFacts.

Lemma length_substring_le (s : string) :
  forall n m : nat, (String.length (substring n m s) <= m)%nat.
Proof.
  induction s as [|a t IH]; intros n m.
  - destruct n, m; cbn; lia.
  - destruct n as [|n].
    + destruct m as [|m]; cbn [substring String.length]; [lia|].
      specialize (IH 0%nat m). lia.
    + cbn [substring]. apply IH.
Qed.

Lemma strlen_resize (s : string) (n : Z) : 0 <= n -> strlen (resize s n) <= n.
Proof.
  intros Hn. unfold strlen, resize.
  pose proof (length_substring_le s 0 (Z.to_nat n)). lia.
Qed.

Section WithExternals.
Context `{!Externals}.

(** What [quote_if_necessary] gives fits the sizes of the definition. *)
Lemma quote_if_necessary_sizes (d : feature_recorder_def) (feature context : string) :
  0 <= max_feature_size d ->
  strlen (fst (quote_if_necessary d feature context)) <= max_feature_size d /\
  (no_context (flags d) = false -> 0 <= max_context_size d ->
   strlen (snd (quote_if_necessary d feature context)) <= max_context_size d) /\
  (no_context (flags d) = true -> snd (quote_if_necessary d feature context) = context).
Proof.
  intros Hf. unfold quote_if_necessary.
  destruct (no_quote (flags d)); destruct (xml (flags d)); cbv zeta iota beta;
    cbn [fst snd]; (split; [|split]);
    try (match goal with
         | |- context [strlen ?x >? max_feature_size d] =>
             destruct (Z.gtb_spec (strlen x) (max_feature_size d));
             [apply strlen_resize; exact Hf | lia]
         end);
    try (intros Hnc Hc; rewrite Hnc; cbn [negb];
         match goal with
         | |- context [strlen ?x >? max_context_size d] =>
             destruct (Z.gtb_spec (strlen x) (max_context_size d));
             [apply strlen_resize; exact Hc | lia]
         end);
    try (intros Hnc; rewrite Hnc; reflexivity).
Qed.


(** X18. Histograms have to be added before the first feature: once a
    [write] has recorded a feature on a recorder, [histogram_add] for
    that recorder throws the runtime error "Cannot add histograms after
    features have been written." *)
Theorem no_histogram_after_write (fuel : nat) (fs fs' : feature_recorder_set)
  (rname : string) (r : feature_recorder) (pos0 : pos0_t) (feature_ context_ : string)
  (h : histogram_def) :
  frm fs !! rname = Some r ->
  disabled (set_flags fs) = false ->
  stop_list fs = None ->
  0 <= features_written r < 2 ^ 64 - 1 ->
  write (S fuel) fs rname pos0 feature_ context_ = Ret fs' ->
  fs' <> fs ->
  feature h = rname ->
  set_histogram_add fs' h =
  Throw (runtime_error "Cannot add histograms after features have been written.").
Proof.
  intros Hr Hd Hs Hfw Hw Hne Hh. cbn [write] in Hw. rewrite Hr, Hd in Hw.
  destruct (write_prepare fs r feature_ context_)
    as [[[[feature context] futf8]|]| | | |] eqn:Hp; cbn [mbind res_bind] in Hw;
    try discriminate.
  2: { inversion Hw. congruence. }
  assert (Hoff : on_stop_list fs r futf8 context = None).
  { unfold on_stop_list. rewrite Hs. destruct (no_stoplist (flags (def r))); reflexivity. }
  rewrite Hoff in Hw. inversion Hw; subst fs'. clear Hw.
  unfold set_histogram_add, named_feature_recorder. rewrite Hh.
  cbn [frm set_frm]. rewrite lookup_insert_eq. cbn [mbind res_bind].
  unfold histogram_add, write0. rewrite Hd.
  cbn [features_written histograms_add_feature].
  unfold uint64_t. rewrite Z.mod_small by lia.
  destruct (Z.eqb_spec (features_written r + 1) 0); [lia|]. reflexivity.
Qed.

(** X19. In [write_buf] the context is cut around the feature: for a
    position inside the buffer and without wrap-around of the sums, the
    feature has [min(len, bufsize - pos)] bytes, the context runs from
    [max(0, pos - context_window)] to
    [min(bufsize, pos + len + context_window)], which holds the
    feature and lies inside the buffer, and the assertion [p0 <= p1]
    does not fail. *)
Theorem write_buf_context_surrounds (r : feature_recorder) (sbuf : Sbuf.sbuf_t)
  (pos len : Z) :
  0 <= pos < Sbuf.bufsize sbuf -> 0 <= len -> 0 <= context_window r ->
  pos + len + context_window r < 2 ^ 64 -> Sbuf.bufsize sbuf < 2 ^ 64 ->
  let len' := write_buf_len sbuf pos len in
  let p0 := Z.max 0 (pos - context_window r) in
  let p1 := Z.min (Sbuf.bufsize sbuf) (pos + len' + context_window r) in
  len' = Z.min len (Sbuf.bufsize sbuf - pos) /\
  write_buf_context r sbuf pos len' = sbuf_substr sbuf p0 (p1 - p0) /\
  p0 <= pos /\ pos + len' <= p1 <= Sbuf.bufsize sbuf.
Proof.
  intros Hpos Hlen Hcw Hsum Hmax len' p0 p1.
  assert (Hl : len' = Z.min len (Sbuf.bufsize sbuf - pos)).
  { subst len'. unfold write_buf_len, size_t_wrap.
    rewrite (Z.mod_small (pos + len)) by lia.
    destruct (Z.gtb_spec (pos + len) (Sbuf.bufsize sbuf)); [|lia].
    rewrite Z.mod_small by lia. lia. }
  split; [exact Hl|]. split; [|subst p0 p1; lia].
  unfold write_buf_context, size_t_wrap.
  rewrite (Z.mod_small (pos + len' + context_window r)) by lia.
  assert (Hp1 : (if pos + len' + context_window r >? Sbuf.bufsize sbuf
                 then Sbuf.bufsize sbuf else pos + len' + context_window r) = p1)
    by (subst p1; destruct (Z.gtb_spec (pos + len' + context_window r) (Sbuf.bufsize sbuf)); lia).
  rewrite Hp1.
  assert (Hp0 : (if context_window r <? pos
                 then (pos - context_window r) mod 2 ^ 64 else 0) = p0).
  { subst p0. destruct (Z.ltb_spec (context_window r) pos); [|lia].
    rewrite Z.mod_small by lia. lia. }
  rewrite Hp0.
  destruct (Z.leb_spec p0 p1); [|subst p0 p1; lia].
  rewrite Z.mod_small by (subst p0 p1; lia). reflexivity.
Qed.

(** X20. A recorder that has been created is found under its name, as
    the constructor left it, and no other name is affected; before, the
    name is answered with [NoSuchFeatureRecorder], and creating a
    recorder of the same name again is answered with
    [FeatureRecorderAlreadyExists]. *)
Theorem create_then_named (fs : feature_recorder_set) (d : feature_recorder_def) :
  xorb (record_files (set_flags fs)) (record_sql (set_flags fs)) = true ->
  frm fs !! def_name d = None ->
  named_feature_recorder fs (def_name d)
    = Throw (NoSuchFeatureRecorder ("No such feature recorder: " +:+ def_name d)) /\
  exists fs',
    create_feature_recorder fs d = Ret fs' /\
    named_feature_recorder fs' (def_name d) = Ret (new_recorder d) /\
    (forall n, n <> def_name d ->
               named_feature_recorder fs' n = named_feature_recorder fs n) /\
    (forall d', def_name d' = def_name d ->
                create_feature_recorder fs' d' =
                Throw (FeatureRecorderAlreadyExists
                         ("feature recorder already exists: " +:+ def_name d))) /\
    set_flags fs' = set_flags fs /\ disk fs' = disk fs.
Proof.
  intros Hx Hnone. split.
  { unfold named_feature_recorder. rewrite Hnone. reflexivity. }
  unfold create_feature_recorder.
  destruct (record_files (set_flags fs)) eqn:Hf;
    destruct (record_sql (set_flags fs)) eqn:Hq; try discriminate;
    cbn [andb negb]; rewrite Hnone;
    (eexists; split; [reflexivity|]);
    unfold named_feature_recorder; cbn [frm set_frm set_flags disk];
    rewrite lookup_insert_eq;
    (split; [reflexivity|]);
    (split; [intros n Hn; rewrite lookup_insert_ne by done; reflexivity|]);
    (split; [|split; reflexivity]);
    intros d' Hd'; rewrite Hf, Hq; cbn [andb negb]; rewrite Hd', lookup_insert_eq;
    reflexivity.
Qed.

Lemma write_disabled (fuel : nat) (fs : feature_recorder_set) (rname : string)
  (r : feature_recorder) (pos0 : pos0_t) (feature_ context_ : string) :
  frm fs !! rname = Some r -> disabled (set_flags fs) = true ->
  write (S fuel) fs rname pos0 feature_ context_ = Ret fs.
Proof. intros Hr Hd. cbn [write]. rewrite Hr, Hd. reflexivity. Qed.

(** X21. [carve] does not look at the flag [disabled] of the set: in a
    disabled set a buffer that has not been carved before is written
    to its file all the same, while the [write] of its record does
    nothing, so the file has no line in the feature file. *)
Theorem carve_ignores_disabled (fuel : nat) (fs : feature_recorder_set) (rname : string)
  (r : feature_recorder) (header data : Sbuf.sbuf_t) (ext : string) (mtime : Z) :
  frm fs !! rname = Some r ->
  disabled (set_flags fs) = true ->
  carves_in (carve_mode r) (do_not_carve_encoding r) data ->
  hash fs data ∉ carve_cache r ->
  file_open_ok (carved_absolute_path fs r data ext (carved_file_count r)) = true ->
  file_write_ok (carved_absolute_path fs r data ext (carved_file_count r)) = true ->
  exists fs' r',
    carve (S fuel) fs rname header data ext mtime
      = (Ret (carved_relative_path r data ext (carved_file_count r)), fs') /\
    In (file_written (carved_absolute_path fs r data ext (carved_file_count r))
                     (sbuf_bytes header ++ sbuf_bytes data)%list) (disk fs') /\
    files_written (disk fs') = S (files_written (disk fs)) /\
    frm fs' !! rname = Some r' /\
    write0_log r' = write0_log r /\ features_written r' = features_written r.
Proof.
  intros Hr Hd Hc Hnot Hopen Hwrite.
  assert (Hbody : carve (S fuel) fs rname header data ext mtime =
                  carve_body (S fuel) fs rname r header data ext mtime).
  { unfold carve. rewrite Hr. unfold carves_in in Hc.
    destruct (carve_mode r); [contradiction | | reflexivity].
    destruct Hc as [Hp Ha].
    destruct (Z.eqb_spec (strlen (path (Sbuf.pos0 data))) 0); [contradiction|].
    destruct (String.eqb_spec (alphaPart (Sbuf.pos0 data)) (do_not_carve_encoding r));
      [contradiction | reflexivity]. }
  rewrite Hbody. unfold carve_body. rewrite (bool_decide_eq_false_2 _ Hnot).
  rewrite (write_disabled fuel (carve_reserve fs rname r (hash fs data)) rname
             (set_carve_state r ({[ hash fs data ]} ∪ carve_cache r)
                              (to_signed 64 (carved_file_count r + 1))));
    [| cbn [carve_reserve frm add_disk set_frm]; apply lookup_insert_eq | exact Hd].
  rewrite Hopen, Hwrite. cbn [negb].
  eexists. eexists. split; [reflexivity|].
  assert (Hfw : forall evs l, files_written (evs ++ l) = (files_written evs + files_written l)%nat).
  { induction evs as [|e evs IH]; intros l; [reflexivity|].
    destruct e; cbn [files_written app]; rewrite IH; reflexivity. }
  destruct (mtime >? 0); cbn [disk add_disk set_frm frm carve_reserve];
    rewrite ?Hfw; cbn [files_written];
    (split; [rewrite ?in_app_iff; cbn [In]; tauto|]);
    (split; [lia|]); rewrite lookup_insert_eq;
    (split; [reflexivity|]); split; reflexivity.
Qed.

End WithExternals.
End FRMore.

(** ** More facts about the scanner set *)

Module SSMore.
Import FR SS Props SSOps FRFacts SSFacts.

Lemma db_find_insert_eq (k : N) (v : scanner_info) (db : list (N * scanner_info)) :
  db_find k (db_insert k v db) = Some v.
Proof.
  induction db as [|[k' v'] t IH]; cbn [db_insert db_find].
  - rewrite N.eqb_refl. reflexivity.
  - destruct (N.ltb k k'); [cbn [db_find]; rewrite N.eqb_refl; reflexivity|].
    destruct (N.eqb k k') eqn:He; cbn [db_find].
    + rewrite N.eqb_refl. reflexivity.
    + rewrite He. exact IH.
Qed.

Lemma db_find_insert_ne (k k' : N) (v : scanner_info) (db : list (N * scanner_info)) :
  k' <> k -> db_find k' (db_insert k v db) = db_find k' db.
Proof.
  intros Hne. apply N.eqb_neq in Hne.
  induction db as [|[k1 v1] t IH]; cbn [db_insert db_find].
  - rewrite Hne. reflexivity.
  - destruct (N.ltb k k1); [cbn [db_find]; rewrite Hne; reflexivity|].
    destruct (N.eqb_spec k k1) as [<- | Hk]; cbn [db_find].
    + rewrite Hne. reflexivity.
    + destruct (N.eqb k' k1); [reflexivity | exact IH].
Qed.

Lemma set_mem_insert (k x : N) (s : list N) :
  set_mem k (set_insert x s) = N.eqb k x || set_mem k s.
Proof.
  induction s as [|y t IH]; cbn [set_insert set_mem]; [reflexivity|].
  destruct (N.ltb x y); [reflexivity|].
  destruct (N.eqb_spec x y) as [<- | Hxy]; cbn [set_mem].
  - destruct (N.eqb k x); reflexivity.
  - rewrite IH. destruct (N.eqb k y), (N.eqb k x); reflexivity.
Qed.

Lemma set_mem_erase (k x : N) (s : list N) :
  set_mem k (set_erase x s) = negb (N.eqb k x) && set_mem k s.
Proof.
  induction s as [|y t IH]; cbn [set_erase set_mem]; [apply eq_sym, andb_false_r|].
  destruct (N.eqb_spec x y) as [<- | Hxy].
  - rewrite IH. destruct (N.eqb k x); reflexivity.
  - cbn [set_mem]. rewrite IH.
    destruct (N.eqb_spec k y) as [-> | Hky]; [|reflexivity].
    destruct (N.eqb_spec y x) as [-> | _]; [contradiction | reflexivity].
Qed.

Lemma set_mem_In (k : N) (s : list N) : set_mem k s = true <-> In k s.
Proof.
  induction s as [|y t IH]; cbn [set_mem In]; [split; [discriminate | contradiction]|].
  destruct (N.eqb_spec k y) as [-> | Hne].
  - split; [left; reflexivity | reflexivity].
  - rewrite IH. split; [right; assumption | intros [-> | Hin]; [contradiction | exact Hin]].
Qed.

Lemma db_find_None (k : N) (db : list (N * scanner_info)) :
  ~ In k (map fst db) -> db_find k db = None.
Proof.
  induction db as [|[k' v] t IH]; intros Hn; [reflexivity|].
  cbn [db_find]. destruct (N.eqb_spec k k') as [-> | Hne].
  - exfalso. apply Hn. left. reflexivity.
  - apply IH. intros Hin. apply Hn. right. exact Hin.
Qed.

Lemma db_find_In (k : N) (i : scanner_info) (db : list (N * scanner_info)) :
  db_find k db = Some i -> In (k, i) db.
Proof.
  induction db as [|[k' v] t IH]; [discriminate|].
  cbn [db_find]. destruct (N.eqb_spec k k') as [-> | Hne].
  - intros [= ->]. left. reflexivity.
  - intros Hf. right. apply IH. exact Hf.
Qed.

Lemma In_db_find (k : N) (i : scanner_info) (db : list (N * scanner_info)) :
  NoDup (map fst db) -> In (k, i) db -> db_find k db = Some i.
Proof.
  induction db as [|[k' v] t IH]; intros Hnd Hin; [destruct Hin|].
  cbn [map fst] in Hnd. apply NoDup_cons in Hnd as [Hnot Hnd].
  cbn [db_find]. destruct Hin as [[= -> ->] | Hin].
  - rewrite N.eqb_refl. reflexivity.
  - destruct (N.eqb_spec k k') as [-> | Hne]; [|apply IH; assumption].
    exfalso. apply Hnot. apply list_elem_of_In.
    change k' with (fst (k', i)). apply in_map. exact Hin.
Qed.

Lemma by_name_found (db : list (N * scanner_info)) (n : string) (k : N) :
  get_scanner_by_name_in db n = Ret k ->
  exists i, In (k, i) db /\ si_name i = n.
Proof.
  induction db as [|[k' v] t IH]; [discriminate|].
  cbn [get_scanner_by_name_in]. destruct (String.eqb_spec (si_name v) n) as [Hn | Hn].
  - intros [= <-]. exists v. split; [left; reflexivity | exact Hn].
  - intros Hf. destruct (IH Hf) as (i & Hin & Hi). exists i. split; [right; exact Hin | exact Hi].
Qed.

Lemma by_name_missing (db : list (N * scanner_info)) (n : string) :
  (forall k i, In (k, i) db -> si_name i <> n) ->
  get_scanner_by_name_in db n = Throw (NoSuchScanner n).
Proof.
  induction db as [|[k' v] t IH]; intros Hall; [reflexivity|].
  cbn [get_scanner_by_name_in].
  destruct (String.eqb_spec (si_name v) n) as [Hn | Hn].
  - exfalso. apply (Hall k' v); [left; reflexivity | exact Hn].
  - apply IH. intros k i Hin. apply (Hall k i). right. exact Hin.
Qed.

Section WithScanners.
Context `{!Externals} `{!Scanners}.

(** X22. [add_scanner] registers a scanner that is not registered yet and
    that sets its [info]: afterwards the scanner is found with this
    [info], it is in the enabled set when its [default_enabled] is set
    (or it was there before), no other scanner is touched, the
    recorders and the phase are as before, and adding the scanner once
    more throws "scanner already added". *)
Theorem add_scanner_registers (ss : scanner_set) (k : N) (info : scanner_info) :
  db_find k (scanner_info_db ss) = None ->
  scanner_init k = Some info ->
  exists ss',
    add_scanner ss k = Ret ss' /\
    db_find k (scanner_info_db ss') = Some info /\
    (forall k', k' <> k ->
       db_find k' (scanner_info_db ss') = db_find k' (scanner_info_db ss) /\
       set_mem k' (enabled_scanners ss') = set_mem k' (enabled_scanners ss)) /\
    set_mem k (enabled_scanners ss')
      = default_enabled (scanner_flags info) || set_mem k (enabled_scanners ss) /\
    fs ss' = fs ss /\ current_phase ss' = current_phase ss /\
    add_scanner ss' k = Throw (runtime_error "scanner already added").
Proof.
  intros Hnew Hinit. unfold add_scanner at 1. rewrite Hnew, Hinit, db_find_insert_eq.
  destruct (default_enabled (scanner_flags info)) eqn:Hde;
    (eexists; split; [reflexivity|]);
    cbn [scanner_info_db enabled_scanners fs current_phase set_db];
    (split; [apply db_find_insert_eq|]);
    (split; [intros k' Hne; split;
             [apply db_find_insert_ne; exact Hne
             | rewrite ?set_mem_insert; apply N.eqb_neq in Hne; rewrite ?Hne; reflexivity]|]);
    (split; [rewrite ?set_mem_insert, ?N.eqb_refl; reflexivity|]);
    (split; [reflexivity|]); (split; [reflexivity|]);
    unfold add_scanner; cbn [scanner_info_db set_db]; rewrite db_find_insert_eq; reflexivity.
Qed.

Lemma In_set_insert (k x : N) (s : list N) : In k (set_insert x s) -> k = x \/ In k s.
Proof.
  intros Hin. apply set_mem_In in Hin. rewrite set_mem_insert in Hin.
  apply orb_true_iff in Hin as [He | Hm].
  - left. apply N.eqb_eq. exact He.
  - right. apply set_mem_In. exact Hm.
Qed.

Lemma In_set_erase (k x : N) (s : list N) : In k (set_erase x s) -> In k s.
Proof.
  intros Hin. apply set_mem_In in Hin. rewrite set_mem_erase in Hin.
  apply andb_true_iff in Hin as [_ Hm]. apply set_mem_In. exact Hm.
Qed.

Lemma apply_to_all_registered (full : list (N * scanner_info)) (c : command_t) :
  forall (db : list (N * scanner_info)) (en : list N),
    (forall k i, In (k, i) db -> db_find k full <> None) ->
    (forall k, In k en -> db_find k full <> None) ->
    forall k, In k (apply_to_all db c en) -> db_find k full <> None.
Proof.
  induction db as [|[k' i'] t IH]; intros en Hdb Hen k Hin; [apply Hen; exact Hin|].
  cbn [apply_to_all] in Hin.
  assert (Ht : forall k i, In (k, i) t -> db_find k full <> None)
    by (intros k0 i0 Hx0; apply (Hdb k0 i0); right; exact Hx0).
  destruct (no_all (scanner_flags i')); [apply (IH en Ht Hen k Hin)|].
  destruct c.
  - apply (IH (set_erase k' en) Ht); [|exact Hin].
    intros k0 Hx0. apply Hen. apply In_set_erase in Hx0. exact Hx0.
  - apply (IH (set_insert k' en) Ht); [|exact Hin].
    intros k0 Hx0. apply In_set_insert in Hx0 as [-> | Hx0]; [|apply Hen; exact Hx0].
    apply (Hdb k' i'). left. reflexivity.
Qed.

Lemma In_db_registered (db : list (N * scanner_info)) (k : N) (i : scanner_info) :
  In (k, i) db -> db_find k db <> None.
Proof.
  induction db as [|[k' v] t IH]; intros Hin; [destruct Hin|].
  cbn [db_find]. destruct (N.eqb_spec k k'); [discriminate|].
  destruct Hin as [[= -> ->] | Hin]; [contradiction | apply IH; exact Hin].
Qed.

Lemma apply_commands_registered (db : list (N * scanner_info)) (cmds : list scanner_command) :
  forall en en' : list N,
    (forall k, In k en -> db_find k db <> None) ->
    apply_commands db cmds en = Ret en' ->
    forall k, In k en' -> db_find k db <> None.
Proof.
  induction cmds as [|cmd rest IH]; intros en en' Hen Hap.
  { inversion Hap; subst. exact Hen. }
  cbn [apply_commands] in Hap.
  destruct (String.eqb (scannerName cmd) ALL_SCANNERS).
  - apply (IH _ _ (apply_to_all_registered db (command cmd) db en
                     (In_db_registered db) Hen) Hap).
  - destruct (get_scanner_by_name_in db (scannerName cmd)) as [sc| | | |] eqn:Hsc;
      try discriminate. cbn [mbind res_bind] in Hap.
    apply by_name_found in Hsc as (i & Hin & _).
    destruct (command cmd).
    + apply (IH _ _ (fun k Hx0 => Hen k (In_set_erase k sc en Hx0)) Hap).
    + refine (IH _ _ _ Hap). intros k Hx0.
      apply In_set_insert in Hx0 as [-> | Hx0]; [|apply Hen; exact Hx0].
      apply (In_db_registered db sc i Hin).
Qed.

Lemma enabled_names_defined (db : list (N * scanner_info)) (en : list N) :
  (forall k, In k en -> db_find k db <> None) ->
  exists names, enabled_names db en = Ret names /\
    names = map (fun k => match db_find k db with Some i => si_name i | None => "" end) en.
Proof.
  induction en as [|k rest IH]; intros Hen; [exists []; split; reflexivity|].
  cbn [enabled_names map].
  destruct (db_find k db) as [i|] eqn:Hk; [|exfalso; apply (Hen k); [left; reflexivity | exact Hk]].
  destruct IH as (names & Hn & Hm); [intros k0 Hx0; apply Hen; right; exact Hx0|].
  rewrite Hn. cbn [mbind res_bind]. eexists. split; [reflexivity|]. rewrite Hm. reflexivity.
Qed.

Lemma find_scanner_among_defined (db : list (N * scanner_info)) (en : list N) :
  (forall k, In k en -> db_find k db <> None) ->
  exists b, find_scanner_among db en = Ret b.
Proof.
  induction en as [|k rest IH]; intros Hen; [exists false; reflexivity|].
  cbn [find_scanner_among].
  destruct (db_find k db) as [i|] eqn:Hk; [|exfalso; apply (Hen k); [left; reflexivity | exact Hk]].
  destruct (find_scanner (scanner_flags i)); [exists true; reflexivity|].
  apply IH. intros k0 Hx0. apply Hen. right. exact Hx0.
Qed.

(** X23. Every scanner of the enabled set is registered: [add_scanner]
    and [apply_scanner_commands] keep it so, and while it is so
    [get_enabled_scanners] gives the names of the enabled scanners in
    the order of the set and [is_find_scanner_enabled] gives an answer,
    neither of them reaching behind the map of the scanners. *)
Theorem enabled_scanners_are_registered (ss : scanner_set) :
  enabled_registered ss ->
  (forall k ss', add_scanner ss k = Ret ss' -> enabled_registered ss') /\
  (forall ss', apply_scanner_commands ss = Ret ss' -> enabled_registered ss') /\
  get_enabled_scanners ss = Ret (map (get_scanner_name ss) (enabled_scanners ss)) /\
  exists b, is_find_scanner_enabled ss = Ret b.
Proof.
  intros Hinv. split; [|split; [|split]].
  - intros k ss' Hadd. unfold add_scanner in Hadd.
    destruct (db_find k (scanner_info_db ss)) eqn:Hk; [discriminate|].
    destruct (scanner_init k) as [info|]; [|discriminate].
    rewrite db_find_insert_eq in Hadd.
    assert (Hold : forall k0, In k0 (enabled_scanners ss) ->
                   db_find k0 (db_insert k info (scanner_info_db ss)) <> None).
    { intros k0 Hx0. destruct (N.eq_dec k0 k) as [-> | Hne].
      - rewrite db_find_insert_eq. discriminate.
      - rewrite db_find_insert_ne by exact Hne. apply Hinv. exact Hx0. }
    destruct (default_enabled (scanner_flags info)); inversion Hadd; subst ss';
      unfold enabled_registered; cbn [enabled_scanners scanner_info_db set_db].
    + intros k0 Hx0. apply In_set_insert in Hx0 as [-> | Hx0]; [|apply Hold; exact Hx0].
      rewrite db_find_insert_eq. discriminate.
    + exact Hold.
  - intros ss' Hap. unfold apply_scanner_commands in Hap.
    destruct (negb (phase_eqb (current_phase ss) PHASE_INIT)); [discriminate|].
    destruct (apply_commands _ _ _) as [en| | | |] eqn:Hen; try discriminate.
    cbn [mbind res_bind] in Hap.
    destruct (create_alert_recorder (fs ss)); try discriminate. cbn [mbind res_bind] in Hap.
    destruct (create_requested _ _); try discriminate. cbn [mbind res_bind] in Hap.
    inversion Hap; subst ss'. unfold enabled_registered.
    cbn [enabled_scanners scanner_info_db set_db set_fs set_phase].
    apply (apply_commands_registered _ _ _ _ Hinv Hen).
  - unfold get_enabled_scanners.
    destruct (enabled_names_defined (scanner_info_db ss) (enabled_scanners ss) Hinv)
      as (names & Hn & ->). exact Hn.
  - apply find_scanner_among_defined. exact Hinv.
Qed.

(** X24. Names and scanners go together: in a map with one entry for
    each scanner, the scanner that [get_scanner_by_name] finds for a
    name has this name according to [get_scanner_name], and
    [is_scanner_enabled] tells for the name whether this scanner is in
    the enabled set; and a name that no registered scanner has makes
    [get_scanner_by_name] and [is_scanner_enabled] throw
    [NoSuchScanner] with this name. *)
Theorem scanner_names_round_trip (ss : scanner_set) (n : string) :
  NoDup (map fst (scanner_info_db ss)) ->
  (forall k, get_scanner_by_name ss n = Ret k ->
             get_scanner_name ss k = n /\
             is_scanner_enabled ss n = Ret (set_mem k (enabled_scanners ss))) /\
  ((forall k i, In (k, i) (scanner_info_db ss) -> si_name i <> n) ->
   get_scanner_by_name ss n = Throw (NoSuchScanner n) /\
   is_scanner_enabled ss n = Throw (NoSuchScanner n)).
Proof.
  intros Hnd. split.
  - intros k Hk. split.
    + unfold get_scanner_by_name in Hk. apply by_name_found in Hk as (i & Hin & Hi).
      unfold get_scanner_name. rewrite (In_db_find k i _ Hnd Hin). exact Hi.
    + unfold is_scanner_enabled. rewrite Hk. reflexivity.
  - intros Hall. unfold is_scanner_enabled, get_scanner_by_name.
    rewrite (by_name_missing _ n Hall). split; reflexivity.
Qed.

Lemma apply_to_all_mem (c : command_t) (k : N) :
  forall (db : list (N * scanner_info)) (en : list N),
    NoDup (map fst db) ->
    set_mem k (apply_to_all db c en) =
    match db_find k db with
    | Some i => if no_all (scanner_flags i) then set_mem k en else switch c
    | None => set_mem k en
    end.
Proof.
  induction db as [|[k' i'] t IH]; intros en Hnd; [reflexivity|].
  cbn [map fst] in Hnd. apply NoDup_cons in Hnd as [Hnot Hnd].
  cbn [apply_to_all db_find].
  destruct (N.eqb_spec k k') as [-> | Hne].
  - assert (Hnone : db_find k' t = None)
      by (apply db_find_None; intros Hin; apply Hnot; apply list_elem_of_In; exact Hin).
    destruct (no_all (scanner_flags i')); [rewrite IH, Hnone by exact Hnd; reflexivity|].
    destruct c; rewrite IH, Hnone by exact Hnd.
    + rewrite set_mem_erase, N.eqb_refl. reflexivity.
    + rewrite set_mem_insert, N.eqb_refl. reflexivity.
  - apply N.eqb_neq in Hne.
    destruct (no_all (scanner_flags i')); [apply IH; exact Hnd|].
    destruct c; rewrite IH by exact Hnd.
    + rewrite set_mem_erase, Hne. reflexivity.
    + rewrite set_mem_insert, Hne. reflexivity.
Qed.

(** X25. The last command decides: after the loop of
    [apply_scanner_commands] over the commands, a scanner is enabled if
    the last command that applies to it says [ENABLE], disabled if it
    says [DISABLE], and as before if none applies.  A command with the
    name of [ALL_SCANNERS] applies to every registered scanner without
    the flag [no_all], any other command to the first scanner of its
    name; a command with a name that no scanner has makes the loop
    throw [NoSuchScanner]. *)
Theorem last_command_decides (db : list (N * scanner_info)) (cmds : list scanner_command)
  (en : list N) :
  NoDup (map fst db) ->
  (forall en', apply_commands db cmds en = Ret en' ->
     forall k, set_mem k en' = enabled_after db cmds k (set_mem k en)) /\
  (forall cmd, In cmd cmds ->
     String.eqb (scannerName cmd) ALL_SCANNERS = false ->
     (forall k i, In (k, i) db -> si_name i <> scannerName cmd) ->
     exists n, apply_commands db cmds en = Throw (NoSuchScanner n)).
Proof.
  intros Hnd. split.
  - revert en. induction cmds as [|cmd rest IH]; intros en en' Hap k.
    { inversion Hap; subst. reflexivity. }
    cbn [apply_commands] in Hap. cbn [enabled_after]. unfold addresses.
    destruct (String.eqb (scannerName cmd) ALL_SCANNERS).
    + rewrite (IH _ _ Hap k). f_equal. rewrite apply_to_all_mem by exact Hnd.
      destruct (db_find k db) as [i|]; [|reflexivity].
      destruct (no_all (scanner_flags i)); reflexivity.
    + destruct (get_scanner_by_name_in db (scannerName cmd)) as [sc| | | |];
        try discriminate. cbn [mbind res_bind] in Hap.
      destruct (command cmd); rewrite (IH _ _ Hap k); f_equal; cbn [switch].
      * rewrite set_mem_erase. destruct (N.eqb k sc); reflexivity.
      * rewrite set_mem_insert. destruct (N.eqb k sc); reflexivity.
  - revert en. induction cmds as [|c0 rest IH]; intros en cmd Hin Hname Hmiss;
      [destruct Hin|].
    cbn [apply_commands].
    destruct (String.eqb (scannerName c0) ALL_SCANNERS) eqn:Hall.
    + destruct Hin as [-> | Hin]; [congruence|]. apply (IH _ cmd Hin Hname Hmiss).
    + destruct (get_scanner_by_name_in db (scannerName c0)) as [sc|e| | |] eqn:Hsc;
        cbn [mbind res_bind].
      * destruct Hin as [-> | Hin].
        { rewrite (by_name_missing db _ Hmiss) in Hsc. discriminate. }
        destruct (command c0); apply (IH _ cmd Hin Hname Hmiss).
      * assert (He : exists n, e = NoSuchScanner n).
        { clear -Hsc. induction db as [|[k' v] t IHd]; cbn [get_scanner_by_name_in] in Hsc.
          - inversion Hsc. eauto.
          - destruct (String.eqb (si_name v) (scannerName c0)); [discriminate | auto]. }
        destruct He as [n ->]. exists n. reflexivity.
      * exfalso. clear -Hsc. induction db as [|[k' v] t IHd]; cbn [get_scanner_by_name_in] in Hsc;
          [discriminate|]. destruct (String.eqb (si_name v) (scannerName c0)); [discriminate | auto].
      * exfalso. clear -Hsc. induction db as [|[k' v] t IHd]; cbn [get_scanner_by_name_in] in Hsc;
          [discriminate|]. destruct (String.eqb (si_name v) (scannerName c0)); [discriminate | auto].
      * exfalso. clear -Hsc. induction db as [|[k' v] t IHd]; cbn [get_scanner_by_name_in] in Hsc;
          [discriminate|]. destruct (String.eqb (si_name v) (scannerName c0)); [discriminate | auto].
Qed.

End WithScanners.
End SSMore.

(** ** More facts about the processing of a buffer *)

Module ProcessMore.
Import FR SS Props SSOps FRFacts SSFacts SSMore.

Section WithScanners.
Context `{!Externals} `{!Scanners}.

Lemma same_config_refl (ss : scanner_set) : same_config ss ss.
Proof. repeat split. Qed.

(** The dispatch loop changes the recorders and the list of the
    scanners called, and nothing else. *)
Lemma dispatch_frame (fuel : nat) (sbuf : Sbuf.sbuf_t) (seen_before : bool) (ngram_size : Z)
  (db : list (N * scanner_info)) :
  forall (ss : scanner_set) (children : Z),
    same_config ss (snd (dispatch fuel db ss sbuf seen_before ngram_size children)) /\
    sbuf_seen_set (snd (dispatch fuel db ss sbuf seen_before ngram_size children))
      = sbuf_seen_set ss /\
    max_depth_seen (snd (dispatch fuel db ss sbuf seen_before ngram_size children))
      = max_depth_seen ss /\
    dup_bytes_encountered (snd (dispatch fuel db ss sbuf seen_before ngram_size children))
      = dup_bytes_encountered ss.
Proof.
  induction db as [|[k i] tl IH]; intros ss children.
  { cbn [dispatch snd]. repeat split. }
  cbn [dispatch].
  destruct (skipped ss sbuf seen_before ngram_size k i); [apply IH|].
  destruct (scanner_scan k sbuf children (fs ss)) as [[out children1] f1].
  match goal with
  | |- context [match ?h with Ret _ => _ | _ => _ end] => destruct h as [f2| | | |]
  end; cbn [snd]; try (repeat split).
  all: destruct (IH (set_fs (add_invoked (set_fs ss f1) k) f2) children1)
         as ((Hc1 & Hc2 & Hc3 & Hc4 & Hc5 & Hc6 & Hc7) & Hs & Hm & Hd);
       cbn [scanner_commands scanner_info_db enabled_scanners max_depth max_ngram
            dup_data_alerts current_phase sbuf_seen_set max_depth_seen
            dup_bytes_encountered set_fs add_invoked] in *; assumption.
Qed.

Lemma tail_state (X : res Z * scanner_set) :
  snd (let '(r, ss') := X in
       match r with
       | Ret c => if c =? 0 then (Ret tt, ss') else (Abort, ss')
       | Throw e => (Throw e, ss')
       | Abort => (Abort, ss')
       | Undef => (Undef, ss')
       | NoFuel => (NoFuel, ss')
       end) = snd X.
Proof.
  destruct X as [[c| | | |] s]; try reflexivity. destruct (c =? 0); reflexivity.
Qed.

Lemma tail_result (X : res Z * scanner_set) :
  fst (let '(r, ss') := X in
       match r with
       | Ret c => if c =? 0 then (Ret tt, ss') else (Abort, ss')
       | Throw e => (Throw e, ss')
       | Abort => (Abort, ss')
       | Undef => (Undef, ss')
       | NoFuel => (NoFuel, ss')
       end) =
  match fst X with
  | Ret c => if c =? 0 then Ret tt else Abort
  | Throw e => Throw e
  | Abort => Abort
  | Undef => Undef
  | NoFuel => NoFuel
  end.
Proof.
  destruct X as [[c| | | |] s]; try reflexivity. cbn [fst].
  destruct (c =? 0); reflexivity.
Qed.

(** What the processing of a buffer leaves of the scanner set. *)
Lemma process_sbuf_frame (fuel : nat) (ss : scanner_set) (sbuf : Sbuf.sbuf_t)
  (children : Z) :
  same_config ss (snd (process_sbuf fuel ss sbuf children)) /\
  (current_phase ss = PHASE_SCAN /\ Sbuf.depth sbuf < max_depth ss ->
   sbuf_seen_set (snd (process_sbuf fuel ss sbuf children))
     = {[ sbuf_hash sbuf ]} ∪ sbuf_seen_set ss /\
   max_depth_seen (snd (process_sbuf fuel ss sbuf children))
     = Z.max (max_depth_seen ss) (Sbuf.depth sbuf)) /\
  (~ (current_phase ss = PHASE_SCAN /\ Sbuf.depth sbuf < max_depth ss) ->
   sbuf_seen_set (snd (process_sbuf fuel ss sbuf children)) = sbuf_seen_set ss /\
   max_depth_seen (snd (process_sbuf fuel ss sbuf children)) = max_depth_seen ss).
Proof.
  unfold process_sbuf.
  destruct (current_phase ss) eqn:Hph; cbn [phase_eqb negb snd];
    try (split; [apply same_config_refl|]; split;
         [intros [Hc _]; discriminate | intros _; split; reflexivity]).
  rewrite tail_state.
  destruct (Z.geb_spec (Sbuf.depth sbuf) (max_depth ss)) as [Hge | Hlt].
  { destruct (alert_write fuel (fs ss) (Sbuf.pos0 sbuf) _ _); cbn [snd];
      (split; [repeat split; try exact Hph|]);
      (split; [intros [_ Hc]; lia | intros _; split; reflexivity]). }
  cbv zeta.
  assert (Hloop : forall s : scanner_set,
    same_config ss s ->
    sbuf_seen_set s = {[ sbuf_hash sbuf ]} ∪ sbuf_seen_set ss ->
    max_depth_seen s = Z.max (max_depth_seen ss) (Sbuf.depth sbuf) ->
    forall (sb : bool) (ng : Z),
    same_config ss (snd (dispatch fuel (scanner_info_db s) s sbuf sb ng children)) /\
    (PHASE_SCAN = PHASE_SCAN /\ Sbuf.depth sbuf < max_depth ss ->
     sbuf_seen_set (snd (dispatch fuel (scanner_info_db s) s sbuf sb ng children))
       = {[ sbuf_hash sbuf ]} ∪ sbuf_seen_set ss /\
     max_depth_seen (snd (dispatch fuel (scanner_info_db s) s sbuf sb ng children))
       = Z.max (max_depth_seen ss) (Sbuf.depth sbuf)) /\
    (~ (PHASE_SCAN = PHASE_SCAN /\ Sbuf.depth sbuf < max_depth ss) ->
     sbuf_seen_set (snd (dispatch fuel (scanner_info_db s) s sbuf sb ng children))
       = sbuf_seen_set ss /\
     max_depth_seen (snd (dispatch fuel (scanner_info_db s) s sbuf sb ng children))
       = max_depth_seen ss)).
  { intros s (Hc1 & Hc2 & Hc3 & Hc4 & Hc5 & Hc6 & Hc7) Hseen Hmax sb ng.
    destruct (dispatch_frame fuel sbuf sb ng (scanner_info_db s) s children)
      as ((Hd1 & Hd2 & Hd3 & Hd4 & Hd5 & Hd6 & Hd7) & Hs & Hm & _).
    split; [repeat split; congruence|].
    split; [intros _; split; congruence | intros Hn; exfalso; apply Hn; split; [reflexivity | lia]]. }
  assert (Hstop : forall s : scanner_set,
    same_config ss s ->
    sbuf_seen_set s = {[ sbuf_hash sbuf ]} ∪ sbuf_seen_set ss ->
    max_depth_seen s = Z.max (max_depth_seen ss) (Sbuf.depth sbuf) ->
    same_config ss s /\
    (PHASE_SCAN = PHASE_SCAN /\ Sbuf.depth sbuf < max_depth ss ->
     sbuf_seen_set s = {[ sbuf_hash sbuf ]} ∪ sbuf_seen_set ss /\
     max_depth_seen s = Z.max (max_depth_seen ss) (Sbuf.depth sbuf)) /\
    (~ (PHASE_SCAN = PHASE_SCAN /\ Sbuf.depth sbuf < max_depth ss) ->
     sbuf_seen_set s = sbuf_seen_set ss /\ max_depth_seen s = max_depth_seen ss)).
  { intros s Hc Hseen Hmax. split; [exact Hc|].
    split; [intros _; split; assumption | intros Hn; exfalso; apply Hn; split; [reflexivity | lia]]. }
  destruct (bool_decide (sbuf_hash sbuf ∈ sbuf_seen_set ss)).
  - destruct (dup_data_alerts _).
    + destruct (alert_write fuel _ _ _ _); cbn [snd];
        first [apply Hloop | apply Hstop]; try reflexivity; repeat split; exact Hph.
    + apply Hloop; try reflexivity; repeat split; exact Hph.
  - apply Hloop; try reflexivity; repeat split; exact Hph.
Qed.

(** X26. The processing of a buffer keeps the books of the scanner set:
    it never changes the registered scanners, the enabled set, the
    limits or the phase; below the depth limit and in the scanning
    phase it puts the hash of the buffer into the set of the buffers
    seen and raises [max_depth_seen] to the depth of the buffer, and
    otherwise it leaves both alone.  So [max_depth_seen] never gets
    lower and, once below [max_depth], stays below it. *)
Theorem process_sbuf_bookkeeping (fuel : nat) (ss : scanner_set) (sbuf : Sbuf.sbuf_t)
  (children : Z) :
  let ss' := snd (process_sbuf fuel ss sbuf children) in
  same_config ss ss' /\
  sbuf_seen_set ss ⊆ sbuf_seen_set ss' /\
  max_depth_seen ss <= max_depth_seen ss' /\
  (max_depth_seen ss < max_depth ss -> max_depth_seen ss' < max_depth ss') /\
  (current_phase ss = PHASE_SCAN /\ Sbuf.depth sbuf < max_depth ss ->
   sbuf_hash sbuf ∈ sbuf_seen_set ss' /\ Sbuf.depth sbuf <= max_depth_seen ss') /\
  (~ (current_phase ss = PHASE_SCAN /\ Sbuf.depth sbuf < max_depth ss) ->
   sbuf_seen_set ss' = sbuf_seen_set ss /\ max_depth_seen ss' = max_depth_seen ss).
Proof.
  intros ss'. subst ss'.
  destruct (process_sbuf_frame fuel ss sbuf children)
    as ((Hc1 & Hc2 & Hc3 & Hc4 & Hc5 & Hc6 & Hc7) & Hin & Hout).
  destruct (current_phase ss) eqn:Hph;
    try (destruct Hout as [Hs Hm]; [intros [Hc _]; discriminate|];
         split; [repeat split; congruence|];
         split; [rewrite Hs; first [reflexivity | apply union_subseteq_r]|]; split; [lia|]; split; [lia|];
         split; [intros [Hc _]; discriminate | intros _; split; assumption]).
  destruct (Z.lt_ge_cases (Sbuf.depth sbuf) (max_depth ss)) as [Hlt | Hge].
  - destruct Hin as [Hs Hm]; [split; [reflexivity | exact Hlt]|].
    split; [repeat split; congruence|].
    split; [rewrite Hs; first [reflexivity | apply union_subseteq_r]|]. split; [lia|]. split; [lia|].
    split; [intros _; split; [rewrite Hs; apply elem_of_union_l, elem_of_singleton_2; reflexivity | lia]|].
    intros Hn. exfalso. apply Hn. split; [reflexivity | exact Hlt].
  - destruct Hout as [Hs Hm]; [intros [_ Hc]; lia|].
    split; [repeat split; congruence|].
    split; [rewrite Hs; first [reflexivity | apply union_subseteq_r]|]. split; [lia|]. split; [lia|].
    split; [intros [_ Hc]; lia | intros _; split; assumption].
Qed.

(** X27. A buffer is processed in full once: after a buffer has been
    processed below the depth limit, the processing of a buffer with
    the same hash calls only scanners whose flag [scan_seen_before] is
    set, whatever the two calls return. *)
Theorem second_pass_calls_seen_before_only (fuel fuel' : nat) (ss : scanner_set)
  (sbuf sbuf' : Sbuf.sbuf_t) (children children' : Z) :
  current_phase ss = PHASE_SCAN ->
  Sbuf.depth sbuf < max_depth ss ->
  sbuf_hash sbuf' = sbuf_hash sbuf ->
  exists called,
    invoked (snd (process_sbuf fuel' (snd (process_sbuf fuel ss sbuf children)) sbuf' children'))
      = (invoked (snd (process_sbuf fuel ss sbuf children)) ++ called)%list /\
    forall k, In k called ->
      exists i, In (k, i) (scanner_info_db ss) /\
                set_mem k (enabled_scanners ss) = true /\
                scan_seen_before (scanner_flags i) = true.
Proof.
  intros Hph Hdepth Hhash.
  destruct (process_sbuf_frame fuel ss sbuf children)
    as ((_ & Hdb & Hen & _) & Hin & _).
  destruct Hin as [Hseen _]; [split; assumption|].
  destruct (process_sbuf_calls_only_to_run fuel' (snd (process_sbuf fuel ss sbuf children))
              sbuf' children') as (called & rest & Hinv & Hrun).
  exists called. split; [exact Hinv|]. intros k Hk.
  assert (Hto : In k (called ++ rest)) by (apply in_or_app; left; exact Hk).
  rewrite <- Hrun in Hto. apply in_to_run in Hto as (i & Hi & Hen' & _ & _ & Hsb).
  rewrite Hdb in Hi. rewrite Hen in Hen'.
  exists i. split; [exact Hi|]. split; [exact Hen'|].
  destruct (scan_seen_before (scanner_flags i)); [reflexivity|].
  exfalso. apply Hsb. split; [|reflexivity].
  apply bool_decide_eq_true_2. rewrite Hseen, Hhash.
  apply elem_of_union_l, elem_of_singleton_2. reflexivity.
Qed.

(** Without an alert recorder the handlers of the dispatch loop swallow
    the exception of a scanner. *)
Lemma handler_alert_without_recorder (fuel : nat) (f : feature_recorder_set)
  (sbuf : Sbuf.sbuf_t) (name context : string) :
  frm f !! ALERT_RECORDER_NAME = None ->
  handler_alert fuel f sbuf name context = Ret f.
Proof.
  intros Hnone. unfold handler_alert, alert_write, get_alert_recorder, named_feature_recorder.
  rewrite Hnone. reflexivity.
Qed.

Lemma dispatch_without_alerts (fuel : nat) (sbuf : Sbuf.sbuf_t) (seen_before : bool)
  (ngram_size : Z) (db : list (N * scanner_info)) :
  (forall k b c f, frm f !! ALERT_RECORDER_NAME = None ->
                   frm (snd (scanner_scan k b c f)) !! ALERT_RECORDER_NAME = None) ->
  forall (ss : scanner_set) (children : Z),
    frm (fs ss) !! ALERT_RECORDER_NAME = None ->
    exists children' ss',
      dispatch fuel db ss sbuf seen_before ngram_size children = (Ret children', ss') /\
      frm (fs ss') !! ALERT_RECORDER_NAME = None /\
      invoked ss' = (invoked ss ++ to_run ss sbuf seen_before ngram_size db)%list.
Proof.
  intros Hkeep. induction db as [|[k i] tl IH]; intros ss children Hnone.
  { exists children, ss. unfold to_run. cbn [dispatch List.filter map].
    rewrite app_nil_r. repeat split. exact Hnone. }
  cbn [dispatch]. unfold to_run. cbn [List.filter fst snd].
  destruct (skipped ss sbuf seen_before ngram_size k i) eqn:Hskip; cbn [negb].
  { apply IH. exact Hnone. }
  pose proof (Hkeep k sbuf children (fs ss) Hnone) as Hn1.
  destruct (scanner_scan k sbuf children (fs ss)) as [[out children1] f1].
  cbn [snd] in Hn1.
  assert (Hh : match out with
               | returned => Ret f1
               | threw e => handler_alert fuel f1 sbuf (si_name i)
                              ("<exception>" +:+ exn_what e +:+ "</exception>")
               | threw_other => handler_alert fuel f1 sbuf (si_name i)
                                  "<unknown_exception></unknown_exception>"
               end = Ret f1).
  { destruct out; [reflexivity | |]; apply handler_alert_without_recorder; exact Hn1. }
  rewrite Hh.
  destruct (IH (set_fs (add_invoked (set_fs ss f1) k) f1) children1 Hn1)
    as (c' & ss' & Hd & Hn' & Hinv).
  exists c', ss'. split; [exact Hd|]. split; [exact Hn'|].
  rewrite Hinv. cbn [invoked set_fs add_invoked map]. rewrite <- app_assoc. reflexivity.
Qed.

(** X28. Without an alert recorder (the set was made with [no_alert])
    the exceptions of scanners are swallowed without a trace, and every
    scanner that is not skipped is called; but the alert for a buffer
    at the depth limit, and the alert for a buffer seen before when
    [dup_data_alerts] is set, leave [process_sbuf] as the exception
    [NoSuchFeatureRecorder], before any scanner has been called. *)
Theorem process_sbuf_without_alert_recorder (fuel : nat) (ss : scanner_set)
  (sbuf : Sbuf.sbuf_t) (children : Z) :
  current_phase ss = PHASE_SCAN ->
  frm (fs ss) !! ALERT_RECORDER_NAME = None ->
  (forall k b c f, frm f !! ALERT_RECORDER_NAME = None ->
                   frm (snd (scanner_scan k b c f)) !! ALERT_RECORDER_NAME = None) ->
  (Sbuf.depth sbuf >= max_depth ss ->
     process_sbuf fuel ss sbuf children
     = (Throw (NoSuchFeatureRecorder ("No such feature recorder: " +:+ ALERT_RECORDER_NAME)),
        ss)) /\
  (Sbuf.depth sbuf < max_depth ss ->
     bool_decide (sbuf_hash sbuf ∈ sbuf_seen_set ss) && dup_data_alerts ss = true ->
     fst (process_sbuf fuel ss sbuf children)
     = Throw (NoSuchFeatureRecorder ("No such feature recorder: " +:+ ALERT_RECORDER_NAME)) /\
     invoked (snd (process_sbuf fuel ss sbuf children)) = invoked ss) /\
  (Sbuf.depth sbuf < max_depth ss ->
     bool_decide (sbuf_hash sbuf ∈ sbuf_seen_set ss) && dup_data_alerts ss = false ->
     (fst (process_sbuf fuel ss sbuf children) = Ret tt \/
      fst (process_sbuf fuel ss sbuf children) = Abort) /\
     invoked (snd (process_sbuf fuel ss sbuf children))
     = (invoked ss ++
        to_run ss sbuf (bool_decide (sbuf_hash sbuf ∈ sbuf_seen_set ss))
               (find_ngram_size sbuf (max_ngram ss)) (scanner_info_db ss))%list /\
     frm (fs (snd (process_sbuf fuel ss sbuf children))) !! ALERT_RECORDER_NAME = None).
Proof.
  intros Hph Hnone Hkeep.
  assert (Halert : forall f p a b, frm f !! ALERT_RECORDER_NAME = None ->
            alert_write fuel f p a b
            = Throw (NoSuchFeatureRecorder ("No such feature recorder: " +:+ ALERT_RECORDER_NAME))).
  { intros f p a b Hf. unfold alert_write, get_alert_recorder, named_feature_recorder.
    rewrite Hf. reflexivity. }
  assert (Hloop : forall (sb : bool) (s : scanner_set),
    frm (fs s) !! ALERT_RECORDER_NAME = None -> invoked s = invoked ss ->
    enabled_scanners s = enabled_scanners ss -> scanner_info_db s = scanner_info_db ss ->
    max_ngram s = max_ngram ss ->
    forall X, X = dispatch fuel (scanner_info_db s) s sbuf sb
                    (find_ngram_size sbuf (max_ngram s)) children ->
    (match fst X with
     | Ret c => if c =? 0 then Ret tt else Abort
     | Throw e => Throw e
     | Abort => Abort
     | Undef => Undef
     | NoFuel => NoFuel
     end = Ret tt \/
     match fst X with
     | Ret c => if c =? 0 then Ret tt else Abort
     | Throw e => Throw e
     | Abort => Abort
     | Undef => Undef
     | NoFuel => NoFuel
     end = Abort) /\
    invoked (snd X)
    = (invoked ss ++
       to_run ss sbuf sb (find_ngram_size sbuf (max_ngram ss)) (scanner_info_db ss))%list /\
    frm (fs (snd X)) !! ALERT_RECORDER_NAME = None).
  { intros sb s Hs Hinv Hen Hdb Hng X ->.
    destruct (dispatch_without_alerts fuel sbuf sb
                (find_ngram_size sbuf (max_ngram s)) (scanner_info_db s) Hkeep s children Hs)
      as (c' & s' & Hd & Hn' & Hi).
    rewrite Hd. cbn [fst snd].
    split; [destruct (c' =? 0); [left | right]; reflexivity|].
    split; [|exact Hn'].
    rewrite Hi, Hinv, Hdb, Hng. f_equal. unfold to_run. f_equal.
    apply List.filter_ext. intros [k i]. cbn [fst snd].
    rewrite (skipped_same ss s) by exact Hen. reflexivity. }
  split; [|split].
  - intros Hge. unfold process_sbuf. rewrite Hph. cbn [phase_eqb negb].
    destruct (Z.geb_spec (Sbuf.depth sbuf) (max_depth ss)); [|lia].
    rewrite Halert by exact Hnone. reflexivity.
  - intros Hlt Hdup. apply andb_true_iff in Hdup as [Hseen Hda].
    unfold process_sbuf. rewrite Hph. cbn [phase_eqb negb].
    destruct (Z.geb_spec (Sbuf.depth sbuf) (max_depth ss)); [lia|].
    cbv zeta. rewrite Hseen. cbn [dup_data_alerts note_sbuf]. rewrite Hda.
    rewrite Halert by exact Hnone. split; reflexivity.
  - intros Hlt Hdup. unfold process_sbuf. rewrite Hph. cbn [phase_eqb negb].
    rewrite tail_result, tail_state.
    destruct (Z.geb_spec (Sbuf.depth sbuf) (max_depth ss)); [lia|].
    cbv zeta.
    remember (bool_decide (sbuf_hash sbuf ∈ sbuf_seen_set ss)) as sb eqn:Hsb.
    destruct sb.
    + cbn [andb] in Hdup. cbn [dup_data_alerts note_sbuf]. rewrite Hdup.
      match goal with
      | |- context [dispatch fuel (scanner_info_db ?s) ?s sbuf _ _ children] =>
          eapply (Hloop _ s); [exact Hnone | reflexivity ..]
      end.
    + match goal with
      | |- context [dispatch fuel (scanner_info_db ?s) ?s sbuf _ _ children] =>
          eapply (Hloop _ s); [exact Hnone | reflexivity ..]
      end.
Qed.

End WithScanners.
End ProcessMore.

(** ** More facts about unquoting *)

Module QuoteMore.
Import Quote QuoteFacts.

Lemma unquote_loop_plain (s : string) :
  contains "\" s = false -> unquote_loop s = s.
Proof.
  induction s as [|c t IH]; intros Hc; [reflexivity|].
  cbn [contains] in Hc. destruct (Ascii.eqb c "\") eqn:Hb; [discriminate|].
  rewrite unquote_loop_other by exact Hb. rewrite IH by exact Hc. reflexivity.
Qed.

(** X29. [unquote_string] leaves a string without a backslash as it is. *)
Theorem unquote_string_plain (s : string) :
  contains "\" s = false -> unquote_string s = s.
Proof.
  intros Hc. unfold unquote_string.
  destruct (strlen s <? 4); [reflexivity | apply unquote_loop_plain; exact Hc].
Qed.

Lemma unquote_loop_four (c0 c1 c2 c3 : ascii) (rest : string) :
  unquote_loop (String c0 (String c1 (String c2 (String c3 rest)))) =
  if Ascii.eqb c0 "\" && isodigit c1 && isodigit c2 && isodigit c3 then
    String (char_of ((code c1 - code "0") * 64 + (code c2 - code "0") * 8
                     + (code c3 - code "0")))
           (unquote_loop rest)
  else if Ascii.eqb c0 "\" && Ascii.eqb c1 "x" && isxdigit c2 && isxdigit c3 then
    String (char_of (Z.lor (hexval c2 * 16) (hexval c3))) (unquote_loop rest)
  else String c0 (unquote_loop (String c1 (String c2 (String c3 rest)))).
Proof. reflexivity. Qed.

Lemma unquote_loop_length (n : nat) :
  forall s : string,
    (String.length s <= n)%nat ->
    (String.length (unquote_loop s) <= String.length s)%nat.
Proof.
  induction n as [|n IH]; intros s Hn.
  { destruct s; [cbn; lia | cbn in Hn; lia]. }
  destruct s as [|c0 t]; [cbn; lia|].
  assert (Ht : (String.length (unquote_loop t) <= String.length t)%nat)
    by (apply IH; cbn in Hn; lia).
  destruct t as [|c1 [|c2 [|c3 rest]]];
    try (cbn [unquote_loop String.length] in *; lia).
  assert (Hr : (String.length (unquote_loop rest) <= String.length rest)%nat)
    by (apply IH; cbn in Hn; lia).
  rewrite unquote_loop_four.
  destruct (Ascii.eqb c0 "\" && isodigit c1 && isodigit c2 && isodigit c3);
    [cbn [String.length]; lia|].
  destruct (Ascii.eqb c0 "\" && Ascii.eqb c1 "x" && isxdigit c2 && isxdigit c3).
  - cbn [String.length]; lia.
  - change (String.length (String c0 (unquote_loop (String c1 (String c2 (String c3 rest))))))
      with (S (String.length (unquote_loop (String c1 (String c2 (String c3 rest)))))).
    change (String.length (String c0 (String c1 (String c2 (String c3 rest)))))
      with (S (String.length (String c1 (String c2 (String c3 rest))))).
    lia.
Qed.

(** X30. [unquote_string] never makes a string longer. *)
Theorem unquote_string_not_longer (s : string) :
  strlen (unquote_string s) <= strlen s.
Proof.
  unfold unquote_string. destruct (strlen s <? 4); [lia|].
  unfold strlen. pose proof (unquote_loop_length (String.length s) s (le_n _)). lia.
Qed.

End QuoteMore.

(** ** The further theorems at concrete instances *)

Module Examples2.
Import FR SS Props SSOps Fixtures Fixtures2.
Import Sbuf SbufOps SbufHeap SbufHeapOps.
Import SbufOpsFacts SbufHeapOpsFacts Strs StrsFacts FRMore SSMore ProcessMore QuoteMore.
#[local] Existing Instance externals0.
#[local] Existing Instance scanners0.

Lemma wf_text_buf : wf text_buf.
Proof. unfold wf; cbn; lia. Qed.

Lemma wf_line_buf : wf line_buf.
Proof. unfold wf; cbn; lia. Qed.

Lemma wf_four_bytes : wf (view root_node).
Proof. unfold wf; cbn; lia. Qed.

Lemma no_nul_cd : no_nul "cd".
Proof. intros c [<- | [<- | []]]; vm_compute; discriminate. Qed.

Lemma NoDup_ss_scan : NoDup (map fst (scanner_info_db ss_scan)).
Proof. apply (bool_decide_unpack _). vm_compute. exact I. Qed.

Lemma NoDup_ss_two : NoDup (map fst (scanner_info_db ss_two)).
Proof. apply (bool_decide_unpack _). vm_compute. exact I. Qed.

Lemma scanners0_add_no_alerts :
  forall (k : N) (b : sbuf_t) (c : Z) (f : feature_recorder_set),
    frm f !! ALERT_RECORDER_NAME = None ->
    frm (scanner_scan k b c f).2 !! ALERT_RECORDER_NAME = None.
Proof. intros k b c f Hnone. exact Hnone. Qed.

(** Index 9 lies behind the eight bytes of [text_buf]. *)
Lemma index_total_and_safe_witness : Sbuf.index text_buf 9 = Ret 0.
Proof.
  apply (proj2 (index_total_and_safe text_buf 9 wf_text_buf ltac:(lia))).
  cbn; lia.
Defined.

(** The largest [size_t] as [at]: [at + len] would wrap to 0. *)
Lemma memcmp_checks_without_wrap_witness :
  memcmp text_buf [] (2 ^ 64 - 1) 1 = Throw range_exception_t.
Proof.
  apply (proj1 (memcmp_checks_without_wrap text_buf [] (2 ^ 64 - 1) 1 wf_text_buf
                  ltac:(lia) ltac:(lia))).
  - lia.
  - cbn; lia.
Defined.

(** A structure of four bytes at offset 6 of the eight bytes of [text_buf]. *)
Lemma get_struct_ptr_inside_witness :
  match get_struct_ptr text_buf 4 6 with
  | Some p => p = 6 /\ 6 + 4 <= bufsize text_buf
  | None => bufsize text_buf < 6 + 4
  end.
Proof.
  apply (get_struct_ptr_inside text_buf 4 6); lia.
Defined.

(** The byte [g] of [text_buf] lies in the margin. *)
Lemma find_ch_first_in_page_witness :
  exists r : Z,
    find_ch text_buf 103 0 = Ret r /\
    (r = -1 /\ (forall i : Z, 0 <= i < pagesize text_buf -> byte_at text_buf i <> Some 103)
     \/ 0 <= r < pagesize text_buf /\
        byte_at text_buf r = Some 103 /\
        forall i : Z, 0 <= i < r -> byte_at text_buf i <> Some 103).
Proof.
  apply (find_ch_first_in_page text_buf 103 0 wf_text_buf); cbn; lia.
Defined.

Lemma find_str_sound_witness :
  0 <= 2 /\
  2 + strlen "cd" <= bufsize text_buf /\
  forall (j : nat) (c : ascii),
    nth_error (list_ascii_of_string "cd") j = Some c ->
    byte_at text_buf (2 + Z.of_nat j) = Some (Quote.code c).
Proof.
  apply (find_str_sound false text_buf "cd" 0 2 wf_text_buf).
  - cbn; lia.
  - exact no_nul_cd.
  - lia.
  - vm_compute; reflexivity.
  - lia.
Defined.

(** [ab] is at index 1 of [aab] and is not found. *)
Lemma find_str_misses_overlap_witness :
  find_str true aab_buf "ab" 0 = Ret (-1) /\ slice aab_buf 1 2 = ["a"; "b"]%byte.
Proof.
  apply (find_str_misses_overlap true aab_buf "a"%byte "b"%byte []).
  - reflexivity.
  - reflexivity.
  - cbn; lia.
  - cbn; lia.
  - discriminate.
  - vm_compute; discriminate.
  - vm_compute; discriminate.
  - intros b [].
Defined.

(** From inside the first line of [line_buf]. *)
Lemma getline_next_line_witness :
  exists g : getline_result,
    getline line_buf 1 0 0 = Ret g /\
    (if found g
     then
       1 <= line_start g < pagesize line_buf /\
       (1 = 0 -> line_start g = 0) /\
       (0 < 1 ->
        byte_at line_buf (line_start g - 1) = Some 10 /\
        forall i : Z, 1 <= i < line_start g -> byte_at line_buf (i - 1) <> Some 10) /\
       line_start g < new_pos g <= pagesize line_buf /\
       line_len g = new_pos g - line_start g /\
       (new_pos g < pagesize line_buf -> byte_at line_buf (new_pos g) = Some 10) /\
       forall i : Z, line_start g < i < new_pos g -> byte_at line_buf i <> Some 10
     else
       line_start g = 0 /\
       line_len g = 0 /\
       (pagesize line_buf <= 1 \/
        0 < 1 /\
        forall i : Z, 1 <= i < pagesize line_buf -> byte_at line_buf (i - 1) <> Some 10)).
Proof.
  apply (getline_next_line line_buf 1 0 0 wf_line_buf). lia.
Defined.

(** The child of two bytes at offset 1 of the four bytes of the root
    lies inside; the child at offset 2 with the length [SIZE_MAX] claims
    [SIZE_MAX] bytes. *)
Lemma sbuf_off_len_view_witness :
  (exists (h' : gmap N node) (v : sbuf_t),
     sbuf_off_len root_heap 2 1 1 2 = Ret h' /\
     view_of h' 2 = Some v /\
     bufsize v = Z.min 2 (bufsize (view root_node) - 1) /\
     pagesize v = bufsize v /\
     wf v /\
     forall i : Z, 0 <= i < bufsize v -> byte_at v i = byte_at (view root_node) (1 + i)) /\
  (exists (h' : gmap N node) (v : sbuf_t),
     sbuf_off_len root_heap 2 1 2 (2 ^ 64 - 1) = Ret h' /\
     view_of h' 2 = Some v /\
     bufsize v = 2 ^ 64 - 1 /\ pagesize v = 2 ^ 64 - 1 /\
     bufsize (view root_node) - 2 < bufsize v).
Proof.
  split.
  - destruct (sbuf_off_len_view root_heap 2 1 1 2 root_node root_node eq_refl eq_refl
                eq_refl wf_four_bytes ltac:(lia) ltac:(lia))
      as (h' & v & Hc & Hv & Hin & _).
    exists h', v. split; [exact Hc|]. split; [exact Hv|].
    apply Hin; cbn; lia.
  - destruct (sbuf_off_len_view root_heap 2 1 2 (2 ^ 64 - 1) root_node root_node eq_refl
                eq_refl eq_refl wf_four_bytes ltac:(lia) ltac:(lia))
      as (h' & v & Hc & Hv & _ & _ & Hwrap & _).
    exists h', v. split; [exact Hc|]. split; [exact Hv|].
    apply Hwrap; cbn; lia.
Defined.

Lemma operator_plus_view_witness :
  exists (h' : gmap N node) (v : sbuf_t),
    operator_plus root_heap 2 1 1 = Ret h' /\
    view_of h' 2 = Some v /\
    bufsize v = Z.max 0 (bufsize (view root_node) - 1) /\
    pagesize v = Z.max 0 (pagesize (view root_node) - 1) /\
    wf v /\
    forall i : Z, 0 <= i < bufsize v -> byte_at v i = byte_at (view root_node) (1 + i).
Proof.
  apply (operator_plus_view root_heap 2 1 1 root_node).
  - reflexivity.
  - exact wf_four_bytes.
  - lia.
Defined.

Lemma operator_plus_adds_up_witness :
  exists (h1 h2 h3 : gmap N node) (v2 v3 : sbuf_t),
    operator_plus root_heap 2 1 1 = Ret h1 /\
    operator_plus h1 3 2 2 = Ret h2 /\
    operator_plus root_heap 4 1 (1 + 2) = Ret h3 /\
    view_of h2 3 = Some v2 /\
    view_of h3 4 = Some v3 /\
    buf v2 = buf v3 /\ bufsize v2 = bufsize v3 /\ pagesize v2 = pagesize v3.
Proof.
  apply (operator_plus_adds_up root_heap 2 3 4 1 1 2 root_node).
  - reflexivity.
  - reflexivity.
  - lia.
  - lia.
Defined.

(** A root made with a page of nine bytes on five bytes of storage. *)
Lemma constructors_keep_page_le_buf_witness :
  page_le_buf (sbuf_root root_heap 2 (mk_pos0 EmptyString 0 0) [] 5 9).
Proof.
  assert (Hroot : page_le_buf root_heap) by (apply map_Forall_singleton; cbn; lia).
  apply (proj1 (constructors_keep_page_le_buf root_heap Hroot)).
Defined.

(** The child at 2 is moved to 3: the root at 1 counts one child, and
    the second of the two destructors aborts. *)
Lemma sbuf_move_is_uncounted_twice_witness :
  exists h1 h2 : gmap N node,
    sbuf_move family_heap 3 2 = Ret h1 /\
    children_of h1 1 = Some 1 /\
    destroy h1 2 = Ret h2 /\
    children_of h2 1 = Some (1 - 1) /\
    destroy h2 3 = Abort.
Proof.
  destruct (family_heap !! 2%N) as [t|] eqn:Ht; [|vm_compute in Ht; discriminate Ht].
  destruct (family_heap !! 1%N) as [pn|] eqn:Hpn; [|vm_compute in Hpn; discriminate Hpn].
  assert (Hpar : parent t = Some 1%N)
    by (vm_compute in Ht; injection Ht as <-; reflexivity).
  assert (Hch : children pn = 1)
    by (vm_compute in Hpn; injection Hpn as <-; reflexivity).
  destruct (proj2 (sbuf_move_is_uncounted_twice family_heap 3 2 1 t pn eq_refl Ht)
              Hpar Hpn ltac:(discriminate) ltac:(lia))
    as (h1 & h2 & Hmove & Hc1 & Hd & Hc2 & Hlast).
  rewrite Hch in Hc1, Hc2, Hlast.
  exists h1, h2. repeat split; assumption.
Defined.

Lemma extract_feature_of_line_witness :
  extract_feature (feature_line "123" "abc" "ctx") = Ret "abc" /\
  extract_feature ("123" +:+ String "009" "abc") = Ret "abc".
Proof.
  apply (extract_feature_of_line "123" "abc" "ctx"); reflexivity.
Defined.


Lemma no_histogram_after_write_witness :
  set_histogram_add fs_written hist_url =
  Throw (runtime_error "Cannot add histograms after features have been written.").
Proof.
  apply (no_histogram_after_write 0 fs_plain fs_written "url" rec_url pos0_zero
           "abc" "ctx" hist_url).
  - reflexivity.
  - reflexivity.
  - reflexivity.
  - cbn; lia.
  - vm_compute; reflexivity.
  - intros Heq.
    apply (f_equal (fun s => features_written <$> frm s !! "url")) in Heq.
    vm_compute in Heq. discriminate Heq.
  - reflexivity.
Defined.

Lemma write_buf_context_surrounds_witness :
  let len' := write_buf_len text_buf 2 3 in
  let p0 := Z.max 0 (2 - context_window rec_url) in
  let p1 := Z.min (bufsize text_buf) (2 + len' + context_window rec_url) in
  len' = Z.min 3 (bufsize text_buf - 2) /\
  write_buf_context rec_url text_buf 2 len' = sbuf_substr text_buf p0 (p1 - p0) /\
  p0 <= 2 /\ 2 + len' <= p1 <= bufsize text_buf.
Proof.
  apply (write_buf_context_surrounds rec_url text_buf 2 3); cbn; lia.
Defined.

Lemma create_then_named_witness :
  named_feature_recorder fs_empty (def_name (def0 "url")) =
    Throw (NoSuchFeatureRecorder ("No such feature recorder: " +:+ def_name (def0 "url"))) /\
  exists fs' : feature_recorder_set,
    create_feature_recorder fs_empty (def0 "url") = Ret fs' /\
    named_feature_recorder fs' (def_name (def0 "url")) = Ret (new_recorder (def0 "url")) /\
    (forall n : string,
       n <> def_name (def0 "url") ->
       named_feature_recorder fs' n = named_feature_recorder fs_empty n) /\
    (forall d' : feature_recorder_def,
       def_name d' = def_name (def0 "url") ->
       create_feature_recorder fs' d' =
         Throw (FeatureRecorderAlreadyExists
                  ("feature recorder already exists: " +:+ def_name (def0 "url")))) /\
    set_flags fs' = set_flags fs_empty /\ disk fs' = disk fs_empty.
Proof.
  apply (create_then_named fs_empty (def0 "url")); reflexivity.
Defined.

Lemma carve_ignores_disabled_witness :
  exists (fs' : feature_recorder_set) (r' : feature_recorder),
    carve 1 fs_disabled "url" head_buf text_buf ".bin" 0 =
      (Ret (carved_relative_path rec_url text_buf ".bin" (carved_file_count rec_url)), fs') /\
    In (file_written
          (carved_absolute_path fs_disabled rec_url text_buf ".bin"
             (carved_file_count rec_url))
          (sbuf_bytes head_buf ++ sbuf_bytes text_buf))
       (disk fs') /\
    files_written (disk fs') = S (files_written (disk fs_disabled)) /\
    frm fs' !! "url" = Some r' /\
    write0_log r' = write0_log rec_url /\
    features_written r' = features_written rec_url.
Proof.
  apply (carve_ignores_disabled 0 fs_disabled "url" rec_url head_buf text_buf ".bin" 0).
  - reflexivity.
  - reflexivity.
  - vm_compute; exact I.
  - set_solver.
  - reflexivity.
  - reflexivity.
Defined.

Lemma add_scanner_registers_witness :
  exists ss' : scanner_set,
    add_scanner ss_init 1 = Ret ss' /\
    db_find 1 (scanner_info_db ss') = Some info_good1 /\
    (forall k' : N,
       k' <> 1%N ->
       db_find k' (scanner_info_db ss') = db_find k' (scanner_info_db ss_init) /\
       set_mem k' (enabled_scanners ss') = set_mem k' (enabled_scanners ss_init)) /\
    set_mem 1 (enabled_scanners ss') =
      default_enabled (scanner_flags info_good1) || set_mem 1 (enabled_scanners ss_init) /\
    fs ss' = fs ss_init /\
    current_phase ss' = current_phase ss_init /\
    add_scanner ss' 1 = Throw (runtime_error "scanner already added").
Proof.
  apply (add_scanner_registers ss_init 1 info_good1); reflexivity.
Defined.

Lemma enabled_registered_ss_scan : enabled_registered ss_scan.
Proof.
  intros k Hin. cbn in Hin.
  destruct Hin as [<- | [<- | [<- | []]]]; vm_compute; discriminate.
Qed.

Lemma enabled_scanners_are_registered_witness :
  get_enabled_scanners ss_scan =
    Ret (map (get_scanner_name ss_scan) (enabled_scanners ss_scan)) /\
  exists b : bool, is_find_scanner_enabled ss_scan = Ret b.
Proof.
  exact (proj2 (proj2 (enabled_scanners_are_registered ss_scan enabled_registered_ss_scan))).
Defined.

Lemma scanner_names_round_trip_witness :
  get_scanner_name ss_scan 2 = "bad" /\
  is_scanner_enabled ss_scan "bad" = Ret (set_mem 2 (enabled_scanners ss_scan)).
Proof.
  apply (proj1 (scanner_names_round_trip ss_scan "bad" NoDup_ss_scan) 2%N).
  vm_compute; reflexivity.
Defined.

(** [good1] was enabled and [off] is enabled by the first command; the
    second command disables both. *)
Lemma last_command_decides_witness :
  set_mem 4 [] = enabled_after (scanner_info_db ss_two) two_commands 4 (set_mem 4 [1%N]).
Proof.
  apply (proj1 (last_command_decides (scanner_info_db ss_two) two_commands [1%N]
                  NoDup_ss_two) []).
  vm_compute; reflexivity.
Defined.

Lemma second_pass_calls_seen_before_only_witness :
  exists called : list N,
    invoked (process_sbuf 2 (process_sbuf 2 ss_scan text_buf 0).2 text_buf 0).2 =
      (invoked (process_sbuf 2 ss_scan text_buf 0).2 ++ called)%list /\
    forall k : N,
      In k called ->
      exists i : scanner_info,
        In (k, i) (scanner_info_db ss_scan) /\
        set_mem k (enabled_scanners ss_scan) = true /\
        scan_seen_before (scanner_flags i) = true.
Proof.
  apply (second_pass_calls_seen_before_only 2 2 ss_scan text_buf text_buf 0 0).
  - reflexivity.
  - cbn; lia.
  - reflexivity.
Defined.

Lemma process_sbuf_without_alert_recorder_witness :
  ((process_sbuf 2 ss_no_alerts text_buf 0).1 = Ret () \/
   (process_sbuf 2 ss_no_alerts text_buf 0).1 = Abort) /\
  invoked (process_sbuf 2 ss_no_alerts text_buf 0).2 =
    (invoked ss_no_alerts ++
     to_run ss_no_alerts text_buf
       (bool_decide (sbuf_hash text_buf ∈ sbuf_seen_set ss_no_alerts))
       (find_ngram_size text_buf (max_ngram ss_no_alerts))
       (scanner_info_db ss_no_alerts))%list /\
  frm (fs (process_sbuf 2 ss_no_alerts text_buf 0).2) !! ALERT_RECORDER_NAME = None.
Proof.
  apply (proj2 (proj2 (process_sbuf_without_alert_recorder 2 ss_no_alerts text_buf 0
                         eq_refl eq_refl scanners0_add_no_alerts))).
  - cbn; lia.
  - reflexivity.
Defined.

Lemma unquote_string_plain_witness : Quote.unquote_string "plain" = "plain".
Proof.
  apply (unquote_string_plain "plain"). reflexivity.
Defined.

End Examples2.
